(** * FDA drug-label ingestion pipeline: parser, transformer, batch loader

    A shallow embedding of [python-seeder/src/parser.py],
    [python-seeder/src/transformer.py] and [python-seeder/src/seeder.py],
    and of the loop of [DrugSeederOrchestrator.run] in
    [python-seeder/src/main.py] that feeds one into the other, with the
    properties of the pipeline stated and proved over it.

    Conventions of the embedding.
    - A Python [str] is a [string]; one character stands for one code point,
      and the code points are those below 256.  Whitespace, digits and case
      conversion are Python's on that range.
    - A JSON document, as [ijson] delivers it, is a [value]; a JSON object is
      a [gmap string value].
    - Python built-ins and third-party libraries the code calls but does not
      define ([repr] of non-string values, BeautifulSoup, [uuid.uuid4],
      [datetime.now], the failures of the storage server) are the fields of
      an interface the definitions are parameterised by.
    - The storage is PostgreSQL behind psycopg2, with [autocommit] off: an
      error of the server aborts the open transaction, which then refuses
      every statement and is rolled back by [COMMIT] as by [ROLLBACK]; an
      error psycopg2 raises before a statement is sent leaves the
      transaction as it was; a query without [ORDER BY] returns any of the
      rows that match.
    - [print] is modelled only in the parser, where the diagnostic is part
      of the behaviour stated about it.  The closing of the cursor at the
      end of the [with] block of [seed_drugs_batch] and the floating-point
      report of [get_detailed_stats] are not modelled; of [run], the
      progress bar, the status lines and the creation of the indexes are
      not. *)

From stdpp Require Import base option list gmap strings pretty.
From Stdlib Require Import ZArith Lia Ascii.

#[local] Set Warnings "-register-all".
#[local] Open Scope string_scope.

(* ================================================================== *)
(** ** Python strings *)
(* ================================================================== *)

Module PyStr.

Definition ord (c : ascii) : nat := nat_of_ascii c.

Definition between (lo hi n : nat) : bool := (lo <=? n)%nat && (n <=? hi)%nat.

(** [str.isspace] on one character, which is also the class [\s] of [re]
    for [str] patterns: TAB..CR, FS..US, space, NEL and NBSP. *)
Definition isspace (c : ascii) : bool :=
  let n := ord c in
  between 9 13 n || between 28 32 n || (n =? 133)%nat || (n =? 160)%nat.

(** The class [\d] of [re]: the decimal digits. *)
Definition isdigit (c : ascii) : bool := between 48 57 (ord c).

(** [str.lower] on one character: A-Z, and the capital letters of the
    upper half (all of 192..222 but the multiplication sign). *)
Definition lower_char (c : ascii) : ascii :=
  let n := ord c in
  if between 65 90 n || (between 192 222 n && negb (n =? 215)%nat)
  then ascii_of_nat (n + 32) else c.

Fixpoint lower (s : string) : string :=
  match s with
  | EmptyString => EmptyString
  | String c s' => String (lower_char c) (lower s')
  end.

(** [str.upper] leaves the range: sharp s becomes two letters, y with
    diaeresis and the micro sign become code points above 255.  The result
    is therefore a list of code points; the code only compares it. *)
Definition upper_char (c : ascii) : list nat :=
  let n := ord c in
  if between 97 122 n || (between 224 254 n && negb (n =? 247)%nat)
  then [n - 32]
  else if (n =? 223)%nat then [83; 83]
  else if (n =? 255)%nat then [376]
  else if (n =? 181)%nat then [924]
  else [n].

Fixpoint upper (s : string) : list nat :=
  match s with
  | EmptyString => []
  | String c s' => upper_char c ++ upper s'
  end.

Definition nonempty (s : string) : bool :=
  match s with EmptyString => false | String _ _ => true end.

Fixpoint lstrip_by (p : ascii -> bool) (s : string) : string :=
  match s with
  | EmptyString => EmptyString
  | String c s' => if p c then lstrip_by p s' else s
  end.

Fixpoint rstrip_by (p : ascii -> bool) (s : string) : string :=
  match s with
  | EmptyString => EmptyString
  | String c s' =>
      match rstrip_by p s' with
      | EmptyString => if p c then EmptyString else String c EmptyString
      | r => String c r
      end
  end.

(** [s.strip()] *)
Definition strip (s : string) : string := rstrip_by isspace (lstrip_by isspace s).

(** [re.sub(r'\s+', ' ', s)]: every maximal run of whitespace becomes one
    space.  [in_run] tells that the previous character was whitespace. *)
Fixpoint sub_ws (in_run : bool) (s : string) : string :=
  match s with
  | EmptyString => EmptyString
  | String c s' =>
      if isspace c
      then if in_run then sub_ws true s' else String " " (sub_ws true s')
      else String c (sub_ws false s')
  end.

(** [re.sub(r'\s+', ' ', s).strip()] *)
Definition normalize_ws (s : string) : string := strip (sub_ws false s).

(** [needle in hay] *)
Fixpoint contains (needle hay : string) : bool :=
  String.prefix needle hay ||
  match hay with
  | EmptyString => false
  | String _ hay' => contains needle hay'
  end.

(** [s.split(sep)] for a one-character separator. *)
Fixpoint split (sep : ascii) (s : string) : list string :=
  match s with
  | EmptyString => [EmptyString]
  | String c s' =>
      if Ascii.eqb c sep then EmptyString :: split sep s'
      else match split sep s' with
           | x :: xs => String c x :: xs
           | [] => [String c EmptyString]
           end
  end.

(** [sep.join(l)] *)
Fixpoint join (sep : string) (l : list string) : string :=
  match l with
  | [] => EmptyString
  | [x] => x
  | x :: xs => x ++ sep ++ join sep xs
  end.

(** [s[i:j]] for [0 <= i <= j] *)
Definition slice (i j : nat) (s : string) : string := String.substring i (j - i) s.

(** [w.title()] for a one-word lower-case ASCII constant. *)
Definition title (w : string) : string :=
  match w with
  | EmptyString => EmptyString
  | String c w' =>
      String (if between 97 122 (ord c) then ascii_of_nat (ord c - 32) else c) w'
  end.

Definition newline : ascii := "010"%char.

Fixpoint has_char (c : ascii) (s : string) : bool :=
  match s with
  | EmptyString => false
  | String d s' => Ascii.eqb c d || has_char c s'
  end.

End PyStr.

(* ================================================================== *)
(** ** Regular expressions, as much of [re] as the patterns use *)
(* ================================================================== *)

Module Regex.
Import PyStr.

(** The patterns of the transformer are built from literals, the classes
    [\d] and [\s], sequence, ordered alternation, a greedy optional group
    and greedy repetition of a class.  All are matched with
    [re.IGNORECASE]. *)
Inductive re : Type :=
| Eps
| Lit (c : ascii)
| Cls (p : ascii -> bool)
| Cat (r1 r2 : re)
| Alt (r1 r2 : re)
| Opt (r : re)
| Many (p : ascii -> bool).

(** Greedy [p*] followed by the continuation [k]: the longest run first,
    one character given back at a time. *)
Fixpoint many {A} (p : ascii -> bool) (s : string) (k : string -> option A) : option A :=
  match s with
  | String c s' =>
      if p c
      then match many p s' k with
           | Some x => Some x
           | None => k s
           end
      else k s
  | EmptyString => k s
  end.

(** Backtracking matcher: [exec r s k] matches [r] at the start of [s] and
    hands the rest of the input to [k]; the first success in the order a
    backtracking engine tries the alternatives is the result. *)
Fixpoint exec {A} (r : re) (s : string) (k : string -> option A) : option A :=
  match r with
  | Eps => k s
  | Lit c =>
      match s with
      | String d s' => if Ascii.eqb (lower_char d) (lower_char c) then k s' else None
      | EmptyString => None
      end
  | Cls p =>
      match s with
      | String d s' => if p d then k s' else None
      | EmptyString => None
      end
  | Cat r1 r2 => exec r1 s (fun s1 => exec r2 s1 k)
  | Alt r1 r2 =>
      match exec r1 s k with
      | Some x => Some x
      | None => exec r2 s k
      end
  | Opt r1 =>
      match exec r1 s k with
      | Some x => Some x
      | None => k s
      end
  | Many p => many p s k
  end.

(** The text a match starting at [s] consumed, given what it left. *)
Definition consumed (s rest : string) : string :=
  String.substring 0 (String.length s - String.length rest) s.

(** [m = re.match(r, s)]: the matched text. *)
Definition match_at (r : re) (s : string) : option string :=
  exec r s (fun rest => Some (consumed s rest)).

(** [re.findall(r, s)] for a pattern that is one group: the matches from
    left to right, not overlapping.  [skip] counts the characters of the
    previous match still to step over. *)
Fixpoint findall_from (r : re) (skip : nat) (s : string) : list string :=
  match s with
  | EmptyString =>
      match skip with
      | O => match match_at r s with Some w => [w] | None => [] end
      | S _ => []
      end
  | String _ s' =>
      match skip with
      | S n => findall_from r n s'
      | O =>
          match match_at r s with
          | Some w => w :: findall_from r (String.length w - 1) s'
          | None => findall_from r 0 s'
          end
      end
  end.

Definition findall (r : re) (s : string) : list string := findall_from r 0 s.

(** [re.search(Cat pre grp, s).group(1)] where [grp] is the only group. *)
Fixpoint search_group (pre grp : re) (s : string) : option string :=
  match exec pre s (fun s1 => match_at grp s1) with
  | Some w => Some w
  | None =>
      match s with
      | EmptyString => None
      | String _ s' => search_group pre grp s'
      end
  end.

(** Building blocks. *)
Fixpoint word (w : string) : re :=
  match w with
  | EmptyString => Eps
  | String c EmptyString => Lit c
  | String c w' => Cat (Lit c) (word w')
  end.

Fixpoint alts (l : list re) : re :=
  match l with
  | [] => Cls (fun _ => false)
  | [r] => r
  | r :: l' => Alt r (alts l')
  end.

Fixpoint cats (l : list re) : re :=
  match l with
  | [] => Eps
  | [r] => r
  | r :: l' => Cat r (cats l')
  end.

Definition digits : re := Cat (Cls isdigit) (Many isdigit).       (* \d+ *)
Definition spaces : re := Many isspace.                           (* \s* *)
Definition number : re :=                                         (* \d+(?:\.\d+)? *)
  Cat digits (Opt (Cat (Lit ".") digits)).

(** The unit [μg] of the source is spelled with U+03BC, which is outside
    the range of the model; under [re.IGNORECASE] it also matches the micro
    sign U+00B5, which is inside. *)
Definition mu_g : re := Cat (Cls (fun c => (ord c =? 181)%nat)) (Lit "g").

(** The texts a pattern matches, whatever the order in which a matcher
    tries them. *)
Inductive language : re -> string -> Prop :=
| language_eps : language Eps ""
| language_lit (c d : ascii) :
    lower_char d = lower_char c -> language (Lit c) (String d "")
| language_cls (p : ascii -> bool) (d : ascii) :
    p d = true -> language (Cls p) (String d "")
| language_cat (r1 r2 : re) (w1 w2 : string) :
    language r1 w1 -> language r2 w2 -> language (Cat r1 r2) (w1 ++ w2)
| language_alt_l (r1 r2 : re) (w : string) :
    language r1 w -> language (Alt r1 r2) w
| language_alt_r (r1 r2 : re) (w : string) :
    language r2 w -> language (Alt r1 r2) w
| language_opt_none (r : re) : language (Opt r) ""
| language_opt_some (r : re) (w : string) :
    language r w -> language (Opt r) w
| language_many_nil (p : ascii -> bool) : language (Many p) ""
| language_many_cons (p : ascii -> bool) (d : ascii) (w : string) :
    p d = true -> language (Many p) w -> language (Many p) (String d w).

End Regex.

(* ================================================================== *)
(** ** JSON values and the Python operations on them *)
(* ================================================================== *)

Module Json.

(** What [ijson] builds: [None], [bool], [int], [Decimal] (mantissa and
    exponent), [str], [list], [dict]. *)
Inductive value : Type :=
| VNone
| VBool (b : bool)
| VInt (z : Z)
| VDec (m e : Z)
| VStr (s : string)
| VList (l : list value)
| VDict (d : gmap string value).

Abbreviation object := (gmap string value).

(** [bool(v)] *)
Definition truthy (v : value) : bool :=
  match v with
  | VNone => false
  | VBool b => b
  | VInt z => negb (z =? 0)%Z
  | VDec m _ => negb (m =? 0)%Z
  | VStr s => PyStr.nonempty s
  | VList l => negb (length l =? 0)%nat
  | VDict d => negb (size d =? 0)%nat
  end.

(** [str(type(v))] *)
Definition type_str (v : value) : string :=
  match v with
  | VNone => "<class 'NoneType'>"
  | VBool _ => "<class 'bool'>"
  | VInt _ => "<class 'int'>"
  | VDec _ _ => "<class 'decimal.Decimal'>"
  | VStr _ => "<class 'str'>"
  | VList _ => "<class 'list'>"
  | VDict _ => "<class 'dict'>"
  end.

(** [d.get(k)] and [d.get(k, dflt)] *)
Definition get (d : object) (k : string) : value := default VNone (d !! k).
Definition get_or (d : object) (k : string) (dflt : value) : value := default dflt (d !! k).

(** [k in d] *)
Definition has_key (d : object) (k : string) : bool :=
  match d !! k with Some _ => true | None => false end.

(** [v == "w"] for a string constant [w] *)
Definition is_str (w : string) (v : value) : bool :=
  match v with VStr s => String.eqb s w | _ => false end.

(** The part of the Python runtime that is not modelled: [str(v)] of a
    [Decimal], a [list] or a [dict]. *)
Class Runtime : Type := { repr : value -> string }.

(** [str(v)] *)
Definition str `{Runtime} (v : value) : string :=
  match v with
  | VStr s => s
  | VNone => "None"
  | VBool true => "True"
  | VBool false => "False"
  | VInt z => pretty z
  | _ => repr v
  end.

End Json.

(** Results of code that can raise. *)
Module Exc.

Inductive result (A : Type) : Type :=
| Ok (a : A)
| Raise.
Arguments Ok {A} a.
Arguments Raise {A}.

End Exc.

(* ================================================================== *)
(** ** parser.py *)
(* ================================================================== *)

Module Parser.
Import Json Exc.

Section Parse.
Context `{Runtime}.

Definition required_fields : list string := ["drugName"; "labeler"; "label"].

Definition label_fields : list string :=
  ["indicationsAndUsage"; "dosageAndAdministration";
   "warningsAndPrecautions"; "adverseReactions"].

(** The loop over [required_fields] on a dict: [false] as soon as a field
    is missing or falsy. *)
Definition required_present (d : object) : bool :=
  forallb (fun field => has_key d field && truthy (get d field)) required_fields.

(** [_is_valid_drug_record].  The annotation says [Dict]; [ijson] can
    deliver any JSON value.  On a [str] or a [list] the test
    [field not in drug_data] is a substring or membership test, and the
    subscript [drug_data[field]] that follows a hit raises [TypeError]; on
    the other values [in] itself raises. *)
Definition _is_valid_drug_record (drug_data : value) : result bool :=
  match drug_data with
  | VDict d =>
      if negb (required_present d) then Ok false
      else
        match get_or d "label" (VDict ∅) with
        | VDict label => Ok (existsb (fun field => truthy (get label field)) label_fields)
        | _ => Ok false
        end
  | VStr s => if PyStr.contains "drugName" s then Raise else Ok false
  | VList l => if existsb (is_str "drugName") l then Raise else Ok false
  | _ => Raise
  end.

(** What a run of the generator does, in order. *)
Inductive event : Type :=
| Yield (drug_data : value)
| Printed (line : string)
| Failed.

(** The input file as [ijson.items(file, 'item')] reads it: the elements
    of the top-level array, and whether the bytes after them are
    malformed, in which case the iterator raises there. *)
Record source : Type := { items : list value; malformed : bool }.

(** The body of the [for] loop, with the [except] clause that prints and
    re-raises.  A record that is not valid is reported with
    [drug_data.get('drugName', 'Unknown')], which raises unless
    [drug_data] is a dict. *)
Fixpoint parse_items (l : list value) (at_end : list event) : list event :=
  match l with
  | [] => at_end
  | drug_data :: rest =>
      match _is_valid_drug_record drug_data with
      | Ok true => Yield drug_data :: parse_items rest at_end
      | Ok false =>
          match drug_data with
          | VDict d =>
              Printed ("Skipping invalid drug record: " ++ str (get_or d "drugName" (VStr "Unknown")))
                :: parse_items rest at_end
          | _ => [Failed]
          end
      | Raise => [Failed]
      end
  end.

Definition parse_drugs (src : source) : list event :=
  parse_items (items src) (if malformed src then [Failed] else []).

(** The records a consumer of the generator receives. *)
Definition yielded (t : list event) : list value :=
  omap (fun e => match e with Yield v => Some v | _ => None end) t.

(** [count_total_records]: one more pass of [ijson.items] over the file,
    counting the items; an exception of the iterator is caught, and the
    count is then 0. *)
Definition count_total_records (src : source) : nat :=
  if malformed src then 0 else length (items src).

(** *** The admission filter in the words of the specification *)

Definition non_empty_at (d : object) (k : string) : bool :=
  match d !! k with Some v => truthy v | None => false end.

(** Non-empty [drugName] and [labeler], and a [label] that is a mapping
    with a non-empty value under one of the four clinical-content fields,
    each by its name. *)
Definition admissible (d : object) : bool :=
  non_empty_at d "drugName" &&
  non_empty_at d "labeler" &&
  match d !! "label" with
  | Some (VDict label) =>
      non_empty_at label "indicationsAndUsage"
      || non_empty_at label "dosageAndAdministration"
      || non_empty_at label "warningsAndPrecautions"
      || non_empty_at label "adverseReactions"
  | _ => false
  end.

(** What the generator does with one document, by the filter. *)
Definition admission (d : object) : event :=
  if admissible d then Yield (VDict d)
  else Printed ("Skipping invalid drug record: " ++ str (get_or d "drugName" (VStr "Unknown"))).

End Parse.

End Parser.

(* ================================================================== *)
(** ** transformer.py *)
(* ================================================================== *)

Module Transformer.
Import Json Exc PyStr Regex.

(** [DrugRecord].  The annotations of [set_id] and [slug] are
    [Optional[str]], but [transform] stores whatever the document has under
    [setId] and [slug], so they are values here. *)
Record DrugRecord : Type := {
  name : string;
  generic_name : option string;
  brand_name : option string;
  manufacturer : string;
  dosage_form : string;
  strength : string;
  route : string;
  ndc : option string;
  fda_application_number : option string;
  approval_date : option string;
  indications : string;
  contraindications : option string;
  warnings : option string;
  precautions : option string;
  adverse_reactions : option string;
  dosage_and_administration : option string;
  how_supplied : option string;
  clinical_pharmacology : option string;
  mechanism_of_action : option string;
  pharmacokinetics : option string;
  set_id : value;
  slug : value
}.

(** An entry of [data_quality_issues]. *)
Record issue : Type := { type : string; description : string }.

(** BeautifulSoup: [soup_text v] is the text of
    [soup = BeautifulSoup(v, "lxml")] after every [script] and [style]
    element is decomposed, [soup.get_text()]; [None] when any of that
    raises. *)
Class Html : Type := { soup_text : value -> option string }.

(** *** The monad of the methods: the issue list is threaded, and survives
    an exception. *)

Definition M (A : Type) : Type := list issue -> result A * list issue.

Definition ret {A} (a : A) : M A := fun q => (Ok a, q).

Definition raise {A} : M A := fun q => (Raise, q).

Definition bind {A B} (c : M A) (k : A -> M B) : M B :=
  fun q => match c q with
           | (Ok a, q') => k a q'
           | (Raise, q') => (Raise, q')
           end.

#[export] Instance M_ret : MRet M := @ret.
#[export] Instance M_bind : MBind M := fun A B k c => bind c k.

(** [_log_quality_issue] *)
Definition _log_quality_issue (issue_type description : string) : M unit :=
  fun q => (Ok tt, (q ++ [{| type := issue_type; description := description |}])%list).

(** [self.data_quality_issues = []] *)
Definition reset_issues : M unit := fun _ => (Ok tt, []).

(** [v.get(k)] and [v.get(k, dflt)] on a value that need not be a dict:
    [AttributeError] otherwise. *)
Definition attr_get (v : value) (k : string) : M value :=
  match v with VDict d => ret (get d k) | _ => raise end.

Definition attr_get_or (v : value) (k : string) (dflt : value) : M value :=
  match v with VDict d => ret (get_or d k dflt) | _ => raise end.

(** The receiver of a [str] method ([lower], [upper], [split]) or the
    subject of [re.findall]: an exception unless it is a [str]. *)
Definition as_str (v : value) : M string :=
  match v with VStr s => ret s | _ => raise end.

(** [x or y] where [x] is an optional string *)
Definition or_str (x : option string) (y : string) : string :=
  match x with Some s => if nonempty s then s else y | None => y end.

Definition or_value (x : option string) (y : value) : value :=
  match x with Some s => if nonempty s then VStr s else y | None => y end.

(** [bool(x)] for an optional string *)
Definition truthy_opt (x : option string) : bool :=
  match x with Some s => nonempty s | None => false end.

Definition defaults_dosage_form : string := "Unknown".
Definition defaults_strength : string := "Not specified".
Definition defaults_route : string := "Unknown".
Definition defaults_manufacturer : string := "Unknown Manufacturer".
Definition defaults_indications : string := "Not available".

Section Transform.
Context `{Runtime} `{Html}.

(** [_clean_text] *)
Definition _clean_text (text : value) : option string :=
  if negb (truthy text) then None
  else
    let cleaned := normalize_ws (str text) in
    if nonempty cleaned then Some cleaned else None.

(** [_clean_html_content] *)
Definition _clean_html_content (html_content : value) : option string :=
  if negb (truthy html_content) then None
  else
    match soup_text html_content with
    | Some text =>
        let text := normalize_ws text in
        if nonempty text then Some text else None
    | None => _clean_text html_content
    end.

(** The [for alt_field in alternatives] loops of the three
    [_safe_extract_*] methods: the first field whose cleaned value is
    truthy, with that value. *)
Fixpoint first_alternative (clean : value -> option string) (d : object)
    (alternatives : list string) : option (string * string) :=
  match alternatives with
  | [] => None
  | alt_field :: rest =>
      match clean (get d alt_field) with
      | Some v => if nonempty v then Some (alt_field, v) else first_alternative clean d rest
      | None => first_alternative clean d rest
      end
  end.

(** [_safe_extract_drug_name] *)
Definition _safe_extract_drug_name (raw_drug_data : object) : M (option string) :=
  let drug_name := _clean_text (get raw_drug_data "drugName") in
  if truthy_opt drug_name then ret drug_name
  else
    match first_alternative _clean_text raw_drug_data ["name"; "productName"; "brandName"] with
    | Some (alt_field, alt_name) =>
        _log_quality_issue "Alternative name source"
          ("Used " ++ alt_field ++ " instead of drugName");;
        ret (Some alt_name)
    | None =>
        let label := get_or raw_drug_data "label" (VDict ∅) in
        t ← attr_get label "title";
        let title := _clean_text t in
        if truthy_opt title
        then _log_quality_issue "Label title used" "Used label title as drug name";;
             ret title
        else ret None
    end.

(** [_safe_extract_manufacturer] *)
Definition _safe_extract_manufacturer (raw_drug_data : object) : M string :=
  match _clean_text (get raw_drug_data "labeler") with
  | Some manufacturer => ret manufacturer
  | None =>
      match first_alternative _clean_text raw_drug_data ["manufacturer"; "company"; "sponsor"] with
      | Some (alt_field, alt_manufacturer) =>
          _log_quality_issue "Alternative manufacturer source"
            ("Used " ++ alt_field ++ " instead of labeler");;
          ret alt_manufacturer
      | None =>
          let label := get_or raw_drug_data "label" (VDict ∅) in
          l ← attr_get label "labelerName";
          match _clean_text l with
          | Some labeler_name =>
              _log_quality_issue "Label labeler used" "Used label labelerName as manufacturer";;
              ret labeler_name
          | None =>
              _log_quality_issue "Missing manufacturer" "Using default manufacturer";;
              ret defaults_manufacturer
          end
      end
  end.

(** [_safe_extract_indications] *)
Definition _safe_extract_indications (label : value) : M string :=
  i ← attr_get label "indicationsAndUsage";
  match _clean_html_content i with
  | Some indications => ret indications
  | None =>
      match label with
      | VDict l =>
          match first_alternative _clean_html_content l ["indications"; "usage"; "indication"] with
          | Some (alt_field, alt_indications) =>
              _log_quality_issue "Alternative indications source"
                ("Used " ++ alt_field ++ " instead of indicationsAndUsage");;
              ret alt_indications
          | None =>
              _log_quality_issue "Missing indications" "Using default indications";;
              ret defaults_indications
          end
      | _ => raise
      end
  end.

(** [_extract_generic_name] *)
Definition _extract_generic_name (label : value) : M (option string) :=
  generic_name ← attr_get label "genericName";
  if truthy generic_name then ret (_clean_text generic_name)
  else
    title ← attr_get_or label "title" (VStr "");
    title ← as_str title;
    if contains "generic" (lower title) then
      match split "(" title with
      | _ :: part1 :: _ =>
          ret (_clean_text (VStr (rstrip_by (Ascii.eqb ")") part1)))
      | _ => ret None
      end
    else ret None.

(** [_extract_brand_name] *)
Definition _extract_brand_name (drug_name : string) (label : value) : M (option string) :=
  title ← attr_get_or label "title" (VStr "");
  if truthy title then
    t ← as_str title;
    if negb (bool_decide (upper t = upper drug_name))
    then ret (_clean_text title)
    else ret (_clean_text (VStr drug_name))
  else ret (_clean_text (VStr drug_name)).

Definition common_forms : list string :=
  ["tablet"; "capsule"; "injection"; "solution"; "suspension";
   "cream"; "ointment"; "gel"; "patch"; "spray"; "inhaler";
   "syrup"; "powder"; "granules"; "suppository"; "drops";
   "lotion"; "foam"; "film"; "strip"; "pellet"].

(** The loop over [alternative_fields] of [_extract_dosage_form]. *)
Fixpoint dosage_form_alternatives (label : value) (alternative_fields : list string)
    : M (option string) :=
  match alternative_fields with
  | [] => ret None
  | field :: rest =>
      field_value ← attr_get_or label field (VStr "");
      if truthy field_value then
        let field_text := or_value (_clean_html_content field_value) field_value in
        t ← as_str field_text;
        if contains "injection" (lower t) then ret (Some "Injection")
        else if contains "tablet" (lower t) then ret (Some "Tablet")
        else if contains "capsule" (lower t) then ret (Some "Capsule")
        else dosage_form_alternatives label rest
      else dosage_form_alternatives label rest
  end.

(** [_extract_dosage_form] *)
Definition _extract_dosage_form (label : value) : M string :=
  forms_section ← attr_get_or label "dosageFormsAndStrengths" (VStr "");
  let found :=
    if truthy forms_section then
      let forms_text := or_str (_clean_html_content forms_section) "" in
      List.find (fun form => contains form (lower forms_text)) common_forms
    else None in
  match found with
  | Some form => ret (title form)
  | None =>
      alt ← dosage_form_alternatives label ["dosageForm"; "formulation"; "productType"];
      match alt with
      | Some form => ret form
      | None =>
          _log_quality_issue "Missing dosage form" "Using default dosage form";;
          ret defaults_dosage_form
      end
  end.

(** The units of the strength patterns. *)
Definition units_opt_s : re := Cat (word "unit") (Opt (Lit "s")).
Definition dose_unit : re :=           (* (?:mg|g|mcg|μg|units?|iu|%) *)
  alts [word "mg"; word "g"; word "mcg"; mu_g; units_opt_s; word "iu"; Lit "%"].
Definition dose_unit_no_percent : re := (* (?:mg|g|mcg|μg|units?|iu) *)
  alts [word "mg"; word "g"; word "mcg"; mu_g; units_opt_s; word "iu"].
Definition per_unit : re :=            (* (?:mg|g|mcg|μg|mL|tablet|capsule) *)
  alts [word "mg"; word "g"; word "mcg"; mu_g; word "mL"; word "tablet"; word "capsule"].
Definition per_form : re :=            (* (?:mL|tablet|capsule) *)
  alts [word "mL"; word "tablet"; word "capsule"].

Definition strength_patterns : list re :=
  [ cats [number; spaces; dose_unit; spaces;
          Opt (cats [Lit "/"; spaces; number; spaces; per_unit])];
    cats [number; spaces; dose_unit_no_percent; spaces; word "per"; spaces;
          number; spaces; per_form];
    cats [number; spaces; Lit "%"] ].

(** The loop over [strength_patterns]. *)
Fixpoint first_strength (patterns : list re) (text : string) : option string :=
  match patterns with
  | [] => None
  | pattern :: rest =>
      match findall pattern text with
      | m0 :: _ => Some m0
      | [] => first_strength rest text
      end
  end.

(** [_parse_strength_from_text] *)
Definition _parse_strength_from_text (text : value) : M (option string) :=
  if negb (truthy text) then ret None
  else
    text ← as_str text;
    ret (first_strength strength_patterns text).

(** The loop over [alternative_fields] of [_extract_strength]. *)
Fixpoint strength_alternatives (label : value) (alternative_fields : list string)
    : M (option string) :=
  match alternative_fields with
  | [] => ret None
  | field :: rest =>
      field_value ← attr_get_or label field (VStr "");
      if truthy field_value then
        let field_text := or_value (_clean_html_content field_value) field_value in
        strength ← _parse_strength_from_text field_text;
        if truthy_opt strength then
          _log_quality_issue "Alternative strength source" ("Used " ++ field ++ " for strength");;
          ret strength
        else strength_alternatives label rest
      else strength_alternatives label rest
  end.

(** [_extract_strength] *)
Definition _extract_strength (label : value) : M string :=
  forms_section ← attr_get_or label "dosageFormsAndStrengths" (VStr "");
  found ←
    (if truthy forms_section then
       let strength_text := or_str (_clean_html_content forms_section) "" in
       _parse_strength_from_text (VStr strength_text)
     else ret None);
  if truthy_opt found then ret (or_str found "")
  else
    alt ← strength_alternatives label ["strength"; "activeIngredient"; "concentration"];
    match alt with
    | Some strength => ret strength
    | None =>
        _log_quality_issue "Missing strength" "Using default strength";;
        ret defaults_strength
    end.

Definition routes : list (string * string) :=
  [("subcutaneous", "Subcutaneous"); ("intravenous", "Intravenous");
   ("intramuscular", "Intramuscular"); ("injection", "Injection");
   ("oral", "Oral"); ("topical", "Topical"); ("inhalation", "Inhalation");
   ("inhaled", "Inhalation"); ("rectal", "Rectal"); ("ophthalmic", "Ophthalmic");
   ("nasal", "Nasal"); ("transdermal", "Transdermal");
   ("sublingual", "Sublingual"); ("buccal", "Buccal")].

(** [_parse_route_from_text] *)
Definition _parse_route_from_text (text : value) : M (option string) :=
  if negb (truthy text) then ret None
  else
    text ← as_str text;
    let text_lower := lower text in
    ret (snd <$> List.find (fun r => contains (fst r) text_lower) routes).

(** The loop over [alternative_fields] of [_extract_route]. *)
Fixpoint route_alternatives (label : value) (alternative_fields : list string)
    : M (option string) :=
  match alternative_fields with
  | [] => ret None
  | field :: rest =>
      field_value ← attr_get_or label field (VStr "");
      if truthy field_value then
        let field_text := or_value (_clean_html_content field_value) field_value in
        route ← _parse_route_from_text field_text;
        if truthy_opt route then
          _log_quality_issue "Alternative route source" ("Used " ++ field ++ " for route");;
          ret route
        else route_alternatives label rest
      else route_alternatives label rest
  end.

(** [_extract_route] *)
Definition _extract_route (label : value) : M string :=
  dosage_section ← attr_get_or label "dosageAndAdministration" (VStr "");
  found ←
    (if truthy dosage_section then
       let route_text := or_str (_clean_html_content dosage_section) "" in
       _parse_route_from_text (VStr route_text)
     else ret None);
  if truthy_opt found then ret (or_str found "")
  else
    alt ← route_alternatives label ["route"; "administration"; "productType"];
    match alt with
    | Some route => ret route
    | None =>
        _log_quality_issue "Missing route" "Using default route";;
        ret defaults_route
    end.

(** [NDC\s*:?\s*(\d{4,5}-\d{3,4}-\d{2})] *)
Definition ndc_prefix : re := cats [word "NDC"; spaces; Opt (Lit ":"); spaces].
Definition ndc_group : re :=
  let d := Cls isdigit in
  cats [d; d; d; d; Opt d; Lit "-"; d; d; d; Opt d; Lit "-"; d; d].

(** [_extract_ndc] *)
Definition _extract_ndc (label : value) : M (option string) :=
  how_supplied ← attr_get_or label "howSupplied" (VStr "");
  if truthy how_supplied then
    let text := or_str (_clean_html_content how_supplied) "" in
    ret (search_group ndc_prefix ndc_group text)
  else ret None.

(** [_extract_approval_date] *)
Definition _extract_approval_date (label : value) : M (option string) :=
  effective_time ← attr_get label "effectiveTime";
  if truthy effective_time && (String.length (str effective_time) =? 8)%nat then
    let date_str := str effective_time in
    ret (Some (slice 0 4 date_str ++ "-" ++ slice 4 6 date_str ++ "-" ++ slice 6 8 date_str))
  else ret None.

(** The [for line in lines] loop shared in shape by
    [_extract_mechanism_of_action] and [_extract_pharmacokinetics]:
    [heading] opens the section, a line with one of [stop_keywords] ends
    the loop, the stripped non-blank lines in between are collected. *)
Fixpoint section_lines (heading : string) (stop_keywords : list string)
    (in_section : bool) (lines : list string) : list string :=
  match lines with
  | [] => []
  | line :: rest =>
      if contains heading (lower line)
      then section_lines heading stop_keywords true rest
      else if in_section then
        if existsb (fun keyword => contains keyword (lower line)) stop_keywords
        then []
        else if nonempty (strip line)
             then strip line :: section_lines heading stop_keywords true rest
             else section_lines heading stop_keywords true rest
      else section_lines heading stop_keywords false rest
  end.

(** [_extract_mechanism_of_action] *)
Definition _extract_mechanism_of_action (label : value) : M (option string) :=
  clinical_pharm ← attr_get_or label "clinicalPharmacology" (VStr "");
  if truthy clinical_pharm then
    let text := or_str (_clean_html_content clinical_pharm) "" in
    let lines := split "010" text in
    let mechanism_lines :=
      section_lines "mechanism of action"
        ["pharmacodynamics"; "pharmacokinetics"; "absorption"] false lines in
    match mechanism_lines with
    | [] => ret None
    | _ => ret (Some (join " " mechanism_lines))
    end
  else ret None.

(** [_extract_pharmacokinetics] *)
Definition _extract_pharmacokinetics (label : value) : M (option string) :=
  clinical_pharm ← attr_get_or label "clinicalPharmacology" (VStr "");
  if truthy clinical_pharm then
    let text := or_str (_clean_html_content clinical_pharm) "" in
    let lines := split "010" text in
    let pk_lines :=
      section_lines "pharmacokinetics"
        ["clinical studies"; "drug interactions"; "mechanism"] false lines in
    match pk_lines with
    | [] => ret None
    | _ => ret (Some (join " " pk_lines))
    end
  else ret None.

(** The [try] block of [transform]. *)
Definition transform_body (raw_drug_data : object) : M (option DrugRecord) :=
  reset_issues;;
  let label := get_or raw_drug_data "label" (VDict ∅) in
  (if negb (truthy label)
   then _log_quality_issue "Missing label" "Drug has no label data"
   else ret tt);;
  drug_name ← _safe_extract_drug_name raw_drug_data;
  match drug_name with
  | None =>
      _log_quality_issue "Missing drug name" "Cannot process drug without name";;
      ret None
  | Some drug_name =>
      if negb (nonempty drug_name) then
        _log_quality_issue "Missing drug name" "Cannot process drug without name";;
        ret None
      else
      manufacturer ← _safe_extract_manufacturer raw_drug_data;
      generic_name ← _extract_generic_name label;
      brand_name ← _extract_brand_name drug_name label;
      dosage_form ← _extract_dosage_form label;
      strength ← _extract_strength label;
      route ← _extract_route label;
      ndc ← _extract_ndc label;
      approval_date ← _extract_approval_date label;
      indications ← _safe_extract_indications label;
      contraindications ← attr_get label "contraindications";
      warnings ← attr_get label "warningsAndPrecautions";
      adverse_reactions ← attr_get label "adverseReactions";
      dosage_and_administration ← attr_get label "dosageAndAdministration";
      how_supplied ← attr_get label "howSupplied";
      clinical_pharmacology ← attr_get label "clinicalPharmacology";
      mechanism_of_action ← _extract_mechanism_of_action label;
      pharmacokinetics ← _extract_pharmacokinetics label;
      ret (Some {|
        name := drug_name;
        generic_name := generic_name;
        brand_name := brand_name;
        manufacturer := manufacturer;
        dosage_form := dosage_form;
        strength := strength;
        route := route;
        ndc := ndc;
        fda_application_number := None;
        approval_date := approval_date;
        indications := indications;
        contraindications := _clean_html_content contraindications;
        warnings := _clean_html_content warnings;
        precautions := None;
        adverse_reactions := _clean_html_content adverse_reactions;
        dosage_and_administration := _clean_html_content dosage_and_administration;
        how_supplied := _clean_html_content how_supplied;
        clinical_pharmacology := _clean_html_content clinical_pharmacology;
        mechanism_of_action := mechanism_of_action;
        pharmacokinetics := pharmacokinetics;
        set_id := get raw_drug_data "setId";
        slug := get raw_drug_data "slug"
      |})
  end.

(** [transform]: the record, or [None], and the issue list the
    transformer is left with. *)
Definition transform (raw_drug_data : value) (issues : list issue)
    : option DrugRecord * list issue :=
  match raw_drug_data with
  | VDict d =>
      match transform_body d issues with
      | (Ok record, issues') => (record, issues')
      | (Raise, issues') => (None, issues')
      end
  | _ =>
      (None, (issues ++ [{| type := "Invalid data type";
                            description := "Expected dict, got " ++ type_str raw_drug_data |}])%list)
  end.

(** *** The name fallback chain in the words of the specification *)

(** The title of the label, when the document has a label that is a
    mapping. *)
Definition label_title (d : object) : value :=
  match d !! "label" with
  | Some (VDict label) => get label "title"
  | _ => VNone
  end.

(** The candidates, in the order of the chain. *)
Definition name_candidates (d : object) : list value :=
  [get d "drugName"; get d "name"; get d "productName"; get d "brandName"; label_title d].

(** A candidate trimmed; [None] when nothing is left of it. *)
Definition trimmed (v : value) : option string :=
  if truthy v then
    let s := normalize_ws (str v) in
    if nonempty s then Some s else None
  else None.

(** The first candidate that is not empty after trimming. *)
Fixpoint first_trimmed (candidates : list value) : option string :=
  match candidates with
  | [] => None
  | v :: rest =>
      match trimmed v with
      | Some s => Some s
      | None => first_trimmed rest
      end
  end.

Definition resolve_name (d : object) : option string := first_trimmed (name_candidates d).

(** The keys of the label whose values the extractors call [str] methods
    on. *)
Definition text_keys : list string :=
  ["title"; "dosageForm"; "formulation"; "productType"; "strength";
   "activeIngredient"; "concentration"; "route"; "administration"].

Definition text_at (label : object) (k : string) : Prop :=
  forall v, label !! k = Some v -> exists s, v = VStr s.

(** A document whose label is absent, or a mapping with strings under
    [text_keys]. *)
Definition plain_label (d : object) : Prop :=
  match d !! "label" with
  | None => True
  | Some (VDict label) => forall k, In k text_keys -> text_at label k
  | Some _ => False
  end.

End Transform.

End Transformer.

(* ================================================================== *)
(** ** seeder.py *)
(* ================================================================== *)

Module Seeder.
Import Json Exc PyStr.
Import Transformer (DrugRecord).

Definition timestamp : Type := Z.

(** A row of [drugs], with the columns the seeder writes. *)
Module Drugs.
Record row : Type := {
  id : string;
  drug_name : string;
  set_id : value;
  slug : value;
  labeler : string;
  name : string;
  generic_name : option string;
  brand_name : option string;
  manufacturer : string;
  dosage_form : string;
  strength : string;
  route : string;
  ndc : option string;
  fda_application_number : option string;
  approval_date : option string;
  created_at : timestamp;
  updated_at : timestamp
}.
End Drugs.

(** A row of [drug_labels]. *)
Module DrugLabels.
Record row : Type := {
  id : string;
  drug_id : string;
  generic_name : option string;
  labeler_name : string;
  product_type : string;
  effective_time : option string;
  title : string;
  indications_and_usage : string;
  dosage_and_administration : option string;
  dosage_forms_and_strengths : option string;
  contraindications : option string;
  warnings_and_precautions : option string;
  adverse_reactions : option string;
  clinical_pharmacology : option string;
  how_supplied : option string;
  mechanism_of_action : option string;
  indications : string;
  warnings : option string;
  precautions : option string;
  pharmacokinetics : option string;
  created_at : timestamp;
  updated_at : timestamp
}.
End DrugLabels.

(** The two tables, rows in table order. *)
Record database : Type := {
  drugs : list Drugs.row;
  drug_labels : list DrugLabels.row
}.

(** The statements the seeder sends through [cursor.execute]. *)
Inductive statement : Type :=
| SelectDrugBySetId (set_id : value)
| SelectDrugByName (name manufacturer : string)
| InsertDrug (r : Drugs.row)
| InsertDrugLabel (r : DrugLabels.row)
| UpdateDrug (drug_id : string) (record : DrugRecord) (now : timestamp)
| SelectLabelByDrug (drug_id : string)
| UpdateDrugLabel (drug_id : string) (record : DrugRecord) (now : timestamp).

(** The calls on the connection itself. *)
Inductive connection_call : Type := OpenCursor | Commit | Rollback.

(** The world outside the seeder.  Every call to the outside takes the
    current tick of the session and advances it: [uuid4 t] is what
    [str(uuid.uuid4())] returns at tick [t], [utcnow t] what
    [datetime.now(timezone.utc)] returns, [execute_raises t stmt db]
    whether [cursor.execute(stmt)] raises when the transaction sees [db],
    [connection_raises t call] whether a call on the connection raises.
    [sql_lower] is the server's [LOWER].

    An error of [cursor.execute] is the server's (a constraint that is
    violated, a value of the wrong type) or psycopg2's own, raised before
    anything is sent (a parameter it cannot adapt, such as a [dict]):
    [aborts_transaction t stmt db] says which, for a statement that
    raises.  An error of the server leaves the transaction aborted.

    A query with [LIMIT 1] and no [ORDER BY], and [fetchone] on a result
    of several rows, return whichever matching row the server comes to
    first: [row_choice t] is its choice at tick [t], as an index into the
    rows that match, taken modulo their number.

    Nothing is assumed of these answers. *)
Class World : Type := {
  uuid4 : nat -> string;
  utcnow : nat -> timestamp;
  sql_lower : string -> string;
  execute_raises : nat -> statement -> database -> bool;
  aborts_transaction : nat -> statement -> database -> bool;
  row_choice : nat -> nat;
  connection_raises : nat -> connection_call -> bool
}.

(** [self.stats] *)
Record Stats : Type := {
  processed : nat;
  inserted : nat;
  updated : nat;
  skipped : nat;
  errors : nat
}.

(** A [psycopg2] connection to PostgreSQL with [autocommit = False]: what
    is committed, what the open transaction sees, and whether the
    transaction is aborted.  An aborted transaction has lost what it did
    ([pending] is then what is committed), and the server refuses every
    statement until a [COMMIT] or a [ROLLBACK] ends it. *)
Record connection : Type := {
  committed : database;
  pending : database;
  aborted : bool
}.

(** The seeder object, with the tick of its session. *)
Record seeder : Type := {
  conn : option connection;
  stats : Stats;
  tick : nat
}.

(** *** The statements on the tables *)

Section Sql.
Context `{World}.

Definition value_is (v : value) (s : string) : bool :=
  match v with VStr t => String.eqb t s | _ => false end.

Definition has_label_with_id (db : database) (drug_id : string) (v : value) : bool :=
  existsb (fun dl => String.eqb (DrugLabels.drug_id dl) drug_id
                     && value_is v (DrugLabels.id dl)) (drug_labels db).

(** What [cursor.fetchone()] returns of the rows of a query that has no
    [ORDER BY]: nothing when no row matches, the row when one does, and
    otherwise the one the server chooses. *)
Definition limit_1 (t : nat) (rows : list string) : option string :=
  match rows with
  | [] => None
  | [row] => Some row
  | _ => rows !! (row_choice t `mod` length rows)
  end.

(** The rows of [SELECT d.id FROM drugs d JOIN drug_labels dl ON d.id =
    dl.drug_id WHERE dl.id = %s]: the drugs that have a label row whose
    [id] is the parameter.  The column [drugs.set_id] is not read. *)
Definition drugs_by_set_id (db : database) (v : value) : list string :=
  Drugs.id <$> List.filter (fun d => has_label_with_id db (Drugs.id d) v) (drugs db).

(** The same with [LIMIT 1]. *)
Definition select_drug_by_set_id (t : nat) (db : database) (v : value) : option string :=
  limit_1 t (drugs_by_set_id db v).

Definition same_name (name manufacturer : string) (d : Drugs.row) : bool :=
  String.eqb (sql_lower (Drugs.drug_name d)) (sql_lower name)
  && String.eqb (sql_lower (Drugs.manufacturer d)) (sql_lower manufacturer).

(** The rows of [SELECT id FROM drugs WHERE LOWER(drug_name) = LOWER(%s)
    AND LOWER(manufacturer) = LOWER(%s)]. *)
Definition drugs_by_name (db : database) (name manufacturer : string) : list string :=
  Drugs.id <$> List.filter (same_name name manufacturer) (drugs db).

(** The same with [LIMIT 1]. *)
Definition select_drug_by_name (t : nat) (db : database) (name manufacturer : string)
    : option string :=
  limit_1 t (drugs_by_name db name manufacturer).

(** The rows of [SELECT id FROM drug_labels WHERE drug_id = %s]. *)
Definition labels_of_drug (db : database) (drug_id : string) : list string :=
  DrugLabels.id <$>
    List.filter (fun dl => String.eqb (DrugLabels.drug_id dl) drug_id) (drug_labels db).

(** What [fetchone] returns of them. *)
Definition select_label_by_drug (t : nat) (db : database) (drug_id : string) : option string :=
  limit_1 t (labels_of_drug db drug_id).

(** The [SET] clause of [UPDATE drugs]. *)
Definition set_drug (record : DrugRecord) (now : timestamp) (d : Drugs.row) : Drugs.row :=
  {| Drugs.id := Drugs.id d;
     Drugs.drug_name := Transformer.name record;
     Drugs.set_id := Transformer.set_id record;
     Drugs.slug := Transformer.slug record;
     Drugs.labeler := Transformer.manufacturer record;
     Drugs.name := Transformer.name record;
     Drugs.generic_name := Transformer.generic_name record;
     Drugs.brand_name := Transformer.brand_name record;
     Drugs.manufacturer := Transformer.manufacturer record;
     Drugs.dosage_form := Transformer.dosage_form record;
     Drugs.strength := Transformer.strength record;
     Drugs.route := Transformer.route record;
     Drugs.ndc := Transformer.ndc record;
     Drugs.fda_application_number := Transformer.fda_application_number record;
     Drugs.approval_date := Transformer.approval_date record;
     Drugs.created_at := Drugs.created_at d;
     Drugs.updated_at := now |}.

(** [record.brand_name or record.name] *)
Definition label_title (record : DrugRecord) : string :=
  Transformer.or_str (Transformer.brand_name record) (Transformer.name record).

(** The [SET] clause of [UPDATE drug_labels]. *)
Definition set_label (record : DrugRecord) (now : timestamp) (dl : DrugLabels.row)
    : DrugLabels.row :=
  {| DrugLabels.id := DrugLabels.id dl;
     DrugLabels.drug_id := DrugLabels.drug_id dl;
     DrugLabels.generic_name := Transformer.generic_name record;
     DrugLabels.labeler_name := Transformer.manufacturer record;
     DrugLabels.product_type := DrugLabels.product_type dl;
     DrugLabels.effective_time := DrugLabels.effective_time dl;
     DrugLabels.title := label_title record;
     DrugLabels.indications_and_usage := Transformer.indications record;
     DrugLabels.dosage_and_administration := Transformer.dosage_and_administration record;
     DrugLabels.dosage_forms_and_strengths := DrugLabels.dosage_forms_and_strengths dl;
     DrugLabels.contraindications := Transformer.contraindications record;
     DrugLabels.warnings_and_precautions := Transformer.warnings record;
     DrugLabels.adverse_reactions := Transformer.adverse_reactions record;
     DrugLabels.clinical_pharmacology := Transformer.clinical_pharmacology record;
     DrugLabels.how_supplied := Transformer.how_supplied record;
     DrugLabels.mechanism_of_action := Transformer.mechanism_of_action record;
     DrugLabels.indications := Transformer.indications record;
     DrugLabels.warnings := Transformer.warnings record;
     DrugLabels.precautions := Transformer.precautions record;
     DrugLabels.pharmacokinetics := Transformer.pharmacokinetics record;
     DrugLabels.created_at := DrugLabels.created_at dl;
     DrugLabels.updated_at := now |}.

(** The [VALUES] of [INSERT INTO drugs]. *)
Definition drug_values (drug_id : string) (record : DrugRecord) (created updated : timestamp)
    : Drugs.row :=
  {| Drugs.id := drug_id;
     Drugs.drug_name := Transformer.name record;
     Drugs.set_id := Transformer.set_id record;
     Drugs.slug := Transformer.slug record;
     Drugs.labeler := Transformer.manufacturer record;
     Drugs.name := Transformer.name record;
     Drugs.generic_name := Transformer.generic_name record;
     Drugs.brand_name := Transformer.brand_name record;
     Drugs.manufacturer := Transformer.manufacturer record;
     Drugs.dosage_form := Transformer.dosage_form record;
     Drugs.strength := Transformer.strength record;
     Drugs.route := Transformer.route record;
     Drugs.ndc := Transformer.ndc record;
     Drugs.fda_application_number := Transformer.fda_application_number record;
     Drugs.approval_date := Transformer.approval_date record;
     Drugs.created_at := created;
     Drugs.updated_at := updated |}.

(** The [VALUES] of [INSERT INTO drug_labels]. *)
Definition label_values (label_id drug_id : string) (record : DrugRecord)
    (created updated : timestamp) : DrugLabels.row :=
  {| DrugLabels.id := label_id;
     DrugLabels.drug_id := drug_id;
     DrugLabels.generic_name := Transformer.generic_name record;
     DrugLabels.labeler_name := Transformer.manufacturer record;
     DrugLabels.product_type := "HUMAN PRESCRIPTION DRUG LABEL";
     DrugLabels.effective_time := None;
     DrugLabels.title := label_title record;
     DrugLabels.indications_and_usage := Transformer.indications record;
     DrugLabels.dosage_and_administration := Transformer.dosage_and_administration record;
     DrugLabels.dosage_forms_and_strengths := None;
     DrugLabels.contraindications := Transformer.contraindications record;
     DrugLabels.warnings_and_precautions := Transformer.warnings record;
     DrugLabels.adverse_reactions := Transformer.adverse_reactions record;
     DrugLabels.clinical_pharmacology := Transformer.clinical_pharmacology record;
     DrugLabels.how_supplied := Transformer.how_supplied record;
     DrugLabels.mechanism_of_action := Transformer.mechanism_of_action record;
     DrugLabels.indications := Transformer.indications record;
     DrugLabels.warnings := Transformer.warnings record;
     DrugLabels.precautions := Transformer.precautions record;
     DrugLabels.pharmacokinetics := Transformer.pharmacokinetics record;
     DrugLabels.created_at := created;
     DrugLabels.updated_at := updated |}.

(** [UPDATE drugs SET ... WHERE id = %s] and [UPDATE drug_labels SET ...
    WHERE drug_id = %s] on one row. *)
Definition update_drug_row (drug_id : string) (record : DrugRecord) (now : timestamp)
    (d : Drugs.row) : Drugs.row :=
  if String.eqb (Drugs.id d) drug_id then set_drug record now d else d.

Definition update_label_row (drug_id : string) (record : DrugRecord) (now : timestamp)
    (dl : DrugLabels.row) : DrugLabels.row :=
  if String.eqb (DrugLabels.drug_id dl) drug_id then set_label record now dl else dl.

(** What a statement that does not raise does to the tables at tick [t],
    and the row [cursor.fetchone()] then returns (its [id]). *)
Definition run_statement (t : nat) (stmt : statement) (db : database)
    : database * option string :=
  match stmt with
  | SelectDrugBySetId v => (db, select_drug_by_set_id t db v)
  | SelectDrugByName n m => (db, select_drug_by_name t db n m)
  | SelectLabelByDrug drug_id => (db, select_label_by_drug t db drug_id)
  | InsertDrug r =>
      ({| drugs := drugs db ++ [r]; drug_labels := drug_labels db |}, None)
  | InsertDrugLabel r =>
      ({| drugs := drugs db; drug_labels := drug_labels db ++ [r] |}, None)
  | UpdateDrug drug_id record now =>
      ({| drugs := update_drug_row drug_id record now <$> drugs db;
          drug_labels := drug_labels db |}, None)
  | UpdateDrugLabel drug_id record now =>
      ({| drugs := drugs db;
          drug_labels := update_label_row drug_id record now <$> drug_labels db |},
       None)
  end.

End Sql.

(** *** The methods of [DrugDatabaseSeeder] *)

(** The monad of the methods: the seeder is threaded, and what was done to
    it before an exception stays done. *)
Definition St (A : Type) : Type := seeder -> result A * seeder.

Definition ret {A} (a : A) : St A := fun st => (Ok a, st).

Definition raise {A} : St A := fun st => (Raise, st).

Definition bind {A B} (c : St A) (k : A -> St B) : St B :=
  fun st => match c st with
            | (Ok a, st') => k a st'
            | (Raise, st') => (Raise, st')
            end.

#[export] Instance St_ret : MRet St := @ret.
#[export] Instance St_bind : MBind St := fun A B k c => bind c k.

(** [try: c / except Exception: ...]: the outcome of [c] as a value. *)
Definition try {A} (c : St A) : St (result A) :=
  fun st => let '(r, st') := c st in (Ok r, st').

Definition with_stats (f : Stats -> Stats) (st : seeder) : seeder :=
  {| conn := conn st; stats := f (stats st); tick := tick st |}.

Definition with_conn (c : option connection) (st : seeder) : seeder :=
  {| conn := c; stats := stats st; tick := tick st |}.

Definition with_tick (t : nat) (st : seeder) : seeder :=
  {| conn := conn st; stats := stats st; tick := t |}.

Definition add_processed (s : Stats) : Stats :=
  {| processed := processed s + 1; inserted := inserted s; updated := updated s;
     skipped := skipped s; errors := errors s |}.
Definition add_inserted (s : Stats) : Stats :=
  {| processed := processed s; inserted := inserted s + 1; updated := updated s;
     skipped := skipped s; errors := errors s |}.
Definition add_updated (s : Stats) : Stats :=
  {| processed := processed s; inserted := inserted s; updated := updated s + 1;
     skipped := skipped s; errors := errors s |}.
Definition add_skipped (s : Stats) : Stats :=
  {| processed := processed s; inserted := inserted s; updated := updated s;
     skipped := skipped s + 1; errors := errors s |}.
Definition add_errors (s : Stats) : Stats :=
  {| processed := processed s; inserted := inserted s; updated := updated s;
     skipped := skipped s; errors := errors s + 1 |}.

(** [self.stats[k] += 1] *)
Definition count (f : Stats -> Stats) : St unit := fun st => (Ok tt, with_stats f st).

Definition zero_stats : Stats :=
  {| processed := 0; inserted := 0; updated := 0; skipped := 0; errors := 0 |}.

(** [__init__] *)
Definition init : seeder := {| conn := None; stats := zero_stats; tick := 0 |}.

(** [connect], to a server whose tables are [db]. *)
Definition connect (db : database) (st : seeder) : seeder :=
  with_conn (Some {| committed := db; pending := db; aborted := false |}) st.

(** [get_stats] *)
Definition get_stats (st : seeder) : Stats := stats st.

(** [reset_stats] *)
Definition reset_stats (st : seeder) : seeder := with_stats (fun _ => zero_stats) st.

(** [_validate_record] *)
Definition _validate_record (record : DrugRecord) : bool :=
  let blank (s : string) := negb (nonempty s) || (String.length (strip s) =? 0)%nat in
  negb (blank (Transformer.name record)
        || blank (Transformer.manufacturer record)
        || blank (Transformer.indications record)
        || (255 <? String.length (Transformer.name record))%nat
        || (255 <? String.length (Transformer.manufacturer record))%nat).

Section Methods.
Context `{World}.

Definition take_tick : St nat :=
  fun st => (Ok (tick st), with_tick (S (tick st)) st).

(** [str(uuid.uuid4())] *)
Definition new_uuid : St string := t ← take_tick; mret (uuid4 t).

(** [datetime.now(timezone.utc)] *)
Definition now : St timestamp := t ← take_tick; mret (utcnow t).

(** [cursor.execute(stmt)] followed, for a [SELECT], by
    [cursor.fetchone()].  In an aborted transaction the server refuses the
    statement ([InFailedSqlTransaction]).  A statement that raises leaves
    the transaction as it was when the error is psycopg2's own, and
    aborted when it is the server's: what the transaction had done is then
    lost. *)
Definition execute (stmt : statement) : St (option string) :=
  fun st =>
    match conn st with
    | None => (Raise, st)
    | Some c =>
        let st1 := with_tick (S (tick st)) st in
        if aborted c then (Raise, st1)
        else if execute_raises (tick st) stmt (pending c) then
          if aborts_transaction (tick st) stmt (pending c) then
            (Raise, with_conn (Some {| committed := committed c;
                                       pending := committed c;
                                       aborted := true |}) st1)
          else (Raise, st1)
        else
          let '(db, row) := run_statement (tick st) stmt (pending c) in
          (Ok row, with_conn (Some {| committed := committed c;
                                      pending := db;
                                      aborted := false |}) st1)
    end.

(** [COMMIT] publishes what the transaction did and [ROLLBACK] drops it;
    both end the transaction.  Of an aborted transaction nothing is left
    to publish ([execute] has set [pending] back to what is committed):
    the server answers [COMMIT] with a rollback, and psycopg2 raises
    nothing. *)
Definition apply_call (call : connection_call) (c : connection) : connection :=
  match call with
  | OpenCursor => c
  | Commit => {| committed := pending c; pending := pending c; aborted := false |}
  | Rollback => {| committed := committed c; pending := committed c; aborted := false |}
  end.

(** [self.connection.cursor(...)], [.commit()], [.rollback()] *)
Definition on_connection (call : connection_call) : St unit :=
  fun st =>
    match conn st with
    | None => (Raise, st)
    | Some c =>
        let st1 := with_tick (S (tick st)) st in
        if connection_raises (tick st) call then (Raise, st1)
        else (Ok tt, with_conn (Some (apply_call call c)) st1)
    end.

(** [_find_existing_drug] *)
Definition _find_existing_drug (record : DrugRecord) : St (option string) :=
  by_set_id ←
    (if truthy (Transformer.set_id record)
     then execute (SelectDrugBySetId (Transformer.set_id record))
     else mret None);
  match by_set_id with
  | Some drug_id => mret (Some drug_id)
  | None =>
      execute (SelectDrugByName (Transformer.name record) (Transformer.manufacturer record))
  end.

(** [_insert_drug] *)
Definition _insert_drug (record : DrugRecord) : St string :=
  drug_id ← new_uuid;
  created ← now;
  updated ← now;
  execute (InsertDrug (drug_values drug_id record created updated));;
  mret drug_id.

(** [_insert_drug_label] *)
Definition _insert_drug_label (drug_id : string) (record : DrugRecord) : St unit :=
  label_id ← new_uuid;
  created ← now;
  updated ← now;
  execute (InsertDrugLabel (label_values label_id drug_id record created updated));;
  mret tt.

(** [_update_drug] *)
Definition _update_drug (drug_id : string) (record : DrugRecord) : St unit :=
  t ← now;
  execute (UpdateDrug drug_id record t);;
  label_result ← execute (SelectLabelByDrug drug_id);
  match label_result with
  | Some _ =>
      t ← now;
      execute (UpdateDrugLabel drug_id record t);;
      mret tt
  | None => _insert_drug_label drug_id record
  end.

(** The [try] block of [_process_single_drug]. *)
Definition process_single_drug_body (record : DrugRecord) : St unit :=
  if negb (_validate_record record) then count add_skipped
  else
    existing_drug_id ← _find_existing_drug record;
    if Transformer.truthy_opt existing_drug_id then
      _update_drug (default "" existing_drug_id) record;;
      count add_updated
    else
      drug_id ← _insert_drug record;
      _insert_drug_label drug_id record;;
      count add_inserted.

(** [_process_single_drug]: the [except] clause counts the error and
    raises it again. *)
Definition _process_single_drug (record : DrugRecord) : St unit :=
  r ← try (process_single_drug_body record);
  match r with
  | Ok _ => mret tt
  | Raise => count add_errors;; raise
  end.

(** The [for record in drug_records] loop of [seed_drugs_batch]; the
    result is [successful_records]. *)
Fixpoint process_records (drug_records : list DrugRecord) (successful_records : nat)
    : St nat :=
  match drug_records with
  | [] => mret successful_records
  | record :: rest =>
      r ← try (_process_single_drug record);
      match r with
      | Ok _ =>
          count add_processed;;
          process_records rest (successful_records + 1)
      | Raise =>
          count add_errors;;
          process_records rest successful_records
      end
  end.

(** The outer [try] block of [seed_drugs_batch]. *)
Definition seed_drugs_batch_body (drug_records : list DrugRecord) : St bool :=
  on_connection OpenCursor;;
  successful_records ← process_records drug_records 0;
  if (0 <? successful_records)%nat then
    on_connection Commit;;
    mret true
  else
    on_connection Rollback;;
    mret false.

(** [seed_drugs_batch].  [Raise] is the [RuntimeError] of a seeder that
    is not connected, or the exception of a [rollback] that fails in the
    outer handler. *)
Definition seed_drugs_batch (drug_records : list DrugRecord) : St bool :=
  match drug_records with
  | [] => mret true
  | _ =>
      fun st =>
        match conn st with
        | None => (Raise, st)
        | Some _ =>
            (r ← try (seed_drugs_batch_body drug_records);
             match r with
             | Ok b => mret b
             | Raise => on_connection Rollback;; mret false
             end) st
        end
  end.

(** What [_find_existing_drug] answers when it starts at tick [t] on
    tables [db] and no statement raises; each query takes one tick. *)
Definition find_existing (t : nat) (db : database) (record : DrugRecord) : option string :=
  if truthy (Transformer.set_id record) then
    match select_drug_by_set_id t db (Transformer.set_id record) with
    | Some drug_id => Some drug_id
    | None =>
        select_drug_by_name (S t) db (Transformer.name record) (Transformer.manufacturer record)
    end
  else select_drug_by_name t db (Transformer.name record) (Transformer.manufacturer record).

(** *** Sessions *)

(** What a caller does with a seeder. *)
Inductive call : Type :=
| Connect (db : database)
| SeedBatch (drug_records : list DrugRecord)
| ResetStats.

Definition run_call (c : call) (st : seeder) : seeder :=
  match c with
  | Connect db => connect db st
  | SeedBatch drug_records => snd (seed_drugs_batch drug_records st)
  | ResetStats => reset_stats st
  end.

(** The seeder after a sequence of calls on a freshly constructed one. *)
Definition session (calls : list call) : seeder :=
  foldl (fun st c => run_call c st) init calls.

(** *** The conditions of a run without incident *)

(** The storage server never raises. *)
Definition reliable : Prop :=
  (forall t stmt db, execute_raises t stmt db = false) /\
  (forall t c, connection_raises t c = false).

Definition drug_ids (db : database) : list string := Drugs.id <$> drugs db.

(** *** Vocabulary of the statements about the loader *)

#[local] Open Scope list_scope.

(** The sum that the invariant of the counters compares [processed]
    with. *)
Definition handled (s : Stats) : nat := inserted s + updated s + skipped s.

(** A computation that leaves the counters alone and the seeder
    connected. *)
Definition quiet {A} (c : St A) : Prop :=
  forall st res st', c st = (res, st') ->
    stats st' = stats st /\ (is_Some (conn st) -> is_Some (conn st')).

(** What [_update_drug] does to the labels: the rows of the drug are
    rewritten, or, when it has none, one is appended. *)
Definition labels_updated (drug_id : string) (record : DrugRecord) (t t' : nat)
    (db : database) (labels' : list DrugLabels.row) : Prop :=
  (labels_of_drug db drug_id <> [] /\
   exists now, labels' = update_label_row drug_id record now <$> drug_labels db) \/
  (labels_of_drug db drug_id = [] /\
   exists tl created updated,
     t <= tl < t' /\
     labels' = drug_labels db ++ [label_values (uuid4 tl) drug_id record created updated]).

(** The effect of [_process_single_drug], started at tick [t], on a server
    that never raises. *)
Inductive step (record : DrugRecord) (t t' : nat) (db db' : database) (s s' : Stats) : Prop :=
| step_skip :
    _validate_record record = false ->
    db' = db -> s' = add_skipped s -> t' = t ->
    step record t t' db db' s s'
| step_update (drug_id : string) (now : timestamp) :
    _validate_record record = true ->
    find_existing t db record = Some drug_id ->
    nonempty drug_id = true ->
    drugs db' = update_drug_row drug_id record now <$> drugs db ->
    labels_updated drug_id record t t' db (drug_labels db') ->
    s' = add_updated s -> t <= t' ->
    step record t t' db db' s s'
| step_insert (tu tl : nat) (c1 u1 c2 u2 : timestamp) :
    _validate_record record = true ->
    Transformer.truthy_opt (find_existing t db record) = false ->
    t <= tu < t' -> t <= tl < t' ->
    drugs db' = drugs db ++ [drug_values (uuid4 tu) record c1 u1] ->
    drug_labels db' = drug_labels db ++ [label_values (uuid4 tl) (uuid4 tu) record c2 u2] ->
    s' = add_inserted s ->
    step record t t' db db' s s'.

(** Every label row belongs to a row of [drugs]. *)
Definition referential (db : database) : Prop :=
  forall dl, In dl (drug_labels db) -> In (DrugLabels.drug_id dl) (drug_ids db).

(** The seeder is connected, what is committed and what the transaction
    sees are referential, and the transaction, unless it is aborted, sees
    the drugs [known]. *)
Definition intact (known : list string) (st : seeder) : Prop :=
  exists c, conn st = Some c /\
    referential (committed c) /\ referential (pending c) /\
    (aborted c = false ->
     forall drug_id, In drug_id known -> In drug_id (drug_ids (pending c))).

(** A method run from a seeder that satisfies [P] leaves a result and a
    seeder that satisfy [Q], whether it returns or raises. *)
Definition triple {A} (P : seeder -> Prop) (c : St A) (Q : result A -> seeder -> Prop) : Prop :=
  forall st res st', P st -> c st = (res, st') -> Q res st'.

(** A text with a character that is not whitespace. *)
Definition visible (s : string) : Prop :=
  exists c, has_char c s = true /\ isspace c = false.

End Methods.

End Seeder.

(* ================================================================== *)
(** ** main.py: the loop of the orchestrator *)
(* ================================================================== *)

Module Main.
Import Json Exc Parser.
Import Transformer (DrugRecord, issue, transform).
Import Seeder.

(** The arguments of [DrugSeederOrchestrator] that the loop reads;
    [argparse] takes both with [type=int], so any integer can arrive. *)
Record DrugSeederOrchestrator : Type := {
  batch_size : Z;
  resume_from : Z
}.

(** The variables of [run] the loop works on: [batch], [processed_count],
    [self.current_position], and the issue list of [self.transformer]. *)
Record locals : Type := {
  batch : list DrugRecord;
  processed_count : nat;
  current_position : nat;
  data_quality_issues : list issue
}.

Section Run.
Context `{Runtime} `{Transformer.Html} `{Seeder.World}.

(** The variables before the first iteration. *)
Definition at_start (issues : list issue) : locals :=
  {| batch := []; processed_count := 0; current_position := 0;
     data_quality_issues := issues |}.

(** The body of [for raw_drug_data in self.parser.parse_drugs()].  A
    [DrugRecord] is truthy, so [if drug_record] tests for [None].  The
    status line is printed when [processed_count % (self.batch_size * 10)]
    is 0, and that expression raises [ZeroDivisionError] when the divisor
    is 0.  The progress bar is not modelled. *)
Definition run_record (self : DrugSeederOrchestrator) (raw_drug_data : value) (l : locals)
    : St locals :=
  if (Z.of_nat (processed_count l) <? resume_from self)%Z then
    mret {| batch := batch l;
            processed_count := processed_count l + 1;
            current_position := current_position l;
            data_quality_issues := data_quality_issues l |}
  else
    let '(drug_record, issues) := transform raw_drug_data (data_quality_issues l) in
    let batch' :=
      match drug_record with
      | Some r => (batch l ++ [r])%list
      | None => batch l
      end in
    let processed_count' := processed_count l + 1 in
    if (batch_size self <=? Z.of_nat (length batch'))%Z then
      seed_drugs_batch batch';;
      (if (batch_size self * 10 =? 0)%Z then raise else mret tt : St unit);;
      mret {| batch := [];
              processed_count := processed_count';
              current_position := processed_count';
              data_quality_issues := issues |}
    else
      mret {| batch := batch';
              processed_count := processed_count';
              current_position := processed_count';
              data_quality_issues := issues |}.

(** The [for] loop over what the generator does: a record it yields goes
    through the body, a diagnostic it prints is nothing to the loop, and its
    exception leaves the loop and [run]. *)
Fixpoint run_loop (self : DrugSeederOrchestrator) (events : list event) (l : locals)
    : St locals :=
  match events with
  | [] => mret l
  | Yield raw_drug_data :: rest =>
      l' ← run_record self raw_drug_data l;
      run_loop self rest l'
  | Printed _ :: rest => run_loop self rest l
  | Failed :: _ => raise
  end.

(** The loop and, after it, [if batch: seeder.seed_drugs_batch(batch)]:
    the part of [run] that stores records. *)
Definition run_batches (self : DrugSeederOrchestrator) (events : list event)
    (issues : list issue) : St unit :=
  l ← run_loop self events (at_start issues);
  match batch l with
  | [] => mret tt
  | _ => seed_drugs_batch (batch l);; mret tt
  end.

(** *** Vocabulary of the statements about the loop *)

(** The records [transform] makes of a list of documents, those it
    rejects left out. *)
Definition transformed (raws : list value) : list DrugRecord :=
  omap (fun raw => fst (transform raw [])) raws.

(** The records the loop works on: the documents yielded, but the first
    [resume_from]. *)
Definition resumed (self : DrugSeederOrchestrator) (events : list event) : list DrugRecord :=
  transformed (drop (Z.to_nat (resume_from self)) (yielded events)).

(** One call of [seed_drugs_batch] per batch, in order, stopping at an
    exception. *)
Fixpoint seed_all (batches : list (list DrugRecord)) : St unit :=
  match batches with
  | [] => mret tt
  | b :: rest => seed_drugs_batch b;; seed_all rest
  end.

End Run.

End Main.

(* ================================================================== *)
(** ** Concrete inputs used in the statements below *)
(* ================================================================== *)

Module Examples.
Import Json Exc PyStr.

(** A runtime and an HTML reducer to run the code with: [repr] is not
    needed by the examples, and the reducer drops the tags of a string. *)
Fixpoint drop_tags (in_tag : bool) (s : string) : string :=
  match s with
  | EmptyString => EmptyString
  | String c s' =>
      if Ascii.eqb c "<" then drop_tags true s'
      else if Ascii.eqb c ">" then drop_tags false s'
      else if in_tag then drop_tags in_tag s'
      else String c (drop_tags in_tag s')
  end.

#[export] Instance runtime : Runtime := {| repr := fun _ => "?" |}.

#[export] Instance html : Transformer.Html :=
  {| Transformer.soup_text := fun v =>
       match v with VStr s => Some (drop_tags false s) | _ => None end |}.

Definition indications_y : value := VDict {[ "indicationsAndUsage" := VStr "<p>y</p>" ]}.

(** The documents of the scenarios of the specification. *)
Definition empty_name_doc : object :=
  {[ "drugName" := VStr ""; "labeler" := VStr "X"; "label" := indications_y ]}.

Definition alt_name_doc : object :=
  {[ "name" := VStr "Alt Drug"; "labeler" := VStr "X"; "label" := indications_y ]}.

(** A document with a name and a [label] that is not a mapping. *)
Definition text_label_doc : object :=
  {[ "drugName" := VStr "Emgality"; "labeler" := VStr "X"; "label" := VStr "see insert" ]}.

(** A document whose name has 256 characters. *)
Fixpoint times (n : nat) (c : ascii) : string :=
  match n with O => EmptyString | S n' => String c (times n' c) end.
Definition long_name : string := times 256 "A".
Definition long_name_doc : object :=
  {[ "drugName" := VStr long_name; "labeler" := VStr "X" ]}.

Definition strength_text : string := "Injection: 120 mg/mL in a single-dose prefilled pen".

(** A clinical pharmacology narrative with a heading line, two content
    lines and the heading of the next section. *)
Definition pharmacology_text : string :=
  "Mechanism of Action" ++ String "010" "Binds to the receptor." ++ String "010"
    "Blocks its function." ++ String "010" "Pharmacodynamics" ++ String "010" "None.".

Definition pharmacology_label : value :=
  VDict {[ "clinicalPharmacology" := VStr pharmacology_text ]}.

(** An admissible document and one that is not, for the parser. *)
Definition admitted_doc : object :=
  {[ "drugName" := VStr "Emgality"; "labeler" := VStr "Eli Lilly and Company";
     "label" := indications_y ]}.

Definition pharmacology_doc : object :=
  {[ "drugName" := VStr "Emgality"; "labeler" := VStr "Eli Lilly and Company";
     "label" := pharmacology_label ]}.

(** The test document of the [__main__] block of [transformer.py]. *)
Definition emgality_doc : object :=
  {[ "drugName" := VStr "Emgality";
     "setId" := VStr "33a147be-233a-40e8-a55e-e40936e28db0";
     "slug" := VStr "emgality-33a147b";
     "labeler" := VStr "Eli Lilly and Company";
     "label" := VDict
       {[ "genericName" := VStr "galcanezumab-gnlm";
          "title" := VStr "EMGALITY";
          "indicationsAndUsage" :=
            VStr "<p>EMGALITY is indicated for the preventive treatment of migraine in adults.</p>";
          "dosageFormsAndStrengths" :=
            VStr "<p>Injection: 120 mg/mL in a single-dose prefilled pen</p>" ]} ]}.

(** A document whose label has a title that is not its name. *)
Definition titled_doc : object :=
  {[ "drugName" := VStr "Emgality";
     "labeler" := VStr "Eli Lilly and Company";
     "label" := VDict
       {[ "title" := VStr "  EMGALITY  Pen ";
          "indicationsAndUsage" := VStr "<p>y</p>" ]} ]}.

(** The document of the test named "Missing label entirely". *)
Definition unlabelled_doc : object :=
  {[ "drugName" := VStr "Test Drug"; "labeler" := VStr "Test Manufacturer" ]}.

(** A label whose [howSupplied] section carries an NDC. *)
Definition ndc_label : object :=
  {[ "howSupplied" := VStr "<p>Carton of 1 pen: NDC 0002-1436-11</p>" ]}.

(** A well-formed file of three documents, the second without a name. *)
Definition feed : Parser.source :=
  {| Parser.items := [VDict admitted_doc; VDict empty_name_doc; VDict emgality_doc];
     Parser.malformed := false |}.

(** An 8-digit value: eight characters, all decimal digits. *)
Fixpoint all_digits (s : string) : bool :=
  match s with
  | EmptyString => true
  | String c s' => isdigit c && all_digits s'
  end.

Definition eight_digits (s : string) : bool :=
  (String.length s =? 8)%nat && all_digits s.

Definition effective (v : value) : value := VDict {[ "effectiveTime" := v ]}.

(** *** Batches and storage for the loader *)

Definition record (name manufacturer : string) (set_id slug : value) : Transformer.DrugRecord :=
  {| Transformer.name := name;
     Transformer.generic_name := None;
     Transformer.brand_name := None;
     Transformer.manufacturer := manufacturer;
     Transformer.dosage_form := "Unknown";
     Transformer.strength := "Not specified";
     Transformer.route := "Unknown";
     Transformer.ndc := None;
     Transformer.fda_application_number := None;
     Transformer.approval_date := None;
     Transformer.indications := "Not available";
     Transformer.contraindications := None;
     Transformer.warnings := None;
     Transformer.precautions := None;
     Transformer.adverse_reactions := None;
     Transformer.dosage_and_administration := None;
     Transformer.how_supplied := None;
     Transformer.clinical_pharmacology := None;
     Transformer.mechanism_of_action := None;
     Transformer.pharmacokinetics := None;
     Transformer.set_id := set_id;
     Transformer.slug := slug |}.

(** Identifiers that never repeat: the tick in unary. *)
Definition tick_uuid (t : nat) : string := String "u" (times t "1").

(** A parameter psycopg2 cannot adapt: a JSON object. *)
Definition unadaptable (v : value) : bool :=
  match v with VDict _ => true | _ => false end.

(** A server with a unique constraint on [drugs.slug] that the slug
    ["taken"] violates: the [INSERT] raises, and the transaction is
    aborted.  A slug that psycopg2 cannot adapt makes [execute] raise
    before anything is sent.  Nothing else fails, and of several rows the
    first in table order is returned. *)
#[export] Instance unique_slug_world : Seeder.World :=
  {| Seeder.uuid4 := tick_uuid;
     Seeder.utcnow := fun t => Z.of_nat t;
     Seeder.sql_lower := lower;
     Seeder.execute_raises := fun _ stmt _ =>
       match stmt with
       | Seeder.InsertDrug r =>
           Seeder.value_is (Seeder.Drugs.slug r) "taken" || unadaptable (Seeder.Drugs.slug r)
       | Seeder.UpdateDrug _ r _ => unadaptable (Transformer.slug r)
       | _ => false
       end;
     Seeder.aborts_transaction := fun _ stmt _ =>
       match stmt with
       | Seeder.InsertDrug r => Seeder.value_is (Seeder.Drugs.slug r) "taken"
       | _ => false
       end;
     Seeder.row_choice := fun _ => 0;
     Seeder.connection_raises := fun _ _ => false |}.

(** A server on which nothing fails, and which returns the row [choice]
    says of several. *)
Definition reliable_world_choosing (choice : nat -> nat) : Seeder.World :=
  {| Seeder.uuid4 := tick_uuid;
     Seeder.utcnow := fun t => Z.of_nat t;
     Seeder.sql_lower := lower;
     Seeder.execute_raises := fun _ _ _ => false;
     Seeder.aborts_transaction := fun _ _ _ => false;
     Seeder.row_choice := choice;
     Seeder.connection_raises := fun _ _ => false |}.

(** The one that returns the first row in table order. *)
Definition reliable_world : Seeder.World := reliable_world_choosing (fun _ => 0).

Definition empty_db : Seeder.database := {| Seeder.drugs := []; Seeder.drug_labels := [] |}.

Definition connected : Seeder.seeder := Seeder.connect empty_db Seeder.init.

(** Three valid records, the second with the slug that is taken. *)
Definition one_failing : list Transformer.DrugRecord :=
  [record "Aspirin" "Bayer" VNone (VStr "aspirin");
   record "Ibuprofen" "Advil" VNone (VStr "taken");
   record "Naproxen" "Aleve" VNone (VStr "naproxen")].

(** Three valid records, the second with a slug that cannot be adapted. *)
Definition one_unadaptable : list Transformer.DrugRecord :=
  [record "Aspirin" "Bayer" VNone (VStr "aspirin");
   record "Ibuprofen" "Advil" VNone (VDict ∅);
   record "Naproxen" "Aleve" VNone (VStr "naproxen")].

(** Three valid records that all violate the constraint. *)
Definition all_failing : list Transformer.DrugRecord :=
  [record "Aspirin" "Bayer" VNone (VStr "taken");
   record "Ibuprofen" "Advil" VNone (VStr "taken");
   record "Naproxen" "Aleve" VNone (VStr "taken")].

(** Records that fail validation: no name, no manufacturer. *)
Definition all_invalid : list Transformer.DrugRecord :=
  [record "" "Bayer" VNone VNone; record "Ibuprofen" "  " VNone VNone].

(** A batch with and without [set_id], two spellings of one identity. *)
Definition mixed_batch : list Transformer.DrugRecord :=
  [record "Emgality" "Eli Lilly and Company" (VStr "33a147be") (VStr "emgality");
   record "Aspirin" "Bayer" VNone VNone;
   record "EMGALITY" "ELI LILLY AND COMPANY" (VStr "33a147be") (VStr "emgality")].

(** Two records with one [set_id] and two names: one product, relabelled. *)
Definition same_set_id_batch : list Transformer.DrugRecord :=
  [record "Emgality" "Eli Lilly and Company" (VStr "33a147be") (VStr "emgality");
   record "Emgality Pen" "Eli Lilly and Company" (VStr "33a147be") (VStr "emgality-pen")].

(** The rows of [drugs] and of [drug_labels] a seeder has committed. *)
Definition stored_rows (st : Seeder.seeder) : option (nat * nat) :=
  (fun c => (length (Seeder.drugs (Seeder.committed c)),
             length (Seeder.drug_labels (Seeder.committed c)))) <$> Seeder.conn st.

(** The seeder after a batch, on a server where nothing fails. *)
Definition seeded_choosing (choice : nat -> nat) (drug_records : list Transformer.DrugRecord)
    (st : Seeder.seeder) : Seeder.seeder :=
  snd (@Seeder.seed_drugs_batch (reliable_world_choosing choice) drug_records st).

(** The tables a seeder sees. *)
Definition tables (st : Seeder.seeder) : Seeder.database :=
  match Seeder.conn st with
  | Some c => Seeder.pending c
  | None => empty_db
  end.

End Examples.

(* ================================================================== *)
(** ** The admission filter of the parser *)
(* ================================================================== *)

Module ParserFacts.
Import Json Exc Parser.

Section Facts.
Context `{Runtime}.

Lemma truthy_get (d : object) (k : string) :
  has_key d k && truthy (get d k) = non_empty_at d k.
Proof.
  unfold has_key, get, non_empty_at. destruct (d !! k); reflexivity.
Qed.

Lemma required_present_spec (d : object) :
  required_present d =
  non_empty_at d "drugName" && non_empty_at d "labeler" && non_empty_at d "label".
Proof.
  unfold required_present, required_fields. simpl.
  rewrite !truthy_get, andb_true_r, andb_assoc. reflexivity.
Qed.

(** What the code's scan of [label_fields] computes: the disjunction over
    the four fields. *)
Lemma content_fields (label : object) :
  existsb (fun field => truthy (get label field)) label_fields
  = non_empty_at label "indicationsAndUsage"
    || non_empty_at label "dosageAndAdministration"
    || non_empty_at label "warningsAndPrecautions"
    || non_empty_at label "adverseReactions".
Proof.
  unfold label_fields, get, non_empty_at. simpl.
  repeat match goal with |- context [label !! ?k] => destruct (label !! k) end;
    cbn [default from_option id truthy orb];
    rewrite ?orb_false_r, ?orb_assoc; reflexivity.
Qed.

(** A mapping with a non-empty value is a non-empty mapping. *)
Lemma non_empty_at_truthy (label : object) (field : string) :
  non_empty_at label field = true -> truthy (VDict label) = true.
Proof.
  unfold non_empty_at. intros Hne. simpl.
  destruct (label !! field) as [v|] eqn:Hl; [|discriminate].
  match goal with |- negb (?n =? 0)%nat = true => destruct n eqn:Hs end;
    [|reflexivity].
  apply map_size_empty_iff in Hs. subst label.
  rewrite lookup_empty in Hl. discriminate.
Qed.

(** A label with content is a non-empty mapping. *)
Lemma content_truthy (label : object) :
  non_empty_at label "indicationsAndUsage"
  || non_empty_at label "dosageAndAdministration"
  || non_empty_at label "warningsAndPrecautions"
  || non_empty_at label "adverseReactions" = true ->
  truthy (VDict label) = true.
Proof.
  rewrite !orb_true_iff.
  intros [[[Hne|Hne]|Hne]|Hne]; exact (non_empty_at_truthy _ _ Hne).
Qed.

Lemma label_case (v : value) :
  (if negb (truthy v) then Ok false
   else match v with
        | VDict label => Ok (existsb (fun field => truthy (get label field)) label_fields)
        | _ => Ok false
        end)
  = Ok (match v with
        | VDict label =>
            non_empty_at label "indicationsAndUsage"
            || non_empty_at label "dosageAndAdministration"
            || non_empty_at label "warningsAndPrecautions"
            || non_empty_at label "adverseReactions"
        | _ => false
        end).
Proof.
  destruct v as [|b|z|m e|s|l|label];
    try (destruct (negb (truthy _)); reflexivity).
  rewrite content_fields.
  destruct (non_empty_at label "indicationsAndUsage"
            || non_empty_at label "dosageAndAdministration"
            || non_empty_at label "warningsAndPrecautions"
            || non_empty_at label "adverseReactions") eqn:Hex.
  - rewrite (content_truthy _ Hex). reflexivity.
  - destruct (negb (truthy _)); reflexivity.
Qed.

(** On a mapping the code computes the filter of the specification. *)
Lemma valid_admissible (d : object) :
  _is_valid_drug_record (VDict d) = Ok (admissible d).
Proof.
  unfold _is_valid_drug_record, admissible.
  rewrite required_present_spec.
  destruct (non_empty_at d "drugName"); [|reflexivity].
  destruct (non_empty_at d "labeler"); [|reflexivity].
  unfold non_empty_at at 1, get_or.
  destruct (d !! "label") as [v|]; [|reflexivity].
  exact (label_case v).
Qed.

(** The documents at the head of a file are dealt with one by one,
    whatever follows them. *)
Lemma parse_items_mappings_then (docs : list object) (l : list value) (at_end : list event) :
  parse_items ((VDict <$> docs) ++ l)%list at_end
  = ((admission <$> docs) ++ parse_items l at_end)%list.
Proof.
  induction docs as [|d docs IH]; [reflexivity|].
  rewrite !fmap_cons, <- !app_comm_cons. cbn [parse_items].
  rewrite valid_admissible, IH.
  unfold admission. destruct (admissible d); reflexivity.
Qed.

Lemma parse_items_mappings (docs : list object) (at_end : list event) :
  parse_items (VDict <$> docs) at_end = ((admission <$> docs) ++ at_end)%list.
Proof.
  rewrite <- (app_nil_r (VDict <$> docs)), parse_items_mappings_then. reflexivity.
Qed.

Lemma yielded_admission (docs : list object) :
  yielded (admission <$> docs) = VDict <$> filter (fun d => admissible d = true) docs.
Proof.
  unfold yielded. induction docs as [|d docs IH]; [reflexivity|].
  rewrite fmap_cons, filter_cons. cbn [omap list_omap].
  fold (omap (fun e => match e with Yield v => Some v | _ => None end) (admission <$> docs)).
  rewrite IH. unfold admission at 1.
  destruct (decide (admissible d = true)) as [Ha|Ha].
  - rewrite Ha. reflexivity.
  - apply not_true_is_false in Ha. rewrite Ha. reflexivity.
Qed.

(** C9.  Over a well-formed file of documents (mappings), the streaming
    parser does exactly one thing per document, in order: it yields the
    document when the document has non-empty [drugName] and [labeler] and
    a [label] that is a mapping with a non-empty value under one of
    [indicationsAndUsage], [dosageAndAdministration],
    [warningsAndPrecautions], [adverseReactions]; otherwise it prints the
    diagnostic and goes on.  So the documents yielded are exactly the
    admissible ones, and no exception is raised for a document that fails
    the filter.  The same is done with the documents at the head of any
    file, whatever comes after them: an item that is not a mapping, or a
    malformed tail. *)
Theorem parse_drugs_admission (docs : list object) :
  let run := parse_drugs {| items := VDict <$> docs; malformed := false |} in
  (forall d, _is_valid_drug_record (VDict d) = Ok (admissible d)) /\
  run = admission <$> docs /\
  yielded run = VDict <$> filter (fun d => admissible d = true) docs /\
  ~ In Failed run /\
  (forall (rest : list value) (m : bool),
     parse_drugs {| items := (VDict <$> docs) ++ rest; malformed := m |}
     = ((admission <$> docs) ++ parse_drugs {| items := rest; malformed := m |})%list).
Proof.
  simpl. unfold parse_drugs. simpl.
  rewrite parse_items_mappings, app_nil_r.
  split; [exact valid_admissible|].
  split; [reflexivity|].
  split; [apply yielded_admission|].
  split.
  - intros Hin. apply in_map_iff in Hin as (d & Hd & _).
    unfold admission in Hd. destruct (admissible d); discriminate.
  - intros rest m. apply parse_items_mappings_then.
Qed.

End Facts.

End ParserFacts.

(* ================================================================== *)
(** ** Facts about the string operations *)
(* ================================================================== *)

Module PyStrFacts.
Import PyStr.

Lemma newline_isspace (c : ascii) : Ascii.eqb newline c = true -> isspace c = true.
Proof. intros Heq. apply Ascii.eqb_eq in Heq. subst c. reflexivity. Qed.

Lemma sub_ws_no_newline (in_run : bool) (s : string) :
  has_char newline (sub_ws in_run s) = false.
Proof.
  revert in_run. induction s as [|c s IH]; intros in_run; [reflexivity|].
  cbn [sub_ws]. destruct (isspace c) eqn:Hc.
  - destruct in_run; cbn [has_char]; rewrite ?IH; reflexivity.
  - cbn [has_char]. rewrite IH, orb_false_r.
    destruct (Ascii.eqb newline c) eqn:Heq; [|reflexivity].
    apply newline_isspace in Heq. congruence.
Qed.

Lemma lstrip_by_has_char (p : ascii -> bool) (c : ascii) (s : string) :
  has_char c s = false -> has_char c (lstrip_by p s) = false.
Proof.
  induction s as [|d s IH]; [reflexivity|].
  cbn [has_char lstrip_by]. intros Hs. apply orb_false_elim in Hs as [Hd Hs].
  destruct (p d); [auto|]. cbn [has_char]. rewrite Hd, Hs. reflexivity.
Qed.

Lemma rstrip_by_has_char (p : ascii -> bool) (c : ascii) (s : string) :
  has_char c s = false -> has_char c (rstrip_by p s) = false.
Proof.
  induction s as [|d s IH]; [reflexivity|].
  cbn [has_char rstrip_by]. intros Hs. apply orb_false_elim in Hs as [Hd Hs].
  specialize (IH Hs).
  destruct (rstrip_by p s) as [|e r].
  - destruct (p d); cbn [has_char]; rewrite ?Hd; reflexivity.
  - cbn [has_char]. cbn [has_char] in IH. rewrite Hd, IH. reflexivity.
Qed.

(** After whitespace is collapsed no line break is left. *)
Lemma normalize_ws_no_newline (s : string) : has_char newline (normalize_ws s) = false.
Proof.
  unfold normalize_ws, strip.
  apply rstrip_by_has_char, lstrip_by_has_char, sub_ws_no_newline.
Qed.

(** A string without the separator is one piece. *)
Lemma split_absent (sep : ascii) (s : string) :
  has_char sep s = false -> split sep s = [s].
Proof.
  induction s as [|c s IH]; [reflexivity|].
  cbn [has_char split]. intros Hs. apply orb_false_elim in Hs as [Hc Hs].
  rewrite Ascii.eqb_sym, Hc, (IH Hs). reflexivity.
Qed.

Lemma nonempty_length (s : string) : nonempty s = true <-> s <> "".
Proof. destruct s; simpl; split; congruence. Qed.

End PyStrFacts.

(* ================================================================== *)
(** ** The transformer *)
(* ================================================================== *)

Module TransformerFacts.
Import Json Exc PyStr PyStrFacts Regex Transformer.

(** Running a bind. *)
Lemma mbind_ok {A B} (c : M A) (k : A -> M B) (q q' : list issue) (b : B) :
  (c ≫= k) q = (Ok b, q') <->
  exists a q1, c q = (Ok a, q1) /\ k a q1 = (Ok b, q').
Proof.
  unfold mbind, M_bind, bind. split.
  - destruct (c q) as [[a|] q1]; [|discriminate]. intros Hk. exists a, q1. auto.
  - intros (a & q1 & Hc & Hk). rewrite Hc. exact Hk.
Qed.

Lemma mbind_raise {A B} (c : M A) (k : A -> M B) (q q' : list issue) :
  c q = (Raise, q') -> (c ≫= k) q = (Raise, q').
Proof. unfold mbind, M_bind, bind. intros ->. reflexivity. Qed.

Lemma mbind_step {A B} (c : M A) (k : A -> M B) (q q1 : list issue) (a : A) :
  c q = (Ok a, q1) -> (c ≫= k) q = k a q1.
Proof. unfold mbind, M_bind, bind. intros ->. reflexivity. Qed.

(** Peel the binds of a run that ended well. *)
Ltac peel H :=
  repeat match type of H with
         | (_ ≫= _) _ = (Ok _, _) =>
             let a := fresh "a" in
             let q := fresh "q" in
             let E := fresh "E" in
             apply mbind_ok in H as (a & q & E & H)
         end.

Section Facts.
Context `{Runtime} `{Html}.

Lemma clean_text_some (v : value) (t : string) :
  _clean_text v = Some t -> nonempty t = true /\ has_char newline t = false.
Proof.
  unfold _clean_text. destruct (negb (truthy v)); [discriminate|].
  destruct (nonempty (normalize_ws (str v))) eqn:Hn; [|discriminate].
  intros [= <-]. split; [exact Hn | apply normalize_ws_no_newline].
Qed.

Lemma clean_html_some (v : value) (t : string) :
  _clean_html_content v = Some t -> nonempty t = true /\ has_char newline t = false.
Proof.
  unfold _clean_html_content. destruct (negb (truthy v)); [discriminate|].
  destruct (soup_text v) as [text|]; [|apply clean_text_some].
  destruct (nonempty (normalize_ws text)) eqn:Hn; [|discriminate].
  intros [= <-]. split; [exact Hn | apply normalize_ws_no_newline].
Qed.

(** The text the two section extractors split into lines is one line. *)
Lemma cleaned_one_line (v : value) :
  split newline (or_str (_clean_html_content v) "") = [or_str (_clean_html_content v) ""].
Proof.
  apply split_absent. unfold or_str.
  destruct (_clean_html_content v) as [t|] eqn:Hc; [|reflexivity].
  apply clean_html_some in Hc as [-> Hnl]. exact Hnl.
Qed.

(** One line never yields a section body: a heading has nothing after
    it, and anything else is outside a section. *)
Lemma section_lines_one_line (heading : string) (stop_keywords : list string) (line : string) :
  section_lines heading stop_keywords false [line] = [].
Proof.
  cbn [section_lines]. destruct (contains heading (lower line)); reflexivity.
Qed.

Lemma extract_mechanism_of_action_none (label : value) (q q' : list issue) (m : option string) :
  _extract_mechanism_of_action label q = (Ok m, q') -> m = None.
Proof.
  unfold _extract_mechanism_of_action. intros Hrun. peel Hrun.
  destruct (truthy a).
  - fold newline in Hrun.
    rewrite cleaned_one_line, section_lines_one_line in Hrun.
    injection Hrun as <- _. reflexivity.
  - injection Hrun as <- _. reflexivity.
Qed.

Lemma extract_pharmacokinetics_none (label : value) (q q' : list issue) (m : option string) :
  _extract_pharmacokinetics label q = (Ok m, q') -> m = None.
Proof.
  unfold _extract_pharmacokinetics. intros Hrun. peel Hrun.
  destruct (truthy a).
  - fold newline in Hrun.
    rewrite cleaned_one_line, section_lines_one_line in Hrun.
    injection Hrun as <- _. reflexivity.
  - injection Hrun as <- _. reflexivity.
Qed.

(** On a label that is a mapping both extractors return [None] and
    leave the issue list as it was. *)
Lemma extract_sections_mapping (label : object) (q : list issue) :
  _extract_mechanism_of_action (VDict label) q = (Ok None, q) /\
  _extract_pharmacokinetics (VDict label) q = (Ok None, q).
Proof.
  unfold _extract_mechanism_of_action, _extract_pharmacokinetics.
  split.
  - erewrite mbind_step by reflexivity.
    destruct (truthy _); [|reflexivity].
    fold newline. rewrite cleaned_one_line, section_lines_one_line. reflexivity.
  - erewrite mbind_step by reflexivity.
    destruct (truthy _); [|reflexivity].
    fold newline. rewrite cleaned_one_line, section_lines_one_line. reflexivity.
Qed.

(** What a successful run of the [try] block of [transform] went
    through, for the fields the statements below are about. *)
Lemma transform_body_inv (d : object) (q q' : list issue) (r : DrugRecord) :
  transform_body d q = (Ok (Some r), q') ->
  let label := get_or d "label" (VDict ∅) in
  nonempty (name r) = true /\
  (exists qa qb, _safe_extract_drug_name d qa = (Ok (Some (name r)), qb)) /\
  (exists qa qb, _safe_extract_manufacturer d qa = (Ok (manufacturer r), qb)) /\
  (exists qa qb, _extract_strength label qa = (Ok (strength r), qb)) /\
  (exists qa qb, _extract_approval_date label qa = (Ok (approval_date r), qb)) /\
  (exists qa qb, _extract_mechanism_of_action label qa = (Ok (mechanism_of_action r), qb)) /\
  (exists qa qb, _extract_pharmacokinetics label qa = (Ok (pharmacokinetics r), qb)).
Proof.
  unfold transform_body. intros Hrun. peel Hrun.
  destruct a1 as [drug_name|]; [|peel Hrun; discriminate].
  destruct (nonempty drug_name) eqn:Hname; cbn [negb] in Hrun;
    [|peel Hrun; discriminate].
  peel Hrun. injection Hrun as <- _. cbn.
  repeat split; eauto.
Qed.

(** C5.  Whatever the [clinicalPharmacology] narrative is, a record that
    [transform] returns has no [mechanism_of_action] and no
    [pharmacokinetics]: the narrative is split into lines only after
    [_clean_html_content] has replaced every run of whitespace, line breaks
    included, by one space, so the scan sees a single line, and a heading
    found on it has no line after it to collect. *)
Theorem sections_never_extracted (raw : value) (q q' : list issue) (r : DrugRecord) :
  transform raw q = (Some r, q') ->
  mechanism_of_action r = None /\ pharmacokinetics r = None.
Proof.
  unfold transform. destruct raw as [| | | | | |d]; try discriminate.
  destruct (transform_body d q) as [[o|] q1] eqn:Hbody; [|discriminate].
  intros [= -> ->].
  apply transform_body_inv in Hbody as (_ & _ & _ & _ & _ & Hmech & Hpk).
  destruct Hmech as (qa & qb & Hmech), Hpk as (qc & qd & Hpk).
  split.
  - exact (extract_mechanism_of_action_none _ _ _ _ Hmech).
  - exact (extract_pharmacokinetics_none _ _ _ _ Hpk).
Qed.

(** C6, as amended.  The approval date is derived from the string form
    of [effectiveTime] by its length alone: a value that is absent, falsy
    or not eight characters long gives no date, and eight characters
    [c1..c8], digits or not, give [c1c2c3c4-c5c6-c7c8].  In particular
    ["20210615"] gives ["2021-06-15"], and a date that is present has the
    layout of [YYYY-MM-DD]. *)
Theorem approval_date_by_length (label : object) (q : list issue) :
  let effective_time := get label "effectiveTime" in
  exists date : option string,
    _extract_approval_date (VDict label) q = (Ok date, q) /\
    (truthy effective_time = false \/ String.length (str effective_time) <> 8 ->
     date = None) /\
    (truthy effective_time = true ->
     forall c1 c2 c3 c4 c5 c6 c7 c8 : ascii,
       str effective_time
       = String c1 (String c2 (String c3 (String c4
           (String c5 (String c6 (String c7 (String c8 ""))))))) ->
       date = Some (String c1 (String c2 (String c3 (String c4
               (String "-" (String c5 (String c6
                 (String "-" (String c7 (String c8 ""))))))))))) /\
    (effective_time = VStr "20210615" -> date = Some "2021-06-15") /\
    (forall s, date = Some s ->
       String.length s = 10 /\ String.get 4 s = Some "-"%char /\ String.get 7 s = Some "-"%char).
Proof.
  intros effective_time. unfold _extract_approval_date.
  erewrite mbind_step by reflexivity. fold effective_time.
  destruct (truthy effective_time) eqn:Htruthy; cbn [andb].
  - destruct (String.length (str effective_time) =? 8)%nat eqn:Hlen.
    + apply Nat.eqb_eq in Hlen.
      destruct (str effective_time)
        as [|c1 [|c2 [|c3 [|c4 [|c5 [|c6 [|c7 [|c8 [|c9 rest]]]]]]]]] eqn:Hstr;
        try discriminate.
      eexists. split; [reflexivity|].
      split; [intros [Hf|Hne]; [discriminate | congruence]|].
      split; [intros _ d1 d2 d3 d4 d5 d6 d7 d8 [= -> -> -> -> -> -> -> ->]; reflexivity|].
      split.
      * intros Het. rewrite Het in Hstr. cbn in Hstr.
        injection Hstr as <- <- <- <- <- <- <- <-. reflexivity.
      * intros s [= <-]. repeat split.
    + apply Nat.eqb_neq in Hlen.
      exists None. split; [reflexivity|].
      split; [reflexivity|].
      split; [intros _ c1 c2 c3 c4 c5 c6 c7 c8 Hstr; rewrite Hstr in Hlen;
              exfalso; apply Hlen; reflexivity|].
      split; [|discriminate].
      intros Het. rewrite Het in Hlen. exfalso. apply Hlen. reflexivity.
  - exists None. split; [reflexivity|].
    split; [reflexivity|].
    split; [discriminate|].
    split; [|discriminate].
    intros Het. rewrite Het in Htruthy. discriminate.
Qed.

End Facts.

Section Rejection.
Context `{Runtime} `{Html}.

Lemma clean_text_trimmed (v : value) : _clean_text v = trimmed v.
Proof. unfold _clean_text, trimmed. destruct (truthy v); reflexivity. Qed.

Lemma trimmed_nonempty (v : value) (s : string) : trimmed v = Some s -> nonempty s = true.
Proof. rewrite <- clean_text_trimmed. intros Hs. apply (clean_text_some _ _ Hs). Qed.

Lemma first_alternative_nonempty (clean : value -> option string) (d : object)
    (alternatives : list string) (field text : string) :
  first_alternative clean d alternatives = Some (field, text) -> nonempty text = true.
Proof.
  induction alternatives as [|f rest IH]; [discriminate|].
  cbn [first_alternative].
  destruct (clean (get d f)) as [v|]; [|exact IH].
  destruct (nonempty v) eqn:Hv; [|exact IH].
  intros [= _ <-]. exact Hv.
Qed.

(** The loop over the alternative fields finds the first candidate that is
    left non-empty by trimming. *)
Lemma first_alternative_trimmed (d : object) (alternatives : list string) :
  snd <$> first_alternative _clean_text d alternatives
  = first_trimmed (get d <$> alternatives).
Proof.
  induction alternatives as [|f rest IH]; [reflexivity|].
  rewrite fmap_cons. cbn [first_alternative first_trimmed].
  rewrite clean_text_trimmed.
  destruct (trimmed (get d f)) as [s|] eqn:Hs; [|exact IH].
  rewrite (trimmed_nonempty _ _ Hs). reflexivity.
Qed.

Lemma truthy_opt_trimmed (v : value) : truthy_opt (trimmed v) = bool_decide (trimmed v <> None).
Proof.
  destruct (trimmed v) as [s|] eqn:Hs; cbn.
  - rewrite (trimmed_nonempty _ _ Hs). reflexivity.
  - reflexivity.
Qed.

(** [_safe_extract_drug_name] against the chain of the specification: a
    name that resolves is returned; when none resolves the method returns
    [None], or raises on a label that is not a mapping. *)
Lemma safe_extract_drug_name_spec (d : object) (q : list issue) :
  match resolve_name d with
  | Some n =>
      nonempty n = true /\ exists q', _safe_extract_drug_name d q = (Ok (Some n), q')
  | None =>
      _safe_extract_drug_name d q = (Ok None, q) \/ _safe_extract_drug_name d q = (Raise, q)
  end.
Proof.
  unfold resolve_name, name_candidates, _safe_extract_drug_name.
  cbn [first_trimmed]. rewrite clean_text_trimmed, truthy_opt_trimmed.
  destruct (trimmed (get d "drugName")) as [n|] eqn:Hn; cbn [bool_decide].
  { rewrite bool_decide_true by discriminate.
    split; [exact (trimmed_nonempty _ _ Hn)|]. exists q. reflexivity. }
  rewrite bool_decide_false by (intros Hc; apply Hc; reflexivity).
  pose proof (first_alternative_trimmed d ["name"; "productName"; "brandName"]) as Halt.
  cbn [fmap list_fmap first_trimmed] in Halt.
  destruct (first_alternative _clean_text d ["name"; "productName"; "brandName"])
    as [[alt_field alt_name]|] eqn:Hfirst; cbn [fmap option_fmap option_map snd] in Halt.
  { assert (Hne : nonempty alt_name = true)
      by exact (first_alternative_nonempty _ _ _ _ _ Hfirst).
    destruct (trimmed (get d "name")) as [s1|].
    { injection Halt as <-. split; [exact Hne|]. eexists. reflexivity. }
    destruct (trimmed (get d "productName")) as [s2|].
    { injection Halt as <-. split; [exact Hne|]. eexists. reflexivity. }
    destruct (trimmed (get d "brandName")) as [s3|]; [|discriminate].
    injection Halt as <-. split; [exact Hne|]. eexists. reflexivity. }
  destruct (trimmed (get d "name")) as [s1|]; [discriminate|].
  destruct (trimmed (get d "productName")) as [s2|]; [discriminate|].
  destruct (trimmed (get d "brandName")) as [s3|]; [discriminate|].
  unfold label_title, get_or.
  destruct (d !! "label") as [[| | | | | |label]|]; cbn [default from_option id];
    try (cbn; right; reflexivity).
  - erewrite mbind_step by reflexivity.
    rewrite clean_text_trimmed, truthy_opt_trimmed.
    destruct (trimmed (get label "title")) as [t|] eqn:Ht.
    + rewrite bool_decide_true by discriminate.
      split; [exact (trimmed_nonempty _ _ Ht)|]. eexists. reflexivity.
    + rewrite bool_decide_false by (intros Hc; apply Hc; reflexivity).
      left. reflexivity.
  - erewrite mbind_step by reflexivity.
    rewrite clean_text_trimmed, truthy_opt_trimmed.
    change (get ∅ "title") with VNone. cbn. left. reflexivity.
Qed.

Lemma safe_extract_manufacturer_nonempty (d : object) (q q' : list issue) (m : string) :
  _safe_extract_manufacturer d q = (Ok m, q') -> nonempty m = true.
Proof.
  unfold _safe_extract_manufacturer.
  destruct (_clean_text (get d "labeler")) as [m0|] eqn:Hm0.
  { intros [= <- _]. apply (clean_text_some _ _ Hm0). }
  destruct (first_alternative _clean_text d ["manufacturer"; "company"; "sponsor"])
    as [[alt_field alt]|] eqn:Hfirst.
  { intros Hrun. peel Hrun. injection Hrun as <- _.
    exact (first_alternative_nonempty _ _ _ _ _ Hfirst). }
  intros Hrun. peel Hrun.
  destruct (_clean_text a) as [labeler_name|] eqn:Hl.
  - peel Hrun. injection Hrun as <- _. apply (clean_text_some _ _ Hl).
  - peel Hrun. injection Hrun as <- _. reflexivity.
Qed.

Lemma transform_inv (raw : value) (q q' : list issue) (r : DrugRecord) :
  transform raw q = (Some r, q') ->
  exists d, raw = VDict d /\ transform_body d q = (Ok (Some r), q').
Proof.
  unfold transform. destruct raw as [| | | | | |d]; try discriminate.
  destruct (transform_body d q) as [[o|] q1] eqn:Hbody; [|discriminate].
  intros [= -> ->]. exists d. auto.
Qed.

(** C4, as amended.  A record that [transform] returns has a non-empty
    [name] and a non-empty [manufacturer].  (The transformer puts no bound
    on their lengths; the bound of 255 characters is checked by the loader,
    which skips the record.) *)
Theorem transform_identity_nonempty (raw : value) (q q' : list issue) (r : DrugRecord) :
  transform raw q = (Some r, q') ->
  name r <> "" /\ manufacturer r <> "".
Proof.
  intros Hrun. apply transform_inv in Hrun as (d & -> & Hbody).
  apply transform_body_inv in Hbody as (Hname & _ & (qa & qb & Hman) & _).
  split; apply nonempty_length; [exact Hname|].
  exact (safe_extract_manufacturer_nonempty _ _ _ _ Hman).
Qed.

(** *** No exception on a plain label *)

Lemma text_get_or (label : object) (k : string) :
  text_at label k -> exists s, get_or label k (VStr "") = VStr s.
Proof.
  unfold text_at, get_or. intros Htext.
  destruct (label !! k) as [v|]; cbn; [apply Htext; reflexivity | eauto].
Qed.

Lemma or_value_str (x : option string) (s : string) : exists t, or_value x (VStr s) = VStr t.
Proof. unfold or_value. destruct x as [u|]; [destruct (nonempty u)|]; eauto. Qed.

Lemma parse_strength_str (text : string) (q : list issue) :
  exists r, _parse_strength_from_text (VStr text) q = (Ok r, q).
Proof.
  unfold _parse_strength_from_text. destruct (negb (truthy (VStr text))); eexists; reflexivity.
Qed.

Lemma parse_route_str (text : string) (q : list issue) :
  exists r, _parse_route_from_text (VStr text) q = (Ok r, q).
Proof.
  unfold _parse_route_from_text. destruct (negb (truthy (VStr text))); eexists; reflexivity.
Qed.

Lemma extract_generic_name_ok (label : object) (q : list issue) :
  text_at label "title" -> exists g, _extract_generic_name (VDict label) q = (Ok g, q).
Proof.
  intros Htitle. unfold _extract_generic_name.
  erewrite mbind_step by reflexivity.
  destruct (truthy (get label "genericName")); [eexists; reflexivity|].
  erewrite mbind_step by reflexivity.
  destruct (text_get_or _ _ Htitle) as (t & ->).
  erewrite mbind_step by reflexivity.
  destruct (contains "generic" (lower t)); [|eexists; reflexivity].
  destruct (split "(" t) as [|p0 [|p1 ps]]; eexists; reflexivity.
Qed.

Lemma extract_brand_name_ok (drug_name : string) (label : object) (q : list issue) :
  text_at label "title" -> exists b, _extract_brand_name drug_name (VDict label) q = (Ok b, q).
Proof.
  intros Htitle. unfold _extract_brand_name.
  erewrite mbind_step by reflexivity.
  destruct (text_get_or _ _ Htitle) as (t & ->).
  destruct (truthy (VStr t)); [|eexists; reflexivity].
  erewrite mbind_step by reflexivity.
  destruct (negb _); eexists; reflexivity.
Qed.

Lemma dosage_form_alternatives_ok (label : object) (fields : list string) (q : list issue) :
  Forall (text_at label) fields ->
  exists f, dosage_form_alternatives (VDict label) fields q = (Ok f, q).
Proof.
  induction 1 as [|field rest Htext _ IH]; [eexists; reflexivity|].
  cbn [dosage_form_alternatives].
  erewrite mbind_step by reflexivity.
  destruct (text_get_or _ _ Htext) as (s & ->).
  destruct (truthy (VStr s)); [|exact IH].
  destruct (or_value_str (_clean_html_content (VStr s)) s) as (t & ->).
  erewrite mbind_step by reflexivity.
  destruct (contains "injection" (lower t)); [eexists; reflexivity|].
  destruct (contains "tablet" (lower t)); [eexists; reflexivity|].
  destruct (contains "capsule" (lower t)); [eexists; reflexivity|].
  exact IH.
Qed.

Lemma extract_dosage_form_ok (label : object) (q : list issue) :
  Forall (text_at label) ["dosageForm"; "formulation"; "productType"] ->
  exists f q', _extract_dosage_form (VDict label) q = (Ok f, q').
Proof.
  intros Htext. unfold _extract_dosage_form.
  erewrite mbind_step by reflexivity.
  match goal with |- context [match ?found with Some _ => _ | None => _ end] =>
    destruct found as [form|] end; [eexists; eexists; reflexivity|].
  destruct (dosage_form_alternatives_ok label _ q Htext) as (alt & Halt).
  erewrite mbind_step by exact Halt.
  destruct alt; eexists; eexists; reflexivity.
Qed.

Lemma strength_alternatives_ok (label : object) (fields : list string) (q : list issue) :
  Forall (text_at label) fields ->
  exists s q', strength_alternatives (VDict label) fields q = (Ok s, q').
Proof.
  induction 1 as [|field rest Htext _ IH]; [eexists; eexists; reflexivity|].
  cbn [strength_alternatives].
  erewrite mbind_step by reflexivity.
  destruct (text_get_or _ _ Htext) as (s & ->).
  destruct (truthy (VStr s)); [|exact IH].
  destruct (or_value_str (_clean_html_content (VStr s)) s) as (t & ->).
  destruct (parse_strength_str t q) as (r & Hr).
  erewrite mbind_step by exact Hr.
  destruct (truthy_opt r); [eexists; eexists; reflexivity | exact IH].
Qed.

Lemma extract_strength_ok (label : object) (q : list issue) :
  Forall (text_at label) ["strength"; "activeIngredient"; "concentration"] ->
  exists s q', _extract_strength (VDict label) q = (Ok s, q').
Proof.
  intros Htext. unfold _extract_strength.
  erewrite mbind_step by reflexivity.
  assert (Hfound : exists found,
    (if truthy (get_or label "dosageFormsAndStrengths" (VStr ""))
     then _parse_strength_from_text
            (VStr (or_str (_clean_html_content
                             (get_or label "dosageFormsAndStrengths" (VStr ""))) ""))
     else mret None) q = (Ok found, q)).
  { destruct (truthy _); [apply parse_strength_str | eexists; reflexivity]. }
  destruct Hfound as (found & Hfound).
  erewrite mbind_step by exact Hfound.
  destruct (truthy_opt found); [eexists; eexists; reflexivity|].
  destruct (strength_alternatives_ok label _ q Htext) as (alt & q1 & Halt).
  erewrite mbind_step by exact Halt.
  destruct alt; eexists; eexists; reflexivity.
Qed.

Lemma route_alternatives_ok (label : object) (fields : list string) (q : list issue) :
  Forall (text_at label) fields ->
  exists s q', route_alternatives (VDict label) fields q = (Ok s, q').
Proof.
  induction 1 as [|field rest Htext _ IH]; [eexists; eexists; reflexivity|].
  cbn [route_alternatives].
  erewrite mbind_step by reflexivity.
  destruct (text_get_or _ _ Htext) as (s & ->).
  destruct (truthy (VStr s)); [|exact IH].
  destruct (or_value_str (_clean_html_content (VStr s)) s) as (t & ->).
  destruct (parse_route_str t q) as (r & Hr).
  erewrite mbind_step by exact Hr.
  destruct (truthy_opt r); [eexists; eexists; reflexivity | exact IH].
Qed.

Lemma extract_route_ok (label : object) (q : list issue) :
  Forall (text_at label) ["route"; "administration"; "productType"] ->
  exists s q', _extract_route (VDict label) q = (Ok s, q').
Proof.
  intros Htext. unfold _extract_route.
  erewrite mbind_step by reflexivity.
  assert (Hfound : exists found,
    (if truthy (get_or label "dosageAndAdministration" (VStr ""))
     then _parse_route_from_text
            (VStr (or_str (_clean_html_content
                             (get_or label "dosageAndAdministration" (VStr ""))) ""))
     else mret None) q = (Ok found, q)).
  { destruct (truthy _); [apply parse_route_str | eexists; reflexivity]. }
  destruct Hfound as (found & Hfound).
  erewrite mbind_step by exact Hfound.
  destruct (truthy_opt found); [eexists; eexists; reflexivity|].
  destruct (route_alternatives_ok label _ q Htext) as (alt & q1 & Halt).
  erewrite mbind_step by exact Halt.
  destruct alt; eexists; eexists; reflexivity.
Qed.

Lemma extract_ndc_ok (label : object) (q : list issue) :
  exists n, _extract_ndc (VDict label) q = (Ok n, q).
Proof.
  unfold _extract_ndc. erewrite mbind_step by reflexivity.
  destruct (truthy _); eexists; reflexivity.
Qed.

Lemma extract_approval_date_ok (label : object) (q : list issue) :
  exists a, _extract_approval_date (VDict label) q = (Ok a, q).
Proof.
  unfold _extract_approval_date. erewrite mbind_step by reflexivity.
  destruct (_ && _); eexists; reflexivity.
Qed.

Lemma safe_extract_indications_ok (label : object) (q : list issue) :
  exists i q', _safe_extract_indications (VDict label) q = (Ok i, q').
Proof.
  unfold _safe_extract_indications. erewrite mbind_step by reflexivity.
  destruct (_clean_html_content _); [eexists; eexists; reflexivity|].
  destruct (first_alternative _ _ _) as [[alt_field alt]|]; eexists; eexists; reflexivity.
Qed.

Lemma safe_extract_manufacturer_ok (d : object) (label : object) (q : list issue) :
  get_or d "label" (VDict ∅) = VDict label ->
  exists m q', _safe_extract_manufacturer d q = (Ok m, q').
Proof.
  intros Hlabel. unfold _safe_extract_manufacturer.
  destruct (_clean_text (get d "labeler")); [eexists; eexists; reflexivity|].
  destruct (first_alternative _ _ _) as [[alt_field alt]|]; [eexists; eexists; reflexivity|].
  rewrite Hlabel. erewrite mbind_step by reflexivity.
  destruct (_clean_text _); eexists; eexists; reflexivity.
Qed.

Lemma plain_label_mapping (d : object) :
  plain_label d ->
  exists label, get_or d "label" (VDict ∅) = VDict label /\
                forall k, In k text_keys -> text_at label k.
Proof.
  unfold plain_label, get_or.
  destruct (d !! "label") as [[| | | | | |label]|]; cbn; try contradiction.
  - intros Htext. exists label. auto.
  - intros _. exists ∅. split; [reflexivity|].
    intros k _ v Hv. rewrite lookup_empty in Hv. discriminate.
Qed.

(** With a plain label and a name that resolves, the [try] block runs to
    its end and returns a record. *)
Lemma transform_body_ok (d : object) (q : list issue) (n : string) :
  plain_label d -> resolve_name d = Some n ->
  exists r q', transform_body d q = (Ok (Some r), q').
Proof.
  intros Hplain Hname.
  destruct (plain_label_mapping d Hplain) as (label & Hlabel & Htext).
  assert (Hkeys : forall fields, (forall k, In k fields -> In k text_keys) ->
                                 Forall (text_at label) fields).
  { intros fields Hsub. apply Forall_forall. intros k Hk. apply Htext, Hsub.
    apply list_elem_of_In. exact Hk. }
  unfold transform_body. rewrite Hlabel.
  erewrite mbind_step by reflexivity.
  set (q0 := @nil issue).
  assert (Hlog : exists q1,
    (if negb (truthy (VDict label))
     then _log_quality_issue "Missing label" "Drug has no label data"
     else mret ()) q0 = (Ok (), q1)).
  { destruct (negb _); eexists; reflexivity. }
  destruct Hlog as (q1 & Hlog). erewrite mbind_step by exact Hlog.
  pose proof (safe_extract_drug_name_spec d q1) as Hspec. rewrite Hname in Hspec.
  destruct Hspec as (Hne & q2 & Hrun). erewrite mbind_step by exact Hrun.
  cbv beta iota. rewrite Hne. cbn [negb].
  destruct (safe_extract_manufacturer_ok d label q2 Hlabel) as (m & q3 & Hm).
  erewrite mbind_step by exact Hm.
  destruct (extract_generic_name_ok label q3) as (g & Hg).
  { apply Htext. cbn. tauto. }
  erewrite mbind_step by exact Hg.
  destruct (extract_brand_name_ok n label q3) as (b & Hb).
  { apply Htext. cbn. tauto. }
  erewrite mbind_step by exact Hb.
  destruct (extract_dosage_form_ok label q3) as (f & q4 & Hf).
  { apply Hkeys. cbn. tauto. }
  erewrite mbind_step by exact Hf.
  destruct (extract_strength_ok label q4) as (s & q5 & Hs).
  { apply Hkeys. cbn. tauto. }
  erewrite mbind_step by exact Hs.
  destruct (extract_route_ok label q5) as (ro & q6 & Hro).
  { apply Hkeys. cbn. tauto. }
  erewrite mbind_step by exact Hro.
  destruct (extract_ndc_ok label q6) as (nd & Hnd).
  erewrite mbind_step by exact Hnd.
  destruct (extract_approval_date_ok label q6) as (ad & Had).
  erewrite mbind_step by exact Had.
  destruct (safe_extract_indications_ok label q6) as (i & q7 & Hi).
  erewrite mbind_step by exact Hi.
  do 6 (erewrite mbind_step by reflexivity).
  destruct (extract_sections_mapping label q7) as (Hmech & Hpk).
  erewrite mbind_step by exact Hmech.
  erewrite mbind_step by exact Hpk.
  eexists. eexists. reflexivity.
Qed.

(** *** Rejection *)

Lemma transform_unresolved (d : object) (q : list issue) :
  resolve_name d = None -> fst (transform (VDict d) q) = None.
Proof.
  intros Hname. unfold transform, transform_body.
  erewrite mbind_step by reflexivity.
  assert (Hlog : exists q1,
    (if negb (truthy (get_or d "label" (VDict ∅)))
     then _log_quality_issue "Missing label" "Drug has no label data"
     else mret ()) [] = (Ok (), q1)).
  { destruct (negb _); eexists; reflexivity. }
  destruct Hlog as (q1 & Hlog). erewrite mbind_step by exact Hlog.
  pose proof (safe_extract_drug_name_spec d q1) as Hspec. rewrite Hname in Hspec.
  destruct Hspec as [Hrun|Hrun].
  - erewrite mbind_step by exact Hrun. reflexivity.
  - erewrite mbind_raise by exact Hrun. reflexivity.
Qed.

Lemma transform_resolved (d : object) (q q' : list issue) (r : DrugRecord) :
  transform (VDict d) q = (Some r, q') -> resolve_name d = Some (name r).
Proof.
  intros Hrun. apply transform_inv in Hrun as (d' & [= <-] & Hbody).
  apply transform_body_inv in Hbody as (_ & (qa & qb & Hname) & _).
  pose proof (safe_extract_drug_name_spec d qa) as Hspec.
  destruct (resolve_name d) as [n|].
  - destruct Hspec as (_ & q1 & Hrun). congruence.
  - destruct Hspec as [Hrun|Hrun]; congruence.
Qed.

Lemma transform_plain (d : object) (q : list issue) :
  plain_label d -> (fst (transform (VDict d) q) = None <-> resolve_name d = None).
Proof.
  intros Hplain. split; [|apply transform_unresolved].
  destruct (resolve_name d) as [n|] eqn:Hname; [|reflexivity].
  destruct (transform_body_ok d q n Hplain Hname) as (r & q' & Hbody).
  unfold transform. rewrite Hbody. discriminate.
Qed.

Lemma indications_appends (label : object) (q : list issue) :
  exists i ext, _safe_extract_indications (VDict label) q = (Ok i, (q ++ ext)%list).
Proof.
  unfold _safe_extract_indications. erewrite mbind_step by reflexivity.
  destruct (_clean_html_content _).
  { eexists. exists []. rewrite app_nil_r. reflexivity. }
  destruct (first_alternative _ _ _) as [[alt_field alt]|]; eexists; eexists; reflexivity.
Qed.

(** The second scenario of the specification, run step by step. *)
Lemma transform_alt_name (q : list issue) :
  exists r q',
    transform (VDict Examples.alt_name_doc) q = (Some r, q') /\
    name r = "Alt Drug" /\
    In {| type := "Alternative name source";
          description := "Used name instead of drugName" |} q'.
Proof.
  unfold transform, transform_body.
  assert (Hlabel : get_or Examples.alt_name_doc "label" (VDict ∅) = Examples.indications_y)
    by (vm_compute; reflexivity).
  rewrite Hlabel. unfold Examples.indications_y.
  erewrite mbind_step by reflexivity.
  erewrite mbind_step by reflexivity.
  erewrite mbind_step by (vm_compute; reflexivity).
  cbv beta iota. cbn [nonempty negb].
  do 8 (erewrite mbind_step by (vm_compute; reflexivity)).
  match goal with |- context [(_safe_extract_indications (VDict ?l) ≫= _) ?q0] =>
    destruct (indications_appends l q0) as (i & ext & Hi) end.
  erewrite mbind_step by exact Hi.
  do 8 (erewrite mbind_step by (vm_compute; reflexivity)).
  eexists. eexists. split; [reflexivity|].
  split; [reflexivity|]. left. reflexivity.
Qed.

(** C8, as amended.  [transform] returns no record when the input is not a
    mapping, and when no name resolves through the chain [drugName], [name],
    [productName], [brandName], label title (each candidate trimmed, the
    empty ones skipped).  On a mapping whose label is absent or a mapping
    with strings under the keys the extractors read as text, these are the
    only rejections; a record that is returned carries the resolved name.
    (A mapping with a resolvable name is rejected as well when an extractor
    raises, as on a label that is not a mapping.)  The first scenario is
    rejected; the second gives the name ["Alt Drug"] and records the issue
    ["Alternative name source"]. *)
Theorem transform_rejection :
  (forall raw q, (forall d, raw <> VDict d) -> fst (transform raw q) = None) /\
  (forall d q, resolve_name d = None -> fst (transform (VDict d) q) = None) /\
  (forall d q, plain_label d ->
     (fst (transform (VDict d) q) = None <-> resolve_name d = None)) /\
  (forall d q r q', transform (VDict d) q = (Some r, q') -> resolve_name d = Some (name r)) /\
  (forall q, fst (transform (VDict Examples.empty_name_doc) q) = None) /\
  (forall q, exists r q',
     transform (VDict Examples.alt_name_doc) q = (Some r, q') /\
     name r = "Alt Drug" /\
     In {| type := "Alternative name source";
           description := "Used name instead of drugName" |} q').
Proof.
  split; [|split; [|split; [|split; [|split]]]].
  - intros raw q Hraw. destruct raw as [| | | | | |d]; try reflexivity.
    exfalso. exact (Hraw d eq_refl).
  - exact transform_unresolved.
  - exact transform_plain.
  - intros d q r q'. apply transform_resolved.
  - intros q. apply transform_unresolved. vm_compute. reflexivity.
  - exact transform_alt_name.
Qed.

End Rejection.

Import Examples.

(** C7.  On the text ["Injection: 120 mg/mL in a single-dose prefilled
    pen"] the first strength pattern matches
    ["120 mg"] and stops: its optional tail needs a number after the slash,
    and ["/mL"] has none.  So the strength extracted is ["120 mg"], not
    ["120 mg/mL"]; the same holds for the test document of the module,
    whose strength section is that text in a paragraph. *)
Theorem parse_strength_stops_at_slash :
  (forall q, _parse_strength_from_text (VStr Examples.strength_text) q
             = (Ok (Some "120 mg"), q)) /\
  findall (hd Eps strength_patterns) Examples.strength_text = ["120 mg"] /\
  (strength <$> fst (transform (VDict Examples.emgality_doc) [])) = Some "120 mg".
Proof.
  split; [|split].
  - intros q. vm_compute. reflexivity.
  - vm_compute. reflexivity.
  - vm_compute. reflexivity.
Qed.

(** C5, on a narrative with a heading line followed by two content lines
    and the heading of the next section: the record is produced with the
    narrative on one line and without the mechanism of action. *)
Lemma sections_never_extracted_witness :
  exists r q,
    transform (VDict Examples.pharmacology_doc) [] = (Some r, q) /\
    clinical_pharmacology r
    = Some "Mechanism of Action Binds to the receptor. Blocks its function. Pharmacodynamics None." /\
    mechanism_of_action r = None /\ pharmacokinetics r = None.
Proof.
  eexists. eexists.
  split; [vm_compute; reflexivity|].
  split; [reflexivity|].
  eapply (sections_never_extracted (VDict Examples.pharmacology_doc) []).
  vm_compute. reflexivity.
Defined.

(** C6, counterexample: eight characters that are not digits, and eight
    digits that are not a date, both give a date. *)
Lemma approval_date_counterexample :
  Examples.eight_digits "abcdefgh" = false /\
  _extract_approval_date (Examples.effective (VStr "abcdefgh")) []
  = (Ok (Some "abcd-ef-gh"), []) /\
  _extract_approval_date (Examples.effective (VStr "20211345")) []
  = (Ok (Some "2021-13-45"), []).
Proof. repeat split; vm_compute; reflexivity. Qed.

(** C6, the amended statement at the value ["20210615"]. *)
Lemma approval_date_by_length_witness :
  _extract_approval_date (Examples.effective (VStr "20210615")) []
  = (Ok (Some "2021-06-15"), []).
Proof.
  destruct (approval_date_by_length {[ "effectiveTime" := VStr "20210615" ]} [])
    as (date & Hrun & _ & _ & Hdate & _).
  rewrite (Hdate eq_refl) in Hrun. exact Hrun.
Defined.

(** C4, counterexample: a name of 256 characters passes through
    [transform] unchanged. *)
Lemma transform_length_counterexample :
  exists r q,
    transform (VDict Examples.long_name_doc) [] = (Some r, q) /\
    String.length (name r) = 256 /\
    ~ (String.length (name r) <= 255).
Proof.
  eexists. eexists. split; [vm_compute; reflexivity|].
  split; [vm_compute; reflexivity|].
  vm_compute. intros Hle. repeat (apply le_S_n in Hle). inversion Hle.
Qed.

(** C4, the amended statement on the test document of the module. *)
Lemma transform_identity_nonempty_witness :
  exists r q,
    transform (VDict Examples.emgality_doc) [] = (Some r, q) /\
    name r <> "" /\ manufacturer r <> "".
Proof.
  eexists. eexists. split; [vm_compute; reflexivity|].
  eapply (transform_identity_nonempty (VDict Examples.emgality_doc) []).
  vm_compute. reflexivity.
Defined.

(** C8, counterexample: a mapping whose name resolves through the chain,
    rejected because its label is a string. *)
Lemma transform_rejection_counterexample :
  resolve_name Examples.text_label_doc = Some "Emgality" /\
  fst (transform (VDict Examples.text_label_doc) []) = None.
Proof. split; vm_compute; reflexivity. Qed.

Lemma emgality_plain : plain_label Examples.emgality_doc.
Proof.
  unfold plain_label.
  assert (Hl : Examples.emgality_doc !! "label"
               = Some (default VNone (Examples.emgality_doc !! "label")))
    by (vm_compute; reflexivity).
  rewrite Hl. vm_compute default.
  intros k Hk v Hv. cbn in Hk.
  repeat (destruct Hk as [<-|Hk]; [vm_compute in Hv; first [discriminate | injection Hv as <-; eauto]|]).
  contradiction.
Qed.

(** C8, the amended statement on the test document of the module: its
    label is plain and its name resolves, so it is not rejected. *)
Lemma transform_rejection_witness :
  plain_label Examples.emgality_doc /\
  resolve_name Examples.emgality_doc = Some "Emgality" /\
  fst (transform (VDict Examples.emgality_doc) []) <> None.
Proof.
  split; [exact emgality_plain|].
  split; [vm_compute; reflexivity|].
  intros Hnone.
  destruct transform_rejection as (_ & _ & Hplain & _).
  apply (Hplain Examples.emgality_doc [] emgality_plain) in Hnone.
  vm_compute in Hnone. discriminate.
Defined.

End TransformerFacts.

(* ================================================================== *)
(** ** The batch loader *)
(* ================================================================== *)

Module SeederFacts.
Import Json Exc PyStr Seeder.
Import Transformer (DrugRecord).

(** Running a bind of the seeder monad. *)
Lemma bind_inv {A B} (c : St A) (k : A -> St B) (st st' : seeder) (res : result B) :
  (c ≫= k) st = (res, st') ->
  (exists a st1, c st = (Ok a, st1) /\ k a st1 = (res, st')) \/
  (res = Raise /\ c st = (Raise, st')).
Proof.
  unfold mbind, St_bind, bind.
  destruct (c st) as [[a|] st1].
  - intros Hk. left. exists a, st1. auto.
  - intros [= <- <-]. right. auto.
Qed.

Lemma bind_step {A B} (c : St A) (k : A -> St B) (st st1 : seeder) (a : A) :
  c st = (Ok a, st1) -> (c ≫= k) st = k a st1.
Proof. unfold mbind, St_bind, bind. intros ->. reflexivity. Qed.

Lemma bind_raise {A B} (c : St A) (k : A -> St B) (st st1 : seeder) :
  c st = (Raise, st1) -> (c ≫= k) st = (Raise, st1).
Proof. unfold mbind, St_bind, bind. intros ->. reflexivity. Qed.

Lemma quiet_ret {A} (a : A) : quiet (mret a : St A).
Proof. intros st res st' [= <- <-]. auto. Qed.

Lemma quiet_bind {A B} (c : St A) (k : A -> St B) :
  quiet c -> (forall a, quiet (k a)) -> quiet (c ≫= k).
Proof.
  intros Hc Hk st res st' Hrun.
  apply bind_inv in Hrun as [(a & st1 & Hc1 & Hk1)|(_ & Hc1)].
  - destruct (Hc _ _ _ Hc1) as [Hs1 Hn1], (Hk a _ _ _ Hk1) as [Hs2 Hn2].
    split; [congruence | auto].
  - exact (Hc _ _ _ Hc1).
Qed.

(** Split the conjunctions of a goal about counters and close the parts. *)
Ltac conjs :=
  repeat match goal with |- _ /\ _ => split end;
  auto; try lia; try (f_equal; lia); try (do 2 f_equal; lia).

Section Counters.
Context `{World}.

Lemma quiet_take_tick : quiet take_tick.
Proof. intros st res st' [= <- <-]. auto. Qed.

Lemma quiet_new_uuid : quiet new_uuid.
Proof. apply quiet_bind; [apply quiet_take_tick | intros; apply quiet_ret]. Qed.

Lemma quiet_now : quiet now.
Proof. apply quiet_bind; [apply quiet_take_tick | intros; apply quiet_ret]. Qed.

Lemma quiet_execute (stmt : statement) : quiet (execute stmt).
Proof.
  intros st res st'. unfold execute.
  destruct (conn st) as [c|] eqn:Hc.
  - destruct (aborted c); [intros [= <- <-]; cbn; rewrite Hc; auto|].
    destruct (execute_raises _ _ _).
    + destruct (aborts_transaction _ _ _); intros [= <- <-]; cbn; rewrite ?Hc;
        (split; [reflexivity | intros _; eexists; reflexivity]).
    + destruct (run_statement _ stmt (pending c)) as [db row].
      intros [= <- <-]. cbn. split; [reflexivity | intros _; eexists; reflexivity].
  - intros [= <- <-]. split; [reflexivity | intros [x Hx]; discriminate].
Qed.

Lemma quiet_on_connection (c : connection_call) : quiet (on_connection c).
Proof.
  intros st res st'. unfold on_connection.
  destruct (conn st) as [cn|] eqn:Hc.
  - destruct (connection_raises _ _); intros [= <- <-]; cbn; rewrite ?Hc;
      (split; [reflexivity | intros _; eexists; reflexivity]).
  - intros [= <- <-]. split; [reflexivity | intros [x Hx]; discriminate].
Qed.

Lemma quiet_find_existing_drug (record : DrugRecord) : quiet (_find_existing_drug record).
Proof.
  unfold _find_existing_drug. apply quiet_bind.
  - destruct (truthy _); [apply quiet_execute | apply quiet_ret].
  - intros [drug_id|]; [apply quiet_ret | apply quiet_execute].
Qed.

Lemma quiet_insert_drug (record : DrugRecord) : quiet (_insert_drug record).
Proof.
  unfold _insert_drug.
  repeat (apply quiet_bind; [first [apply quiet_new_uuid | apply quiet_now | apply quiet_execute]|intros]).
  apply quiet_ret.
Qed.

Lemma quiet_insert_drug_label (drug_id : string) (record : DrugRecord) :
  quiet (_insert_drug_label drug_id record).
Proof.
  unfold _insert_drug_label.
  repeat (apply quiet_bind; [first [apply quiet_new_uuid | apply quiet_now | apply quiet_execute]|intros]).
  apply quiet_ret.
Qed.

Lemma quiet_update_drug (drug_id : string) (record : DrugRecord) :
  quiet (_update_drug drug_id record).
Proof.
  unfold _update_drug.
  repeat (apply quiet_bind; [first [apply quiet_now | apply quiet_execute]|intros]).
  match goal with |- quiet (match ?x with _ => _ end) => destruct x end.
  - repeat (apply quiet_bind; [first [apply quiet_now | apply quiet_execute]|intros]).
    apply quiet_ret.
  - apply quiet_insert_drug_label.
Qed.

(** The [try] block of [_process_single_drug]: when it ends well one of
    [inserted], [updated], [skipped] has grown by one; when it raises none
    has.  [processed] and [errors] are not touched. *)
Lemma process_single_drug_body_counts (record : DrugRecord) (st st' : seeder) (res : result unit) :
  process_single_drug_body record st = (res, st') ->
  processed (stats st') = processed (stats st) /\
  errors (stats st') = errors (stats st) /\
  (is_Some (conn st) -> is_Some (conn st')) /\
  match res with
  | Ok _ => handled (stats st') = handled (stats st) + 1
  | Raise => inserted (stats st') = inserted (stats st) /\
             updated (stats st') = updated (stats st) /\
             skipped (stats st') = skipped (stats st)
  end.
Proof.
  unfold process_single_drug_body, handled.
  destruct (negb (_validate_record record)).
  { intros [= <- <-]. cbn. conjs. }
  intros Hrun.
  apply bind_inv in Hrun as [(existing & st1 & Hfind & Hrun)|(-> & Hfind)].
  2:{ destruct (quiet_find_existing_drug _ _ _ _ Hfind) as [-> Hc]. conjs. }
  destruct (quiet_find_existing_drug _ _ _ _ Hfind) as [Hs1 Hc1].
  destruct (Transformer.truthy_opt existing).
  - apply bind_inv in Hrun as [(u & st2 & Hupd & Hrun)|(-> & Hupd)].
    + destruct (quiet_update_drug _ _ _ _ _ Hupd) as [Hs2 Hc2].
      injection Hrun as <- <-. cbn. rewrite Hs2, Hs1. cbn. conjs.
    + destruct (quiet_update_drug _ _ _ _ _ Hupd) as [Hs2 Hc2].
      rewrite Hs2, Hs1. conjs.
  - apply bind_inv in Hrun as [(drug_id & st2 & Hins & Hrun)|(-> & Hins)].
    2:{ destruct (quiet_insert_drug _ _ _ _ Hins) as [Hs2 Hc2].
        rewrite Hs2, Hs1. conjs. }
    destruct (quiet_insert_drug _ _ _ _ Hins) as [Hs2 Hc2].
    apply bind_inv in Hrun as [(u & st3 & Hlab & Hrun)|(-> & Hlab)].
    + destruct (quiet_insert_drug_label _ _ _ _ _ Hlab) as [Hs3 Hc3].
      injection Hrun as <- <-. cbn. rewrite Hs3, Hs2, Hs1. cbn. conjs.
    + destruct (quiet_insert_drug_label _ _ _ _ _ Hlab) as [Hs3 Hc3].
      rewrite Hs3, Hs2, Hs1. conjs.
Qed.

(** [_process_single_drug]: a failure has been counted once in [errors]
    when the exception leaves the method. *)
Lemma process_single_drug_counts (record : DrugRecord) (st st' : seeder) (res : result unit) :
  _process_single_drug record st = (res, st') ->
  processed (stats st') = processed (stats st) /\
  (is_Some (conn st) -> is_Some (conn st')) /\
  match res with
  | Ok _ => errors (stats st') = errors (stats st) /\
            handled (stats st') = handled (stats st) + 1
  | Raise => errors (stats st') = errors (stats st) + 1 /\
             handled (stats st') = handled (stats st)
  end.
Proof.
  unfold _process_single_drug, try, mbind, St_bind, bind.
  destruct (process_single_drug_body record st) as [r st1] eqn:Hbody.
  apply process_single_drug_body_counts in Hbody as (Hp & He & Hc & Hres).
  destruct r as [u|].
  - intros [= <- <-]. auto.
  - cbn. intros [= <- <-]. cbn. unfold handled.
    destruct Hres as (-> & -> & ->). rewrite Hp, He. auto.
Qed.

(** The loop of [seed_drugs_batch] never raises and attempts every
    record: with [k] the number of records that went through, [processed]
    and the sum of [inserted], [updated], [skipped] have grown by [k], and
    [errors] by two for each of the other records: once in
    [_process_single_drug], once more in the handler of the loop. *)
Lemma process_records_counts (drug_records : list DrugRecord) (n : nat) (st st' : seeder)
    (res : result nat) :
  process_records drug_records n st = (res, st') ->
  exists k,
    res = Ok (n + k) /\ k <= length drug_records /\
    processed (stats st') = processed (stats st) + k /\
    handled (stats st') = handled (stats st) + k /\
    errors (stats st') = errors (stats st) + 2 * (length drug_records - k) /\
    (is_Some (conn st) -> is_Some (conn st')).
Proof.
  revert n st. induction drug_records as [|record rest IH]; intros n st.
  { intros [= <- <-]. exists 0. cbn. repeat split; auto; f_equal; lia. }
  cbn [process_records]. unfold try at 1, mbind at 1, St_bind at 1, bind at 1.
  destruct (_process_single_drug record st) as [r st1] eqn:Hone.
  apply process_single_drug_counts in Hone as (Hp & Hc & Hres).
  destruct r as [u|].
  - unfold mbind at 1, St_bind at 1, bind at 1, count at 1.
    intros Hrest. apply IH in Hrest as (k & -> & Hk & Hp' & Hh' & He' & Hc').
    destruct Hres as (He & Hh). cbn in *.
    exists (S k). repeat split; auto; try (f_equal; lia); try lia.
    unfold handled in *. cbn in *. lia.
  - unfold mbind at 1, St_bind at 1, bind at 1, count at 1.
    intros Hrest. apply IH in Hrest as (k & -> & Hk & Hp' & Hh' & He' & Hc').
    destruct Hres as (He & Hh). cbn in *.
    exists k. repeat split; auto; try lia.
    unfold handled in *. cbn in *. lia.
Qed.

Lemma seed_drugs_batch_body_counts (drug_records : list DrugRecord) (st st' : seeder)
    (res : result bool) :
  seed_drugs_batch_body drug_records st = (res, st') ->
  exists k e,
    processed (stats st') = processed (stats st) + k /\
    handled (stats st') = handled (stats st) + k /\
    errors (stats st') = errors (stats st) + 2 * e /\
    (is_Some (conn st) -> is_Some (conn st')).
Proof.
  unfold seed_drugs_batch_body. intros Hrun.
  apply bind_inv in Hrun as [(u & st1 & Hopen & Hrun)|(-> & Hopen)].
  2:{ destruct (quiet_on_connection _ _ _ _ Hopen) as [-> Hc]. exists 0, 0. conjs. }
  destruct (quiet_on_connection _ _ _ _ Hopen) as [Hs1 Hc1].
  apply bind_inv in Hrun as [(n & st2 & Hloop & Hrun)|(-> & Hloop)].
  2:{ apply process_records_counts in Hloop as (k & Hk & _). discriminate. }
  apply process_records_counts in Hloop as (k & _ & _ & Hp & Hh & He & Hc2).
  rewrite Hs1 in Hp, Hh, He.
  assert (Hend : stats st' = stats st2 /\ (is_Some (conn st2) -> is_Some (conn st'))).
  { destruct (0 <? n)%nat;
      (apply bind_inv in Hrun as [(u' & st3 & Hcall & Hrun)|(-> & Hcall)];
       [injection Hrun as <- <-|]; exact (quiet_on_connection _ _ _ _ Hcall)). }
  destruct Hend as [-> Hc3].
  exists k, (length drug_records - k). conjs.
Qed.

(** [seed_drugs_batch] adds the same number to [processed] and to the sum
    of [inserted], [updated] and [skipped], whatever fails. *)
Lemma seed_drugs_batch_counts (drug_records : list DrugRecord) (st st' : seeder)
    (res : result bool) :
  seed_drugs_batch drug_records st = (res, st') ->
  exists k e,
    processed (stats st') = processed (stats st) + k /\
    handled (stats st') = handled (stats st) + k /\
    errors (stats st') = errors (stats st) + 2 * e.
Proof.
  unfold seed_drugs_batch.
  destruct drug_records as [|record rest].
  { intros [= <- <-]. exists 0, 0. conjs. }
  destruct (conn st) as [c|].
  2:{ intros [= <- <-]. exists 0, 0. conjs. }
  unfold try, mbind at 1, St_bind at 1, bind at 1.
  destruct (seed_drugs_batch_body (record :: rest) st) as [r st1] eqn:Hbody.
  apply seed_drugs_batch_body_counts in Hbody as (k & e & Hp & Hh & He & _).
  destruct r as [b|].
  - intros [= <- <-]. exists k, e. conjs.
  - intros Hrun.
    assert (Hs : stats st' = stats st1).
    { apply bind_inv in Hrun as [(u & st2 & Hcall & Hrun)|(-> & Hcall)];
        [injection Hrun as <- <-|]; exact (proj1 (quiet_on_connection _ _ _ _ Hcall)). }
    rewrite Hs. exists k, e. conjs.
Qed.

Lemma session_snoc (calls : list call) (c : call) :
  session (calls ++ [c]) = run_call c (session calls).
Proof. unfold session. rewrite foldl_app. reflexivity. Qed.

Lemma session_invariant (calls : list call) :
  processed (stats (session calls)) = handled (stats (session calls)).
Proof.
  induction calls as [|c calls IH] using rev_ind; [reflexivity|].
  rewrite session_snoc. destruct c as [db|drug_records|]; cbn [run_call].
  - exact IH.
  - destruct (seed_drugs_batch drug_records (session calls)) as [res st'] eqn:Hrun.
    apply seed_drugs_batch_counts in Hrun as (k & e & Hp & Hh & _).
    cbn [snd]. lia.
  - reflexivity.
Qed.

(** A record that fails validation is skipped, and the method returns. *)
Lemma process_invalid (record : DrugRecord) (st : seeder) :
  _validate_record record = false ->
  _process_single_drug record st = (Ok (), with_stats add_skipped st).
Proof.
  intros Hinvalid.
  unfold _process_single_drug, try, process_single_drug_body, mbind, St_bind, bind.
  rewrite Hinvalid. reflexivity.
Qed.

Lemma process_records_invalid (drug_records : list DrugRecord) (n : nat) (st : seeder) :
  Forall (fun record => _validate_record record = false) drug_records ->
  exists st',
    process_records drug_records n st = (Ok (n + length drug_records), st') /\
    conn st' = conn st /\
    skipped (stats st') = skipped (stats st) + length drug_records /\
    processed (stats st') = processed (stats st) + length drug_records /\
    errors (stats st') = errors (stats st) /\
    inserted (stats st') = inserted (stats st) /\
    updated (stats st') = updated (stats st).
Proof.
  intros Hall. revert n st.
  induction Hall as [|record rest Hinvalid _ IH]; intros n st.
  { exists st. cbn [process_records length]. rewrite !Nat.add_0_r.
    unfold mret, St_ret, ret. conjs. }
  cbn [process_records]. unfold try at 1, mbind at 1, St_bind at 1, bind at 1.
  rewrite (process_invalid _ _ Hinvalid).
  unfold mbind at 1, St_bind at 1, bind at 1, count at 1.
  destruct (IH (n + 1) (with_stats add_processed (with_stats add_skipped st)))
    as (st' & Hrun & Hc & Hs & Hp & He & Hi & Hu).
  exists st'. rewrite Hrun. cbn in *. conjs.
Qed.

(** C10.  After any sequence of calls on a freshly constructed seeder
    ([connect], [seed_drugs_batch] on any batch, [reset_stats]), whatever
    the storage does, [processed] equals [inserted + updated + skipped]; a
    record skipped by validation counts as processed and as successful, so
    a non-empty batch of invalid records only is committed and reported as
    a success (on a connection whose calls do not fail), with every record
    counted in [skipped] and in [processed]. *)
Theorem counters_invariant :
  (forall calls : list call,
     let s := get_stats (session calls) in
     processed s = inserted s + updated s + skipped s) /\
  (forall (drug_records : list DrugRecord) (st : seeder) (c : connection),
     conn st = Some c ->
     drug_records <> [] ->
     Forall (fun record => _validate_record record = false) drug_records ->
     (forall t call, connection_raises t call = false) ->
     exists st',
       seed_drugs_batch drug_records st = (Ok true, st') /\
       conn st' = Some {| committed := pending c; pending := pending c; aborted := false |} /\
       skipped (stats st') = skipped (stats st) + length drug_records /\
       processed (stats st') = processed (stats st) + length drug_records /\
       errors (stats st') = errors (stats st)).
Proof.
  split.
  { intros calls. cbn. unfold get_stats. apply session_invariant. }
  intros drug_records st c Hconn Hne Hall Hcalls.
  unfold seed_drugs_batch. destruct drug_records as [|record rest]; [congruence|].
  rewrite Hconn.
  unfold try, mbind at 1, St_bind at 1, bind at 1, seed_drugs_batch_body.
  unfold mbind at 1, St_bind at 1, bind at 1, on_connection at 1.
  rewrite Hconn, Hcalls. cbn [apply_call].
  unfold mbind at 1, St_bind at 1, bind at 1.
  match goal with |- context [process_records _ 0 ?s] =>
    destruct (process_records_invalid (record :: rest) 0 s Hall)
      as (st1 & Hrun & Hc & Hs & Hp & He & _) end.
  rewrite Hrun. cbn [length Nat.add Nat.ltb Nat.leb].
  unfold mbind at 1, St_bind at 1, bind at 1, on_connection at 1.
  rewrite Hc. cbn [conn with_conn with_tick]. rewrite Hcalls.
  eexists. split; [reflexivity|]. cbn in *. conjs.
Qed.


End Counters.

(** *** Loading a batch twice *)

#[local] Open Scope list_scope.

(** A connected seeder: what is committed, what the transaction sees, the
    counters, the tick. *)
Abbreviation at_ cm db s t :=
  {| conn := Some {| committed := cm; pending := db; aborted := false |}; stats := s; tick := t |}.

(** *** The row a query returns *)

Lemma in_fmap {A B} (f : A -> B) (l : list A) (y : B) :
  In y (f <$> l) <-> exists x, In x l /\ f x = y.
Proof.
  rewrite <- list_elem_of_In, list_elem_of_fmap. split.
  - intros (x & -> & Hx). exists x. rewrite <- list_elem_of_In. auto.
  - intros (x & Hx & <-). exists x. rewrite list_elem_of_In. auto.
Qed.

(** Whatever the server chooses, the row returned is one of the rows that
    match, and a row is returned when one matches. *)
Lemma limit_1_in `{World} (t : nat) (rows : list string) (row : string) :
  limit_1 t rows = Some row -> In row rows.
Proof.
  unfold limit_1. destruct rows as [|r0 [|r1 rest]]; [discriminate| |].
  - intros [= <-]. left. reflexivity.
  - intros Hrow. apply list_elem_of_In. exact (list_elem_of_lookup_2 _ _ _ Hrow).
Qed.

Lemma limit_1_none `{World} (t : nat) (rows : list string) :
  limit_1 t rows = None <-> rows = [].
Proof.
  unfold limit_1. destruct rows as [|r0 [|r1 rest]]; split; try discriminate; try reflexivity.
  intros Hnone. apply lookup_ge_None in Hnone.
  pose proof (Nat.mod_upper_bound (row_choice t) (length (r0 :: r1 :: rest))) as Hlt.
  cbn [length] in *. lia.
Qed.

(** *** What an update keeps *)

Lemma update_drug_row_id (drug_id : string) (record : DrugRecord) (now : timestamp)
    (d : Drugs.row) :
  Drugs.id (update_drug_row drug_id record now d) = Drugs.id d.
Proof. unfold update_drug_row. destruct (String.eqb _ _); reflexivity. Qed.

Lemma update_label_row_ids (drug_id : string) (record : DrugRecord) (now : timestamp)
    (dl : DrugLabels.row) :
  DrugLabels.id (update_label_row drug_id record now dl) = DrugLabels.id dl /\
  DrugLabels.drug_id (update_label_row drug_id record now dl) = DrugLabels.drug_id dl.
Proof. unfold update_label_row. destruct (String.eqb _ _); split; reflexivity. Qed.

Lemma updated_drug_ids (drug_id : string) (record : DrugRecord) (now : timestamp)
    (rows : list Drugs.row) :
  Drugs.id <$> (update_drug_row drug_id record now <$> rows) = Drugs.id <$> rows.
Proof.
  rewrite <- list_fmap_compose. apply list_fmap_ext.
  intros i d _. apply update_drug_row_id.
Qed.

Section NoIncident.
Context `{World}.
Hypothesis no_incident : reliable.

Lemma execute_at (stmt : statement) (cm db : database) (s : Stats) (t : nat) :
  execute stmt (at_ cm db s t)
  = (Ok (snd (run_statement t stmt db)), at_ cm (fst (run_statement t stmt db)) s (S t)).
Proof.
  unfold execute. cbn. rewrite (proj1 no_incident).
  destruct (run_statement t stmt db) as [db' row]. reflexivity.
Qed.

Lemma on_connection_at (call : connection_call) (cm db : database) (s : Stats) (t : nat) :
  on_connection call (at_ cm db s t)
  = (Ok (), {| conn := Some (apply_call call {| committed := cm; pending := db; aborted := false |});
               stats := s; tick := S t |}).
Proof. unfold on_connection. cbn. rewrite (proj2 no_incident). reflexivity. Qed.

(** Unfold the plumbing of the monad, leaving the calls to [execute]. *)
Ltac run :=
  unfold new_uuid, now, take_tick, count;
  unfold mbind, St_bind, bind, mret, St_ret, ret, with_tick, with_conn, with_stats;
  cbn [conn stats tick fst snd].

Lemma find_existing_drug_at (record : DrugRecord) (cm db : database) (s : Stats) (t : nat) :
  exists t', t <= t' /\
    _find_existing_drug record (at_ cm db s t)
    = (Ok (find_existing t db record), at_ cm db s t').
Proof.
  unfold _find_existing_drug, find_existing. run.
  destruct (truthy (Transformer.set_id record)).
  - rewrite execute_at. cbn [run_statement fst snd].
    destruct (select_drug_by_set_id t db (Transformer.set_id record)).
    + exists (S t). split; [lia | reflexivity].
    + rewrite execute_at. cbn [run_statement fst snd].
      exists (S (S t)). split; [lia | reflexivity].
  - rewrite execute_at. cbn [run_statement fst snd].
    exists (S t). split; [lia | reflexivity].
Qed.

Lemma insert_drug_at (record : DrugRecord) (cm db : database) (s : Stats) (t : nat) :
  _insert_drug record (at_ cm db s t)
  = (Ok (uuid4 t),
     at_ cm {| drugs := drugs db ++ [drug_values (uuid4 t) record (utcnow (S t)) (utcnow (S (S t)))];
               drug_labels := drug_labels db |} s (4 + t)).
Proof. unfold _insert_drug. run. rewrite execute_at. reflexivity. Qed.

Lemma insert_drug_label_at (drug_id : string) (record : DrugRecord) (cm db : database)
    (s : Stats) (t : nat) :
  _insert_drug_label drug_id record (at_ cm db s t)
  = (Ok (),
     at_ cm {| drugs := drugs db;
               drug_labels := drug_labels db ++
                 [label_values (uuid4 t) drug_id record (utcnow (S t)) (utcnow (S (S t)))] |}
        s (4 + t)).
Proof. unfold _insert_drug_label. run. rewrite execute_at. reflexivity. Qed.

Lemma update_drug_at (drug_id : string) (record : DrugRecord) (cm db : database)
    (s : Stats) (t : nat) :
  exists t' labels',
    t <= t' /\
    _update_drug drug_id record (at_ cm db s t)
    = (Ok (), at_ cm {| drugs := update_drug_row drug_id record (utcnow t) <$> drugs db;
                        drug_labels := labels' |} s t') /\
    labels_updated drug_id record t t' db labels'.
Proof.
  unfold _update_drug. run. rewrite execute_at. cbn [run_statement fst snd].
  rewrite execute_at. cbn [run_statement fst snd].
  unfold select_label_by_drug at 1, labels_of_drug at 1. cbn [drug_labels].
  fold (labels_of_drug db drug_id).
  destruct (limit_1 (S (S t)) (labels_of_drug db drug_id)) as [label_id|] eqn:Hlabel.
  - cbv beta. cbn [conn stats tick]. rewrite execute_at.
    cbn [run_statement fst snd drugs drug_labels].
    eexists. eexists. split; [|split; [reflexivity|]]; [lia|].
    left. split; [|eexists; reflexivity].
    intros Hnone. rewrite Hnone in Hlabel. discriminate.
  - apply limit_1_none in Hlabel.
    pose proof (insert_drug_label_at drug_id record cm
      {| drugs := update_drug_row drug_id record (utcnow t) <$> drugs db;
         drug_labels := drug_labels db |} s (S (S (S t)))) as Hins.
    cbn [drugs drug_labels] in Hins. rewrite Hins.
    eexists. eexists. split; [|split; [reflexivity|]]; [lia|].
    right. split; [exact Hlabel|]. eexists. eexists. eexists.
    split; [|reflexivity]. lia.
Qed.

Lemma process_single_drug_at (record : DrugRecord) (cm db : database) (s : Stats) (t : nat) :
  exists db' s' t',
    _process_single_drug record (at_ cm db s t) = (Ok (), at_ cm db' s' t') /\
    step record t t' db db' s s'.
Proof.
  unfold _process_single_drug, try, process_single_drug_body.
  destruct (_validate_record record) eqn:Hvalid; cbn [negb].
  2:{ exists db, (add_skipped s), t. split; [reflexivity|].
      apply step_skip; auto. }
  destruct (find_existing_drug_at record cm db s t) as (t1 & Ht1 & Hfind).
  pose proof (insert_drug_label_at (uuid4 t1) record cm
    {| drugs := drugs db ++ [drug_values (uuid4 t1) record (utcnow (S t1)) (utcnow (S (S t1)))];
       drug_labels := drug_labels db |} s (4 + t1)) as Hins.
  cbn [drugs drug_labels] in Hins.
  run. cbv beta. rewrite Hfind. cbv beta iota.
  destruct (find_existing t db record) as [drug_id|] eqn:Hexisting; cbn [Transformer.truthy_opt].
  - destruct (nonempty drug_id) eqn:Hid.
    + destruct (update_drug_at drug_id record cm db s t1) as (t2 & labels' & Ht2 & Hupd & Hlabels).
      cbn [default from_option id]. rewrite Hupd. cbn [conn stats tick].
      eexists. eexists. eexists. split; [reflexivity|].
      eapply step_update; eauto; try lia.
      destruct Hlabels as [(Hsome & now' & ->)|(Hnone & tl & c & u & Htl & ->)].
      * left. split; [exact Hsome|]. eexists. reflexivity.
      * right. split; [exact Hnone|]. exists tl, c, u. split; [lia | reflexivity].
    + rewrite insert_drug_at. cbv beta iota. rewrite Hins. cbn [conn stats tick].
      eexists. eexists. eexists. split; [reflexivity|].
      eapply (step_insert _ _ _ _ _ _ _ t1 (4 + t1)); eauto; cbn; try lia.
      rewrite Hexisting. cbn. rewrite Hid. reflexivity.
  - rewrite insert_drug_at. cbv beta iota. rewrite Hins. cbn [conn stats tick].
    eexists. eexists. eexists. split; [reflexivity|].
    eapply (step_insert _ _ _ _ _ _ _ t1 (4 + t1)); eauto; cbn; try lia.
    rewrite Hexisting. reflexivity.
Qed.

End NoIncident.

Import Examples.

(** C10, on a batch of two records that fail validation, sent through a
    connection to an empty store. *)
Lemma counters_invariant_witness :
  exists st',
    seed_drugs_batch all_invalid connected = (Ok true, st') /\
    conn st' = Some {| committed := empty_db; pending := empty_db; aborted := false |} /\
    skipped (stats st') = 2 /\ processed (stats st') = 2 /\ errors (stats st') = 0.
Proof.
  destruct counters_invariant as [_ Hbatch].
  destruct (Hbatch all_invalid connected
              {| committed := empty_db; pending := empty_db; aborted := false |})
    as (st' & Hrun & Hc & Hs & Hp & He).
  - reflexivity.
  - discriminate.
  - repeat (constructor; [vm_compute; reflexivity|]). constructor.
  - intros t c. reflexivity.
  - exists st'. auto.
Defined.

(** C1.  A batch of three valid records into an empty store, where the
    insert of the second raises.
    - When the error leaves the transaction usable (psycopg2 cannot adapt
      the slug of the record): the batch is committed and reported as a
      success, the first and the third record are stored, [processed] is
      2 - and [errors] is 2, not 1: the failure is counted in
      [_process_single_drug] and again in the loop of [seed_drugs_batch].
    - When the insert violates a unique constraint: the server aborts the
      transaction, so the third record fails as well, at its first
      statement; [errors] is 4 and [processed] is 1, the batch is still
      reported as a success, and the commit stores nothing, not even the
      first record, which [inserted] counts. *)
Theorem one_failing_record_counted_twice :
  (exists st' c',
     seed_drugs_batch one_unadaptable connected = (Ok true, st') /\
     conn st' = Some c' /\
     Drugs.drug_name <$> drugs (committed c') = ["Aspirin"; "Naproxen"] /\
     processed (stats st') = 2 /\
     inserted (stats st') = 2 /\
     errors (stats st') = 2) /\
  (exists st' c',
     seed_drugs_batch one_failing connected = (Ok true, st') /\
     conn st' = Some c' /\
     committed c' = empty_db /\
     processed (stats st') = 1 /\
     inserted (stats st') = 1 /\
     errors (stats st') = 4).
Proof. split; eexists; eexists; vm_compute; conjs. Qed.

(** C3.  A batch of three valid records that all violate the constraint:
    the transaction is rolled back and the batch reported as failed, nothing
    is stored, and [errors] is 6, not 3, each failure being counted twice. *)
Theorem all_failing_batch_counted_twice :
  exists st',
    seed_drugs_batch all_failing connected = (Ok false, st') /\
    conn st' = Some {| committed := empty_db; pending := empty_db; aborted := false |} /\
    processed (stats st') = 0 /\
    errors (stats st') = 6.
Proof. eexists. vm_compute. conjs. Qed.

(** The query of the lookup by [set_id] does not read [drugs.set_id]:
    rewriting the rows of [drugs] in a way that keeps their [id] does not
    change the rows it matches. *)
Lemma drugs_by_set_id_blind (db : database) (v : value) (f : Drugs.row -> Drugs.row) :
  (forall d, Drugs.id (f d) = Drugs.id d) ->
  drugs_by_set_id {| drugs := f <$> drugs db; drug_labels := drug_labels db |} v
  = drugs_by_set_id db v.
Proof.
  intros Hid. unfold drugs_by_set_id, has_label_with_id. cbn [drugs drug_labels].
  induction (drugs db) as [|d rows IH]; [reflexivity|].
  rewrite fmap_cons. cbn [List.filter]. rewrite Hid.
  destruct (existsb _ (drug_labels db)); rewrite ?fmap_cons, ?Hid, IH; reflexivity.
Qed.

(** C2.  Two records with one [set_id] and two names, loaded twice into an
    empty store on a server where nothing fails, whichever row the server
    returns of several.  The lookup by [set_id] compares the [set_id] with
    [drug_labels.id], which [_insert_drug_label] draws from [uuid4], and
    never reads [drugs.set_id], where [_insert_drug] stores it.  So in
    the first pass the second record does not find the drug stored for
    the first, and is inserted: two rows of [drugs] carry the one
    [set_id].  In the second pass the query by [set_id] again matches no
    row, for either record; each record is found by its name, which one
    row matches, and updated.  The number of rows is the same after both
    passes, and it is 2 where a match on [set_id] leaves 1.  In general,
    the rows the query by [set_id] matches do not depend on what
    [drugs.set_id] holds. *)
Theorem lookup_by_set_id_finds_nothing :
  (forall choice : nat -> nat,
     let server := reliable_world_choosing choice in
     let once := seeded_choosing choice same_set_id_batch connected in
     let twice := seeded_choosing choice same_set_id_batch once in
     Drugs.set_id <$> drugs (tables once) = [VStr "33a147be"; VStr "33a147be"] /\
     Drugs.drug_name <$> drugs (tables once) = ["Emgality"; "Emgality Pen"] /\
     drugs_by_set_id (tables once) (VStr "33a147be") = [] /\
     length (@drugs_by_name server (tables once) "Emgality" "Eli Lilly and Company") = 1 /\
     length (@drugs_by_name server (tables once) "Emgality Pen" "Eli Lilly and Company") = 1 /\
     stored_rows once = Some (2, 2) /\
     inserted (stats once) = 2 /\ updated (stats once) = 0 /\
     Drugs.set_id <$> drugs (tables twice) = [VStr "33a147be"; VStr "33a147be"] /\
     drugs_by_set_id (tables twice) (VStr "33a147be") = [] /\
     stored_rows twice = Some (2, 2) /\
     inserted (stats twice) = 2 /\ updated (stats twice) = 2 /\
     errors (stats twice) = 0) /\
  (forall (db : database) (v : value) (f : Drugs.row -> Drugs.row),
     (forall d, Drugs.id (f d) = Drugs.id d) ->
     drugs_by_set_id {| drugs := f <$> drugs db; drug_labels := drug_labels db |} v
     = drugs_by_set_id db v).
Proof.
  split; [|exact drugs_by_set_id_blind].
  intros choice. vm_compute. conjs.
Qed.

(** C2, the general part on the store the batch leaves: giving every row
    of [drugs] another [set_id], as the [SET] clause of the update does,
    changes nothing for the query. *)
Lemma lookup_by_set_id_finds_nothing_witness :
  let db := tables (seeded_choosing (fun _ => 0) same_set_id_batch connected) in
  drugs_by_set_id
    {| drugs := set_drug (record "Emgality" "Eli Lilly and Company" (VStr "0b8d9b4c") VNone) 0%Z
                  <$> drugs db;
       drug_labels := drug_labels db |} (VStr "0b8d9b4c")
  = drugs_by_set_id db (VStr "0b8d9b4c").
Proof.
  destruct lookup_by_set_id_finds_nothing as [_ Hblind].
  apply Hblind. intros d. reflexivity.
Defined.

End SeederFacts.

(* ================================================================== *)
(** ** More on the string operations *)
(* ================================================================== *)

Module TextProps.
Import PyStr PyStrFacts.

(** *** Lengths *)

Lemma lstrip_by_length (p : ascii -> bool) (s : string) :
  String.length (lstrip_by p s) <= String.length s.
Proof.
  induction s as [|c s IH]; [reflexivity|].
  cbn [lstrip_by]. destruct (p c); cbn [String.length]; lia.
Qed.

Lemma rstrip_by_length (p : ascii -> bool) (s : string) :
  String.length (rstrip_by p s) <= String.length s.
Proof.
  induction s as [|c s IH]; [reflexivity|].
  cbn [rstrip_by]. destruct (rstrip_by p s) as [|d r].
  - destruct (p c); cbn [String.length]; lia.
  - cbn [String.length] in *. lia.
Qed.

Lemma sub_ws_length (in_run : bool) (s : string) :
  String.length (sub_ws in_run s) <= String.length s.
Proof.
  revert in_run. induction s as [|c s IH]; intros in_run; [reflexivity|].
  cbn [sub_ws]. destruct (isspace c).
  - destruct in_run; cbn [String.length].
    + specialize (IH true). lia.
    + specialize (IH true). lia.
  - cbn [String.length]. specialize (IH false). lia.
Qed.

Lemma strip_length (s : string) : String.length (strip s) <= String.length s.
Proof.
  unfold strip. pose proof (rstrip_by_length isspace (lstrip_by isspace s)).
  pose proof (lstrip_by_length isspace s). lia.
Qed.

Lemma normalize_ws_length (s : string) :
  String.length (normalize_ws s) <= String.length s.
Proof.
  unfold normalize_ws. pose proof (strip_length (sub_ws false s)).
  pose proof (sub_ws_length false s). lia.
Qed.

(** *** Stripping twice *)

Lemma lstrip_by_head (p : ascii -> bool) (s : string) (c : ascii) (r : string) :
  lstrip_by p s = String c r -> p c = false.
Proof.
  induction s as [|d s IH]; [discriminate|].
  cbn [lstrip_by]. destruct (p d) eqn:Hd; [exact IH|].
  intros [= <- _]. exact Hd.
Qed.

Lemma rstrip_by_keeps_head (p : ascii -> bool) (c : ascii) (s : string) :
  p c = false -> exists r, rstrip_by p (String c s) = String c r.
Proof.
  intros Hc. cbn [rstrip_by]. destruct (rstrip_by p s) as [|d r].
  - rewrite Hc. eexists. reflexivity.
  - eexists. reflexivity.
Qed.

Lemma rstrip_by_idempotent (p : ascii -> bool) (s : string) :
  rstrip_by p (rstrip_by p s) = rstrip_by p s.
Proof.
  induction s as [|c s IH]; [reflexivity|].
  cbn [rstrip_by]. destruct (rstrip_by p s) as [|d r] eqn:Hr.
  - destruct (p c) eqn:Hc; [reflexivity|]. cbn [rstrip_by]. rewrite Hc. reflexivity.
  - cbn [rstrip_by]. cbn [rstrip_by] in IH. rewrite IH. reflexivity.
Qed.

(** [strip] is idempotent. *)
Lemma strip_idempotent (s : string) : strip (strip s) = strip s.
Proof.
  unfold strip.
  destruct (lstrip_by isspace s) as [|c t] eqn:Hl; [reflexivity|].
  pose proof (lstrip_by_head _ _ _ _ Hl) as Hc.
  destruct (rstrip_by_keeps_head isspace c t Hc) as (r & Hr).
  rewrite Hr. cbn [lstrip_by]. rewrite Hc, <- Hr.
  apply rstrip_by_idempotent.
Qed.

(** *** Collapsing whitespace twice *)

Lemma sub_ws_idempotent (in_run : bool) (s : string) :
  sub_ws in_run (sub_ws in_run s) = sub_ws in_run s.
Proof.
  revert in_run. induction s as [|c s IH]; intros in_run; [reflexivity|].
  cbn [sub_ws]. destruct (isspace c) eqn:Hc.
  - destruct in_run; [apply IH|].
    cbn [sub_ws]. change (isspace " ") with true. cbv iota. rewrite IH. reflexivity.
  - cbn [sub_ws]. rewrite Hc, IH. reflexivity.
Qed.

(** A text in which a run of whitespace would start with whitespace is
    not left unchanged by the collapse. *)
Lemma sub_ws_in_run_head (c : ascii) (s : string) :
  sub_ws true (String c s) = String c s -> isspace c = false.
Proof.
  cbn [sub_ws]. destruct (isspace c); [|reflexivity].
  intros Heq. pose proof (sub_ws_length true s) as Hlen.
  rewrite Heq in Hlen. cbn [String.length] in Hlen. lia.
Qed.

Lemma sub_ws_fixed_lstrip (s : string) (b b' : bool) :
  sub_ws b s = s -> sub_ws b' (lstrip_by isspace s) = lstrip_by isspace s.
Proof.
  revert b. induction s as [|c s IH]; intros b; [reflexivity|].
  intros Hfix. cbn [lstrip_by]. destruct (isspace c) eqn:Hc.
  - destruct b.
    + apply sub_ws_in_run_head in Hfix. congruence.
    + cbn [sub_ws] in Hfix. rewrite Hc in Hfix. injection Hfix as _ Hfix.
      exact (IH true Hfix).
  - cbn [sub_ws] in *. rewrite Hc in *. injection Hfix as Hfix.
    rewrite Hfix. reflexivity.
Qed.

Lemma sub_ws_cons (b : bool) (c : ascii) (s : string) :
  sub_ws b (String c s)
  = if isspace c
    then if b then sub_ws true s else String " " (sub_ws true s)
    else String c (sub_ws false s).
Proof. reflexivity. Qed.

Lemma sub_ws_fixed_rstrip (s : string) (b : bool) :
  sub_ws b s = s -> sub_ws b (rstrip_by isspace s) = rstrip_by isspace s.
Proof.
  revert b. induction s as [|c s IH]; intros b; [reflexivity|].
  intros Hfix. cbn [rstrip_by].
  destruct (isspace c) eqn:Hc.
  - destruct b.
    + apply sub_ws_in_run_head in Hfix. congruence.
    + rewrite sub_ws_cons, Hc in Hfix. injection Hfix as Hsp Hfix.
      specialize (IH true Hfix).
      destruct (rstrip_by isspace s) as [|d r]; [reflexivity|].
      rewrite sub_ws_cons, Hc, IH. congruence.
  - rewrite sub_ws_cons, Hc in Hfix. injection Hfix as Hfix.
    specialize (IH false Hfix).
    destruct (rstrip_by isspace s) as [|d r].
    + rewrite sub_ws_cons, Hc. reflexivity.
    + rewrite sub_ws_cons, Hc, IH. reflexivity.
Qed.

(** What [re.sub(r'\s+', ' ', s).strip()] returns is left as it is by the
    collapse and by [strip]. *)
Lemma normalize_ws_collapsed (s : string) :
  sub_ws false (normalize_ws s) = normalize_ws s.
Proof.
  unfold normalize_ws, strip.
  apply sub_ws_fixed_rstrip, (sub_ws_fixed_lstrip _ false), sub_ws_idempotent.
Qed.

Lemma normalize_ws_stripped (s : string) : strip (normalize_ws s) = normalize_ws s.
Proof. unfold normalize_ws. apply strip_idempotent. Qed.

Lemma normalize_ws_idempotent (s : string) :
  normalize_ws (normalize_ws s) = normalize_ws s.
Proof.
  unfold normalize_ws at 1. rewrite normalize_ws_collapsed. apply normalize_ws_stripped.
Qed.

(** *** Blank and visible texts *)

Lemma has_char_self (c : ascii) (s : string) : has_char c (String c s) = true.
Proof. cbn [has_char]. rewrite Ascii.eqb_refl. reflexivity. Qed.

Lemma lstrip_by_in (p : ascii -> bool) (c : ascii) (s : string) :
  has_char c (lstrip_by p s) = true -> has_char c s = true.
Proof.
  induction s as [|d s IH]; [discriminate|].
  cbn [lstrip_by]. destruct (p d); [|auto].
  intros Hin. cbn [has_char]. rewrite (IH Hin). apply orb_true_r.
Qed.

Lemma lstrip_by_blank (p : ascii -> bool) (s : string) :
  lstrip_by p s = "" -> forall c, has_char c s = true -> p c = true.
Proof.
  induction s as [|d s IH]; [discriminate|].
  cbn [lstrip_by has_char]. destruct (p d) eqn:Hd; [|discriminate].
  intros Hs c Hc. apply orb_true_iff in Hc as [Heq|Hin]; [|exact (IH Hs c Hin)].
  apply Ascii.eqb_eq in Heq. congruence.
Qed.

(** The first character of a stripped text is a character of the text
    that is not whitespace. *)
Lemma strip_head (s : string) (c : ascii) (r : string) :
  strip s = String c r -> has_char c s = true /\ isspace c = false.
Proof.
  unfold strip. destruct (lstrip_by isspace s) as [|d t] eqn:Hl; [discriminate|].
  pose proof (lstrip_by_head _ _ _ _ Hl) as Hd.
  destruct (rstrip_by_keeps_head isspace d t Hd) as (r' & Hr).
  rewrite Hr. intros [= <- _]. split; [|exact Hd].
  apply (lstrip_by_in isspace). rewrite Hl. apply has_char_self.
Qed.

Lemma strip_blank (s : string) :
  strip s = "" -> forall c, has_char c s = true -> isspace c = true.
Proof.
  unfold strip. destruct (lstrip_by isspace s) as [|d t] eqn:Hl.
  - intros _. exact (lstrip_by_blank _ _ Hl).
  - pose proof (lstrip_by_head _ _ _ _ Hl) as Hd.
    destruct (rstrip_by_keeps_head isspace d t Hd) as (r' & Hr).
    rewrite Hr. discriminate.
Qed.

End TextProps.

(* ================================================================== *)
(** ** The matcher against the language of a pattern *)
(* ================================================================== *)

Module RegexProps.
Import PyStr Regex.

Lemma append_cons (x : ascii) (a b : string) : String x a ++ b = String x (a ++ b).
Proof. reflexivity. Qed.

Lemma append_assoc (a b c : string) : (a ++ b) ++ c = a ++ b ++ c.
Proof. induction a as [|x a IH]; [reflexivity|]. rewrite !append_cons, IH. reflexivity. Qed.

Lemma append_nil_r (a : string) : a ++ "" = a.
Proof. induction a as [|x a IH]; [reflexivity|]. rewrite append_cons, IH. reflexivity. Qed.

Lemma length_append (a b : string) :
  String.length (a ++ b) = String.length a + String.length b.
Proof.
  induction a as [|x a IH]; [reflexivity|].
  rewrite append_cons. cbn [String.length]. rewrite IH. reflexivity.
Qed.

Lemma substring_prefix (a b : string) : String.substring 0 (String.length a) (a ++ b) = a.
Proof.
  induction a as [|x a IH]; [destruct b; reflexivity|].
  rewrite append_cons. cbn [String.length String.substring]. rewrite IH. reflexivity.
Qed.

(** What a match consumed, when the rest is what follows it. *)
Lemma consumed_prefix (w rest : string) : consumed (w ++ rest) rest = w.
Proof.
  unfold consumed. rewrite length_append.
  replace (String.length w + String.length rest - String.length rest)
    with (String.length w) by lia.
  apply substring_prefix.
Qed.

Lemma many_sound {A} (p : ascii -> bool) (s : string) (k : string -> option A) (x : A) :
  many p s k = Some x ->
  exists w rest, s = w ++ rest /\ language (Many p) w /\ k rest = Some x.
Proof.
  induction s as [|c s IH]; cbn [many].
  - intros Hk. exists "", "". split; [reflexivity|]. split; [constructor | exact Hk].
  - destruct (p c) eqn:Hc.
    + destruct (many p s k) as [y|] eqn:Hm.
      * intros [= <-]. destruct (IH eq_refl) as (w & rest & -> & Hw & Hk).
        exists (String c w), rest. split; [reflexivity|].
        split; [constructor; assumption | exact Hk].
      * intros Hk. exists "", (String c s). split; [reflexivity|].
        split; [constructor | exact Hk].
    + intros Hk. exists "", (String c s). split; [reflexivity|].
      split; [constructor | exact Hk].
Qed.

(** The matcher is sound: what it consumes before it calls the
    continuation is a text of the language of the pattern. *)
Lemma exec_sound {A} (r : re) (s : string) (k : string -> option A) (x : A) :
  exec r s k = Some x ->
  exists w rest, s = w ++ rest /\ language r w /\ k rest = Some x.
Proof.
  revert s k. induction r as [|c|p|r1 IH1 r2 IH2|r1 IH1 r2 IH2|r1 IH1|p]; intros s k; cbn [exec].
  - intros Hk. exists "", s. split; [reflexivity|]. split; [constructor | exact Hk].
  - destruct s as [|d s]; [discriminate|].
    destruct (Ascii.eqb (lower_char d) (lower_char c)) eqn:Heq; [|discriminate].
    apply Ascii.eqb_eq in Heq.
    intros Hk. exists (String d ""), s. split; [reflexivity|].
    split; [constructor; exact Heq | exact Hk].
  - destruct s as [|d s]; [discriminate|].
    destruct (p d) eqn:Hd; [|discriminate].
    intros Hk. exists (String d ""), s. split; [reflexivity|].
    split; [constructor; exact Hd | exact Hk].
  - intros Hrun. apply IH1 in Hrun as (w1 & rest1 & -> & Hw1 & Hrun).
    apply IH2 in Hrun as (w2 & rest & -> & Hw2 & Hk).
    exists (w1 ++ w2), rest. split; [symmetry; apply append_assoc|].
    split; [constructor; assumption | exact Hk].
  - destruct (exec r1 s k) as [y|] eqn:H1.
    + intros [= <-]. apply IH1 in H1 as (w & rest & -> & Hw & Hk).
      exists w, rest. split; [reflexivity|]. split; [apply language_alt_l; exact Hw | exact Hk].
    + intros H2. apply IH2 in H2 as (w & rest & -> & Hw & Hk).
      exists w, rest. split; [reflexivity|]. split; [apply language_alt_r; exact Hw | exact Hk].
  - destruct (exec r1 s k) as [y|] eqn:H1.
    + intros [= <-]. apply IH1 in H1 as (w & rest & -> & Hw & Hk).
      exists w, rest. split; [reflexivity|]. split; [apply language_opt_some; exact Hw | exact Hk].
    + intros Hk. exists "", s. split; [reflexivity|]. split; [constructor | exact Hk].
  - apply many_sound.
Qed.

(** [re.match]: the match is a prefix of the input and a text of the
    language. *)
Lemma match_at_sound (r : re) (s w : string) :
  match_at r s = Some w -> language r w /\ exists rest, s = w ++ rest.
Proof.
  unfold match_at. intros Hrun.
  apply exec_sound in Hrun as (w' & rest & -> & Hw & Hk).
  rewrite consumed_prefix in Hk. injection Hk as <-.
  split; [exact Hw|]. exists rest. reflexivity.
Qed.

(** [re.findall]: every match is a piece of the input and a text of the
    language. *)
Lemma findall_from_sound (r : re) (skip : nat) (s w : string) :
  In w (findall_from r skip s) ->
  language r w /\ exists before after, s = before ++ w ++ after.
Proof.
  revert skip. induction s as [|c s IH]; intros skip; cbn [findall_from].
  - destruct skip; [|contradiction].
    destruct (match_at r "") as [w0|] eqn:Hm; [|contradiction].
    intros [<-|[]]. apply match_at_sound in Hm as (Hw & rest & Hs).
    split; [exact Hw|]. exists "", rest. exact Hs.
  - destruct skip as [|n].
    + destruct (match_at r (String c s)) as [w0|] eqn:Hm.
      * intros [<-|Hin].
        -- apply match_at_sound in Hm as (Hw & rest & Hs).
           split; [exact Hw|]. exists "", rest. exact Hs.
        -- apply IH in Hin as (Hw & before & after & ->).
           split; [exact Hw|]. exists (String c before), after. reflexivity.
      * intros Hin. apply IH in Hin as (Hw & before & after & ->).
        split; [exact Hw|]. exists (String c before), after. reflexivity.
    + intros Hin. apply IH in Hin as (Hw & before & after & ->).
      split; [exact Hw|]. exists (String c before), after. reflexivity.
Qed.

(** [re.search] with one group after a prefix: the group is a text of
    the language of the group, and a piece of the input. *)
Lemma search_group_sound (pre grp : re) (s w : string) :
  search_group pre grp s = Some w ->
  language grp w /\ exists before after, s = before ++ w ++ after.
Proof.
  induction s as [|c s IH]; cbn [search_group].
  - destruct (exec pre "" (fun s1 => match_at grp s1)) as [w0|] eqn:Hm; [|discriminate].
    intros [= <-]. apply exec_sound in Hm as (u & rest & Hs & _ & Hm).
    apply match_at_sound in Hm as (Hw & after & ->).
    split; [exact Hw|]. exists u, after. exact Hs.
  - destruct (exec pre (String c s) (fun s1 => match_at grp s1)) as [w0|] eqn:Hm.
    + intros [= <-]. apply exec_sound in Hm as (u & rest & Hs & _ & Hm).
      apply match_at_sound in Hm as (Hw & after & ->).
      split; [exact Hw|]. exists u, after. exact Hs.
    + intros Hrun. apply IH in Hrun as (Hw & before & after & ->).
      split; [exact Hw|]. exists (String c before), after. reflexivity.
Qed.

(** *** Reading a text of a language *)

Lemma language_cls_inv (p : ascii -> bool) (w : string) :
  language (Cls p) w -> exists d, w = String d "" /\ p d = true.
Proof. inversion 1; subst. eauto. Qed.

Lemma language_lit_inv (c : ascii) (w : string) :
  language (Lit c) w -> exists d, w = String d "" /\ lower_char d = lower_char c.
Proof. inversion 1; subst. eauto. Qed.

Lemma language_cat_inv (r1 r2 : re) (w : string) :
  language (Cat r1 r2) w -> exists w1 w2, w = w1 ++ w2 /\ language r1 w1 /\ language r2 w2.
Proof. inversion 1; subst. eauto. Qed.

Lemma language_opt_inv (r : re) (w : string) :
  language (Opt r) w -> w = "" \/ language r w.
Proof. inversion 1; subst; auto. Qed.

Lemma language_many_all (p : ascii -> bool) (w : string) :
  language (Many p) w -> forall c, has_char c w = true -> p c = true.
Proof.
  induction w as [|d w IH]; intros Hw c Hc; [discriminate|].
  inversion Hw; subst. cbn [has_char] in Hc.
  apply orb_true_iff in Hc as [Heq|Hin].
  - apply Ascii.eqb_eq in Heq. congruence.
  - auto.
Qed.

(** A number starts with a digit, and so does what starts with a
    number. *)
Lemma language_number_head (rest : re) (w : string) :
  language (Cat number rest) w -> exists c w', w = String c w' /\ isdigit c = true.
Proof.
  unfold number, digits. intros Hw.
  apply language_cat_inv in Hw as (w1 & w2 & -> & Hw1 & _).
  apply language_cat_inv in Hw1 as (w3 & w4 & -> & Hw3 & _).
  apply language_cat_inv in Hw3 as (w5 & w6 & -> & Hw5 & _).
  apply language_cls_inv in Hw5 as (d & -> & Hd).
  eexists. eexists. split; [reflexivity | exact Hd].
Qed.

End RegexProps.

(* ================================================================== *)
(** ** The parser on any file *)
(* ================================================================== *)

Module ParserProps.
Import Json Exc Parser ParserFacts.

Section Props.
Context `{Runtime}.

(** The filter says yes to admissible mappings only. *)
Lemma valid_is_mapping (v : value) :
  _is_valid_drug_record v = Ok true -> exists d, v = VDict d /\ admissible d = true.
Proof.
  destruct v as [|b|z|m e|s|l|d]; try (cbn; discriminate).
  - cbn. destruct (PyStr.contains "drugName" s); discriminate.
  - cbn. destruct (existsb _ l); discriminate.
  - rewrite valid_admissible. intros [= Ha]. exists d. auto.
Qed.

(** An item that is not a mapping ends the run: the membership test or
    the subscript of the filter raises, or the filter says no and
    [drug_data.get] raises in the diagnostic. *)
Lemma parse_items_not_mapping (v : value) (rest : list value) (at_end : list event) :
  (forall d, v <> VDict d) -> parse_items (v :: rest) at_end = [Failed].
Proof.
  intros Hv. cbn [parse_items].
  destruct v as [|b|z|m e|s|l|d]; cbn; try reflexivity.
  - destruct (PyStr.contains "drugName" s); reflexivity.
  - destruct (existsb _ l); reflexivity.
  - exfalso. exact (Hv d eq_refl).
Qed.

Lemma yielded_app (t1 t2 : list event) :
  yielded (t1 ++ t2)%list = (yielded t1 ++ yielded t2)%list.
Proof. unfold yielded. apply omap_app. Qed.

Lemma yielded_parse_items (l : list value) (at_end : list event) :
  yielded at_end = [] ->
  sublist (yielded (parse_items l at_end)) l /\
  Forall (fun v => exists d, v = VDict d /\ admissible d = true)
         (yielded (parse_items l at_end)).
Proof.
  intros Hend. induction l as [|v l [IHs IHf]].
  - cbn [parse_items]. rewrite Hend. split; constructor.
  - cbn [parse_items].
    destruct (_is_valid_drug_record v) as [[|]|] eqn:Hv.
    + apply valid_is_mapping in Hv.
      change (yielded (Yield v :: parse_items l at_end))
        with (v :: yielded (parse_items l at_end)).
      split; [apply sublist_skip; exact IHs | constructor; assumption].
    + destruct v as [|b|z|m e|s|l0|d];
        try (split; [apply sublist_nil_l | constructor]).
      change (yielded (Printed _ :: parse_items l at_end))
        with (yielded (parse_items l at_end)).
      split; [apply sublist_cons; exact IHs | exact IHf].
    + split; [apply sublist_nil_l | constructor].
Qed.

(** X1.  Whatever the file holds - items that are not mappings, a
    malformed tail - the documents [parse_drugs] yields are items of the
    file, handed over unchanged and in the order of the file, and each is
    a mapping that passes the admission filter. *)
Theorem parse_drugs_yields_in_order (src : source) :
  sublist (yielded (parse_drugs src)) (items src) /\
  Forall (fun v => exists d, v = VDict d /\ admissible d = true)
         (yielded (parse_drugs src)).
Proof.
  unfold parse_drugs. apply yielded_parse_items.
  destruct (malformed src); reflexivity.
Qed.

(** X2.  The generator stops at the first item that is not a mapping,
    and at a malformed tail: the documents before are yielded or skipped
    as usual, the exception is the last thing that happens, and nothing
    that comes after in the file is yielded. *)
Theorem parse_drugs_stops_at_failure (docs : list object) :
  (forall (v : value) (rest : list value) (m : bool),
     (forall d, v <> VDict d) ->
     let run := parse_drugs {| items := (VDict <$> docs) ++ v :: rest; malformed := m |} in
     run = ((admission <$> docs) ++ [Failed])%list /\
     yielded run = VDict <$> filter (fun d => admissible d = true) docs) /\
  (let run := parse_drugs {| items := VDict <$> docs; malformed := true |} in
   run = ((admission <$> docs) ++ [Failed])%list /\
   yielded run = VDict <$> filter (fun d => admissible d = true) docs).
Proof.
  split.
  - intros v rest m Hv. cbn zeta. unfold parse_drugs. cbn [items malformed].
    rewrite parse_items_mappings_then, (parse_items_not_mapping v rest _ Hv).
    split; [reflexivity|].
    rewrite yielded_app, yielded_admission. apply app_nil_r.
  - cbn zeta. unfold parse_drugs. cbn [items malformed].
    rewrite parse_items_mappings.
    split; [reflexivity|].
    rewrite yielded_app, yielded_admission. apply app_nil_r.
Qed.

Lemma sublist_length_le {A} (l1 l2 : list A) : sublist l1 l2 -> length l1 <= length l2.
Proof. induction 1; cbn; lia. Qed.

(** X3.  [count_total_records] counts every item of a well-formed file,
    the documents [parse_drugs] skips included: it bounds the number of
    documents yielded, and on a file of mappings it is the number of
    things the generator does, one per document, none of them a failure.
    On a file with a malformed tail it is 0, although the generator
    yields the admissible documents before the tail. *)
Theorem count_total_records_covers (src : source) :
  (malformed src = false ->
   length (yielded (parse_drugs src)) <= count_total_records src) /\
  (malformed src = false ->
   forall docs, items src = VDict <$> docs ->
     length (parse_drugs src) = count_total_records src /\ ~ In Failed (parse_drugs src)) /\
  (malformed src = true ->
   count_total_records src = 0 /\
   forall docs, items src = VDict <$> docs ->
     yielded (parse_drugs src) = VDict <$> filter (fun d => admissible d = true) docs).
Proof.
  unfold count_total_records. split; [|split].
  - intros Hm. rewrite Hm. unfold parse_drugs. rewrite Hm.
    apply sublist_length_le. apply yielded_parse_items. reflexivity.
  - intros Hm docs Hitems. rewrite Hm. unfold parse_drugs. rewrite Hm, Hitems.
    rewrite parse_items_mappings, app_nil_r, !length_fmap.
    split; [reflexivity|].
    intros Hin. apply in_map_iff in Hin as (d & Hd & _).
    unfold admission in Hd. destruct (admissible d); discriminate.
  - intros Hm. rewrite Hm. split; [reflexivity|].
    intros docs Hitems. unfold parse_drugs. rewrite Hm, Hitems.
    rewrite parse_items_mappings, yielded_app, yielded_admission. apply app_nil_r.
Qed.

End Props.

Import Examples.

(** X2, on a file whose second item is a number. *)
Lemma parse_drugs_stops_at_failure_witness :
  yielded (parse_drugs {| items := [VDict admitted_doc; VInt 7; VDict emgality_doc];
                          malformed := false |})
  = [VDict admitted_doc].
Proof.
  destruct (parse_drugs_stops_at_failure [admitted_doc]) as [Hstop _].
  destruct (Hstop (VInt 7) [VDict emgality_doc] false) as [_ Hy]; [discriminate|].
  exact Hy.
Defined.

(** X3, on a well-formed file of three documents, one of them without a
    name, and on the same file with a malformed tail. *)
Lemma count_total_records_covers_witness :
  count_total_records feed = 3 /\
  length (yielded (parse_drugs feed)) = 2 /\
  length (parse_drugs feed) = 3 /\
  count_total_records {| items := items feed; malformed := true |} = 0.
Proof.
  destruct (count_total_records_covers feed) as (_ & Hall & _).
  destruct (Hall eq_refl [admitted_doc; empty_name_doc; emgality_doc] eq_refl) as [Hlen _].
  destruct (count_total_records_covers {| items := items feed; malformed := true |})
    as (_ & _ & Hbad).
  destruct (Hbad eq_refl) as [Hzero _].
  split; [reflexivity|]. split; [vm_compute; reflexivity|].
  split; [rewrite Hlen; reflexivity | exact Hzero].
Defined.

End ParserProps.

(* ================================================================== *)
(** ** The transformer: what its records are made of *)
(* ================================================================== *)

Module TransformerProps.
Import Json Exc PyStr PyStrFacts Regex Transformer TransformerFacts TextProps RegexProps.

Section Props.
Context `{Runtime} `{Html}.

(** *** Cleaned text *)

Lemma clean_text_normalized (v : value) (t : string) :
  _clean_text v = Some t -> t = normalize_ws (str v) /\ nonempty t = true.
Proof.
  unfold _clean_text. destruct (negb (truthy v)); [discriminate|].
  destruct (nonempty (normalize_ws (str v))) eqn:Hn; [|discriminate].
  intros [= <-]. auto.
Qed.

Lemma clean_html_normalized (v : value) (t : string) :
  _clean_html_content v = Some t -> (exists x, t = normalize_ws x) /\ nonempty t = true.
Proof.
  unfold _clean_html_content. destruct (negb (truthy v)); [discriminate|].
  destruct (soup_text v) as [text|].
  - destruct (nonempty (normalize_ws text)) eqn:Hn; [|discriminate].
    intros [= <-]. eauto.
  - intros Hc. apply clean_text_normalized in Hc as [-> Hn]. eauto.
Qed.

Lemma clean_text_again (x : string) :
  nonempty (normalize_ws x) = true ->
  _clean_text (VStr (normalize_ws x)) = Some (normalize_ws x).
Proof.
  intros Hn. unfold _clean_text. cbn [truthy str]. rewrite Hn. cbn [negb].
  rewrite normalize_ws_idempotent, Hn. reflexivity.
Qed.

(** X4.  What [_clean_text] and [_clean_html_content] return is never
    empty and is in normal form: collapsing its whitespace or stripping it
    again changes nothing, it is on one line, and [_clean_text] returns
    it as it is.  [_clean_text] never returns more characters than the
    string form of its argument has. *)
Theorem cleaned_text_normal_form (v : value) (t : string) :
  (_clean_text v = Some t -> String.length t <= String.length (str v)) /\
  (_clean_text v = Some t \/ _clean_html_content v = Some t ->
   t <> "" /\ sub_ws false t = t /\ strip t = t /\
   has_char newline t = false /\ _clean_text (VStr t) = Some t).
Proof.
  split.
  - intros Hc. apply clean_text_normalized in Hc as [-> _]. apply normalize_ws_length.
  - intros Hc.
    assert (Hnorm : (exists x, t = normalize_ws x) /\ nonempty t = true).
    { destruct Hc as [Hc|Hc]; [|exact (clean_html_normalized _ _ Hc)].
      apply clean_text_normalized in Hc as [-> Hn]. eauto. }
    destruct Hnorm as [(x & ->) Hn].
    split; [apply nonempty_length; exact Hn|].
    split; [apply normalize_ws_collapsed|].
    split; [apply normalize_ws_stripped|].
    split; [apply normalize_ws_no_newline|].
    exact (clean_text_again x Hn).
Qed.

(** *** What a record is made of *)

(** What a successful run of the [try] block of [transform] went
    through, field by field. *)
Lemma transform_body_fields (d : object) (q q' : list issue) (r : DrugRecord) :
  transform_body d q = (Ok (Some r), q') ->
  let label := get_or d "label" (VDict ∅) in
  (exists qa qb, _safe_extract_drug_name d qa = (Ok (Some (name r)), qb)) /\
  (exists qa qb, _safe_extract_manufacturer d qa = (Ok (manufacturer r), qb)) /\
  (exists qa qb, _extract_generic_name label qa = (Ok (generic_name r), qb)) /\
  (exists qa qb, _extract_brand_name (name r) label qa = (Ok (brand_name r), qb)) /\
  (exists qa qb, _extract_dosage_form label qa = (Ok (dosage_form r), qb)) /\
  (exists qa qb, _extract_strength label qa = (Ok (strength r), qb)) /\
  (exists qa qb, _extract_route label qa = (Ok (route r), qb)) /\
  (exists qa qb, _extract_ndc label qa = (Ok (ndc r), qb)) /\
  (exists qa qb, _safe_extract_indications label qa = (Ok (indications r), qb)).
Proof.
  unfold transform_body. intros Hrun. peel Hrun.
  destruct a1 as [drug_name|]; [|peel Hrun; discriminate].
  destruct (nonempty drug_name) eqn:Hname; cbn [negb] in Hrun;
    [|peel Hrun; discriminate].
  peel Hrun. injection Hrun as <- _. cbn.
  repeat split; eauto.
Qed.

Lemma first_alternative_from (clean : value -> option string) (d : object)
    (alternatives : list string) (field text : string) :
  first_alternative clean d alternatives = Some (field, text) ->
  clean (get d field) = Some text.
Proof.
  induction alternatives as [|f rest IH]; [discriminate|].
  cbn [first_alternative].
  destruct (clean (get d f)) as [v|] eqn:Hc; [|exact IH].
  destruct (nonempty v); [|exact IH].
  intros [= <- <-]. exact Hc.
Qed.

Lemma safe_extract_drug_name_cleaned (d : object) (q q' : list issue) (n : string) :
  _safe_extract_drug_name d q = (Ok (Some n), q') -> exists v, _clean_text v = Some n.
Proof.
  unfold _safe_extract_drug_name.
  destruct (_clean_text (get d "drugName")) as [n0|] eqn:Hn0; cbn [truthy_opt].
  { destruct (nonempty n0).
    - intros [= <- _]. eauto.
    - destruct (first_alternative _ _ _) as [[f alt]|] eqn:Hfirst.
      + intros Hrun. peel Hrun. injection Hrun as <- _.
        apply first_alternative_from in Hfirst. eauto.
      + intros Hrun. peel Hrun.
        destruct (_clean_text a) as [t|] eqn:Ht; cbn [truthy_opt] in Hrun;
          [destruct (nonempty t)|]; peel Hrun; try discriminate.
        injection Hrun as <- _. eauto. }
  destruct (first_alternative _ _ _) as [[f alt]|] eqn:Hfirst.
  - intros Hrun. peel Hrun. injection Hrun as <- _.
    apply first_alternative_from in Hfirst. eauto.
  - intros Hrun. peel Hrun.
    destruct (_clean_text a) as [t|] eqn:Ht; cbn [truthy_opt] in Hrun;
      [destruct (nonempty t)|]; peel Hrun; try discriminate.
    injection Hrun as <- _. eauto.
Qed.

Lemma safe_extract_manufacturer_cleaned (d : object) (q q' : list issue) (m : string) :
  _safe_extract_manufacturer d q = (Ok m, q') ->
  m = defaults_manufacturer \/ exists v, _clean_text v = Some m.
Proof.
  unfold _safe_extract_manufacturer.
  destruct (_clean_text (get d "labeler")) as [m0|] eqn:Hm0.
  { intros [= <- _]. eauto. }
  destruct (first_alternative _ _ _) as [[f alt]|] eqn:Hfirst.
  { intros Hrun. peel Hrun. injection Hrun as <- _.
    apply first_alternative_from in Hfirst. eauto. }
  intros Hrun. peel Hrun.
  destruct (_clean_text a) as [t|] eqn:Ht; peel Hrun; injection Hrun as <- _; eauto.
Qed.

Lemma safe_extract_indications_cleaned (label : value) (q q' : list issue) (i : string) :
  _safe_extract_indications label q = (Ok i, q') ->
  i = defaults_indications \/ exists v, _clean_html_content v = Some i.
Proof.
  unfold _safe_extract_indications. intros Hrun. peel Hrun.
  destruct (_clean_html_content a) as [i0|] eqn:Hi0.
  { injection Hrun as <- _. eauto. }
  destruct label as [| | | | | |l]; try discriminate.
  destruct (first_alternative _ _ _) as [[f alt]|] eqn:Hfirst;
    peel Hrun; injection Hrun as <- _; [|auto].
  apply first_alternative_from in Hfirst. eauto.
Qed.

(** A text in normal form is not blank for the loader. *)
Lemma normalized_not_blank (x : string) :
  nonempty (normalize_ws x) = true ->
  negb (nonempty (normalize_ws x)) || (String.length (strip (normalize_ws x)) =? 0)%nat = false.
Proof.
  intros Hn. rewrite Hn, normalize_ws_stripped. cbn [negb orb].
  destruct (normalize_ws x); [discriminate | reflexivity].
Qed.

(** X5.  A record that [transform] returns has a name, a manufacturer
    and indications that the loader does not find blank, so
    [_validate_record] accepts it exactly when its name and its
    manufacturer have at most 255 characters. *)
Theorem transform_then_validate (raw : value) (q q' : list issue) (r : DrugRecord) :
  transform raw q = (Some r, q') ->
  (Seeder._validate_record r = true <->
   String.length (name r) <= 255 /\ String.length (manufacturer r) <= 255).
Proof.
  intros Hrun. apply transform_inv in Hrun as (d & -> & Hbody).
  apply transform_body_fields in Hbody
    as ((qa & qb & Hname) & (qc & qd & Hman) & _ & _ & _ & _ & _ & _ & (qe & qf & Hind)).
  apply safe_extract_drug_name_cleaned in Hname as (v1 & Hname).
  apply clean_text_normalized in Hname as [Hname Hn1].
  apply safe_extract_manufacturer_cleaned in Hman.
  apply safe_extract_indications_cleaned in Hind.
  unfold Seeder._validate_record.
  assert (Hb1 : negb (nonempty (name r)) || (String.length (strip (name r)) =? 0)%nat = false).
  { rewrite Hname in *. apply normalized_not_blank. exact Hn1. }
  assert (Hb2 : negb (nonempty (manufacturer r))
                || (String.length (strip (manufacturer r)) =? 0)%nat = false).
  { destruct Hman as [->|(v & Hv)]; [reflexivity|].
    apply clean_text_normalized in Hv as [Hv Hn]. rewrite Hv in *.
    apply normalized_not_blank. exact Hn. }
  assert (Hb3 : negb (nonempty (indications r))
                || (String.length (strip (indications r)) =? 0)%nat = false).
  { destruct Hind as [->|(v & Hv)]; [reflexivity|].
    apply clean_html_normalized in Hv as [(x & Hx) Hn]. rewrite Hx in *.
    apply normalized_not_blank. exact Hn. }
  rewrite Hb1, Hb2, Hb3. cbn [orb].
  rewrite negb_true_iff, orb_false_iff, !Nat.ltb_ge. reflexivity.
Qed.

(** *** Closed vocabularies *)

Lemma parse_route_in (text : value) (q q' : list issue) (x : string) :
  _parse_route_from_text text q = (Ok (Some x), q') -> In x (snd <$> routes).
Proof.
  unfold _parse_route_from_text. destruct (negb (truthy text)); [discriminate|].
  intros Hrun. peel Hrun.
  match type of Hrun with
  | context [List.find ?f routes] => destruct (List.find f routes) as [[k n]|] eqn:Hf
  end; [|discriminate].
  cbn in Hrun. unfold ret in Hrun. injection Hrun as <- _.
  apply find_some in Hf as [Hin _].
  apply SeederFacts.in_fmap. exists (k, n). auto.
Qed.

Lemma route_alternatives_in (label : value) (fields : list string) (q q' : list issue)
    (x : string) :
  route_alternatives label fields q = (Ok (Some x), q') -> In x (snd <$> routes).
Proof.
  revert q. induction fields as [|field rest IH]; intros q; cbn [route_alternatives].
  { discriminate. }
  intros Hrun. peel Hrun.
  destruct (truthy a); [|exact (IH _ Hrun)].
  peel Hrun.
  destruct (truthy_opt a0) eqn:Ht; [|exact (IH _ Hrun)].
  peel Hrun. injection Hrun as -> _.
  exact (parse_route_in _ _ _ _ E0).
Qed.

Lemma extract_route_in (label : value) (q q' : list issue) (x : string) :
  _extract_route label q = (Ok x, q') -> In x (defaults_route :: (snd <$> routes)).
Proof.
  unfold _extract_route. intros Hrun. peel Hrun.
  destruct (truthy_opt a0) eqn:Ht.
  - injection Hrun as <- _. destruct a0 as [m|]; [|discriminate].
    cbn [truthy_opt] in Ht. cbn [or_str]. rewrite Ht. right.
    destruct (truthy a); [|discriminate].
    exact (parse_route_in _ _ _ _ E0).
  - peel Hrun. destruct a1 as [m|].
    + injection Hrun as <- _. right. exact (route_alternatives_in _ _ _ _ _ E1).
    + peel Hrun. injection Hrun as <- _. left. reflexivity.
Qed.

(** X6.  The route of a record that [transform] returns is one of a
    closed list: ["Unknown"], or the name of one of the fourteen routes
    of [_parse_route_from_text] (thirteen names, ["Inhalation"] having two
    keys); text of the label never gets into the field. *)
Theorem route_vocabulary (raw : value) (q q' : list issue) (r : DrugRecord) :
  transform raw q = (Some r, q') ->
  In (route r) (defaults_route :: (snd <$> routes)).
Proof.
  intros Hrun. apply transform_inv in Hrun as (d & -> & Hbody).
  apply transform_body_fields in Hbody
    as (_ & _ & _ & _ & _ & _ & (qa & qb & Hroute) & _).
  exact (extract_route_in _ _ _ _ Hroute).
Qed.

Lemma dosage_form_alternatives_in (label : value) (fields : list string) (q q' : list issue)
    (x : string) :
  dosage_form_alternatives label fields q = (Ok (Some x), q') ->
  In x ["Injection"; "Tablet"; "Capsule"].
Proof.
  revert q. induction fields as [|field rest IH]; intros q; cbn [dosage_form_alternatives].
  { discriminate. }
  intros Hrun. peel Hrun.
  destruct (truthy a); [|exact (IH _ Hrun)].
  peel Hrun.
  destruct (contains "injection" (lower a0)); [injection Hrun as <- _; cbn; tauto|].
  destruct (contains "tablet" (lower a0)); [injection Hrun as <- _; cbn; tauto|].
  destruct (contains "capsule" (lower a0)); [injection Hrun as <- _; cbn; tauto|].
  exact (IH _ Hrun).
Qed.

Lemma extract_dosage_form_in (label : value) (q q' : list issue) (x : string) :
  _extract_dosage_form label q = (Ok x, q') ->
  In x (defaults_dosage_form :: (title <$> common_forms)).
Proof.
  unfold _extract_dosage_form. intros Hrun. peel Hrun.
  match type of Hrun with
  | context [match ?found with Some _ => _ | None => _ end] =>
      destruct found as [form|] eqn:Hfound
  end.
  - injection Hrun as <- _. right.
    assert (Hin : In form common_forms).
    { destruct (truthy a); [|discriminate].
      apply find_some in Hfound as [Hin _]. exact Hin. }
    apply SeederFacts.in_fmap. exists form. auto.
  - peel Hrun. destruct a0 as [form|].
    + injection Hrun as <- _. right.
      apply dosage_form_alternatives_in in E0.
      cbn in E0. destruct E0 as [<-|[<-|[<-|[]]]]; vm_compute; tauto.
    + peel Hrun. injection Hrun as <- _. left. reflexivity.
Qed.

(** X7.  The dosage form of a record that [transform] returns is
    ["Unknown"] or one of the twenty-one forms of [_extract_dosage_form]
    with its first letter in upper case. *)
Theorem dosage_form_vocabulary (raw : value) (q q' : list issue) (r : DrugRecord) :
  transform raw q = (Some r, q') ->
  In (dosage_form r) (defaults_dosage_form :: (title <$> common_forms)).
Proof.
  intros Hrun. apply transform_inv in Hrun as (d & -> & Hbody).
  apply transform_body_fields in Hbody
    as (_ & _ & _ & _ & (qa & qb & Hform) & _).
  exact (extract_dosage_form_in _ _ _ _ Hform).
Qed.

(** *** The strength *)

Lemma first_strength_found (patterns : list re) (text m : string) :
  first_strength patterns text = Some m ->
  exists pattern, In pattern patterns /\ In m (findall pattern text).
Proof.
  induction patterns as [|p rest IH]; [discriminate|].
  cbn [first_strength]. destruct (findall p text) as [|m0 ms] eqn:Hf.
  - intros Hrun. destruct (IH Hrun) as (pattern & Hin & Hm).
    exists pattern. split; [right; exact Hin | exact Hm].
  - intros [= <-]. exists p. split; [left; reflexivity|]. rewrite Hf. left. reflexivity.
Qed.

Lemma strength_pattern_head (pattern : re) (w : string) :
  In pattern strength_patterns -> language pattern w ->
  exists c w', w = String c w' /\ isdigit c = true.
Proof.
  unfold strength_patterns. cbn [In]. intros [<-|[<-|[<-|[]]]] Hw;
    cbn [cats] in Hw; exact (language_number_head _ _ Hw).
Qed.

Lemma parse_strength_sound (text : value) (q q' : list issue) (m : string) :
  _parse_strength_from_text text q = (Ok (Some m), q') ->
  exists s, text = VStr s /\
    (exists pattern, In pattern strength_patterns /\ language pattern m) /\
    (exists before after, s = before ++ m ++ after) /\
    (exists c m', m = String c m' /\ isdigit c = true).
Proof.
  unfold _parse_strength_from_text. destruct (negb (truthy text)); [discriminate|].
  intros Hrun. peel Hrun.
  destruct text as [| | | |s| |]; try discriminate.
  unfold as_str, ret in E. unfold ret in Hrun.
  assert (a = s) by congruence. subst a.
  assert (Hm : first_strength strength_patterns s = Some m) by congruence.
  apply first_strength_found in Hm as (pattern & Hin & Hm).
  apply findall_from_sound in Hm as (Hw & Hpiece).
  exists s. split; [reflexivity|].
  split; [exists pattern; auto|]. split; [exact Hpiece|].
  exact (strength_pattern_head pattern m Hin Hw).
Qed.

Lemma strength_alternatives_sound (label : value) (fields : list string) (q q' : list issue)
    (m : string) :
  strength_alternatives label fields q = (Ok (Some m), q') ->
  exists c m', m = String c m' /\ isdigit c = true.
Proof.
  revert q. induction fields as [|field rest IH]; intros q; cbn [strength_alternatives].
  { discriminate. }
  intros Hrun. peel Hrun.
  destruct (truthy a); [|exact (IH _ Hrun)].
  peel Hrun.
  destruct (truthy_opt a0) eqn:Ht; [|exact (IH _ Hrun)].
  peel Hrun. injection Hrun as -> _.
  apply parse_strength_sound in E0 as (s & _ & _ & _ & Hhead). exact Hhead.
Qed.

Lemma extract_strength_sound (label : value) (q q' : list issue) (x : string) :
  _extract_strength label q = (Ok x, q') ->
  x = defaults_strength \/ exists c m', x = String c m' /\ isdigit c = true.
Proof.
  unfold _extract_strength. intros Hrun. peel Hrun.
  destruct (truthy_opt a0) eqn:Ht.
  - injection Hrun as <- _. destruct a0 as [m|]; [|discriminate].
    cbn [truthy_opt] in Ht. cbn [or_str]. rewrite Ht. right.
    destruct (truthy a); [|discriminate].
    apply parse_strength_sound in E0 as (s & _ & _ & _ & Hhead). exact Hhead.
  - peel Hrun. destruct a1 as [m|].
    + injection Hrun as <- _. right. exact (strength_alternatives_sound _ _ _ _ _ E1).
    + peel Hrun. injection Hrun as <- _. left. reflexivity.
Qed.

(** X8.  A strength that [_parse_strength_from_text] returns is a piece
    of the text it was given, is matched by one of the three patterns,
    and starts with a decimal digit.  So the strength of a record that
    [transform] returns is ["Not specified"] or starts with a digit. *)
Theorem strength_is_a_quantity :
  (forall (text : value) (q q' : list issue) (m : string),
     _parse_strength_from_text text q = (Ok (Some m), q') ->
     exists s, text = VStr s /\
       (exists pattern, In pattern strength_patterns /\ language pattern m) /\
       (exists before after, s = before ++ m ++ after) /\
       (exists c m', m = String c m' /\ isdigit c = true)) /\
  (forall (raw : value) (q q' : list issue) (r : DrugRecord),
     transform raw q = (Some r, q') ->
     strength r = defaults_strength \/
     exists c m', strength r = String c m' /\ isdigit c = true).
Proof.
  split; [exact parse_strength_sound|].
  intros raw q q' r Hrun. apply transform_inv in Hrun as (d & -> & Hbody).
  apply transform_body_fields in Hbody
    as (_ & _ & _ & _ & _ & (qa & qb & Hstrength) & _).
  exact (extract_strength_sound _ _ _ _ Hstrength).
Qed.

(** *** The fallback chains of the manufacturer and of the indications *)

Lemma clean_text_nonempty (v : value) (t : string) : _clean_text v = Some t -> nonempty t = true.
Proof. intros Hc. exact (proj1 (clean_text_some _ _ Hc)). Qed.

Lemma clean_html_nonempty (v : value) (t : string) :
  _clean_html_content v = Some t -> nonempty t = true.
Proof. intros Hc. exact (proj1 (clean_html_some _ _ Hc)). Qed.

(** The loop over the alternative fields, as a list operation: the first
    of the cleaned values that is there. *)
Lemma first_alternative_head (clean : value -> option string) (d : object)
    (alternatives : list string) :
  (forall v t, clean v = Some t -> nonempty t = true) ->
  snd <$> first_alternative clean d alternatives
  = head (omap (fun k => clean (get d k)) alternatives).
Proof.
  intros Hclean. induction alternatives as [|f rest IH]; [reflexivity|].
  cbn [first_alternative omap list_omap].
  destruct (clean (get d f)) as [t|] eqn:Hc; [|exact IH].
  rewrite (Hclean _ _ Hc). reflexivity.
Qed.

(** [_safe_extract_manufacturer] on a document whose label is a
    mapping, or absent. *)
Lemma manufacturer_chain (d label : object) (q : list issue) :
  get_or d "label" (VDict ∅) = VDict label ->
  exists q',
    _safe_extract_manufacturer d q
    = (Ok (default defaults_manufacturer
             (head (omap _clean_text
                      [get d "labeler"; get d "manufacturer"; get d "company";
                       get d "sponsor"; get label "labelerName"]))), q') /\
    (_clean_text (get d "labeler") <> None -> q' = q) /\
    (_clean_text (get d "labeler") = None -> exists i, q' = (q ++ [i])%list).
Proof.
  intros Hlabel. unfold _safe_extract_manufacturer.
  cbn [omap list_omap].
  destruct (_clean_text (get d "labeler")) as [m|] eqn:Hm.
  { exists q. split; [reflexivity|]. split; [reflexivity | discriminate]. }
  pose proof (first_alternative_head _clean_text d ["manufacturer"; "company"; "sponsor"]
                clean_text_nonempty) as Hhead.
  cbn [omap list_omap] in Hhead.
  destruct (first_alternative _clean_text d ["manufacturer"; "company"; "sponsor"])
    as [[f alt]|]; cbn [fmap option_fmap option_map snd] in Hhead.
  - eexists. split; [|split; [congruence | intros _; eexists; reflexivity]].
    unfold mbind, M_bind, bind, _log_quality_issue, ret. do 2 f_equal.
    destruct (_clean_text (get d "manufacturer")) as [t1|];
      [cbn in Hhead |- *; congruence|].
    destruct (_clean_text (get d "company")) as [t2|];
      [cbn in Hhead |- *; congruence|].
    destruct (_clean_text (get d "sponsor")) as [t3|];
      [cbn in Hhead |- *; congruence | discriminate].
  - destruct (_clean_text (get d "manufacturer")) as [t1|]; [discriminate|].
    destruct (_clean_text (get d "company")) as [t2|]; [discriminate|].
    destruct (_clean_text (get d "sponsor")) as [t3|]; [discriminate|].
    rewrite Hlabel. erewrite mbind_step by reflexivity.
    destruct (_clean_text (get label "labelerName")) as [t4|];
      (eexists; split; [reflexivity|]; split; [congruence | intros _; eexists; reflexivity]).
Qed.

(** [_safe_extract_indications] on a label that is a mapping. *)
Lemma indications_chain (label : object) (q : list issue) :
  exists q',
    _safe_extract_indications (VDict label) q
    = (Ok (default defaults_indications
             (head (omap (fun k => _clean_html_content (get label k))
                      ["indicationsAndUsage"; "indications"; "usage"; "indication"]))), q') /\
    (_clean_html_content (get label "indicationsAndUsage") <> None -> q' = q) /\
    (_clean_html_content (get label "indicationsAndUsage") = None ->
     exists i, q' = (q ++ [i])%list).
Proof.
  unfold _safe_extract_indications. erewrite mbind_step by reflexivity.
  cbn [omap list_omap].
  destruct (_clean_html_content (get label "indicationsAndUsage")) as [i0|] eqn:Hi0.
  { exists q. split; [reflexivity|]. split; [reflexivity | discriminate]. }
  pose proof (first_alternative_head _clean_html_content label
                ["indications"; "usage"; "indication"] clean_html_nonempty) as Hhead.
  cbn [omap list_omap] in Hhead.
  destruct (first_alternative _clean_html_content label ["indications"; "usage"; "indication"])
    as [[f alt]|]; cbn [fmap option_fmap option_map snd] in Hhead.
  - eexists. split; [|split; [congruence | intros _; eexists; reflexivity]].
    unfold mbind, M_bind, bind, _log_quality_issue, ret. do 2 f_equal.
    destruct (_clean_html_content (get label "indications")) as [t1|];
      [cbn in Hhead |- *; congruence|].
    destruct (_clean_html_content (get label "usage")) as [t2|];
      [cbn in Hhead |- *; congruence|].
    destruct (_clean_html_content (get label "indication")) as [t3|];
      [cbn in Hhead |- *; congruence | discriminate].
  - destruct (_clean_html_content (get label "indications")) as [t1|]; [discriminate|].
    destruct (_clean_html_content (get label "usage")) as [t2|]; [discriminate|].
    destruct (_clean_html_content (get label "indication")) as [t3|]; [discriminate|].
    eexists. split; [reflexivity|]. split; [congruence | intros _; eexists; reflexivity].
Qed.

(** X9.  The manufacturer of a record is the first of [labeler],
    [manufacturer], [company], [sponsor] and the [labelerName] of the label
    that is left non-empty by [_clean_text], cleaned, and
    ["Unknown Manufacturer"] when none is; the indications are the first
    of [indicationsAndUsage], [indications], [usage], [indication] of the
    label that is left non-empty by [_clean_html_content], cleaned, and
    ["Not available"] when none is.  Neither method ever returns nothing.
    One issue is logged unless the first field of the chain was used. *)
Theorem fallback_chains (d label : object) (q : list issue) :
  (get_or d "label" (VDict ∅) = VDict label ->
   exists q',
     _safe_extract_manufacturer d q
     = (Ok (default defaults_manufacturer
              (head (omap _clean_text
                       [get d "labeler"; get d "manufacturer"; get d "company";
                        get d "sponsor"; get label "labelerName"]))), q') /\
     (_clean_text (get d "labeler") <> None -> q' = q) /\
     (_clean_text (get d "labeler") = None -> exists i, q' = (q ++ [i])%list)) /\
  (exists q',
     _safe_extract_indications (VDict label) q
     = (Ok (default defaults_indications
              (head (omap (fun k => _clean_html_content (get label k))
                       ["indicationsAndUsage"; "indications"; "usage"; "indication"]))), q') /\
     (_clean_html_content (get label "indicationsAndUsage") <> None -> q' = q) /\
     (_clean_html_content (get label "indicationsAndUsage") = None ->
      exists i, q' = (q ++ [i])%list)).
Proof. split; [apply manufacturer_chain | apply indications_chain]. Qed.

(** *** A document without a label *)

Lemma attr_get_state (v : value) (k : string) (q q' : list issue) (res : result value) :
  attr_get v k q = (res, q') -> q' = q.
Proof. unfold attr_get, ret, raise. destruct v; congruence. Qed.

Lemma safe_extract_drug_name_appends (d : object) (q q' : list issue) (res : result (option string)) :
  _safe_extract_drug_name d q = (res, q') -> exists ext, q' = (q ++ ext)%list.
Proof.
  unfold _safe_extract_drug_name.
  destruct (truthy_opt _).
  { intros [= _ <-]. exists []. symmetry. apply app_nil_r. }
  destruct (first_alternative _ _ _) as [[f alt]|].
  { intros [= _ <-]. eexists. reflexivity. }
  unfold mbind, M_bind, bind.
  destruct (attr_get _ _ q) as [[a|] q1] eqn:Hget.
  - apply attr_get_state in Hget as ->.
    destruct (truthy_opt (_clean_text a)).
    + intros [= _ <-]. eexists. reflexivity.
    + intros [= _ <-]. exists []. symmetry. apply app_nil_r.
  - apply attr_get_state in Hget as ->.
    intros [= _ <-]. exists []. symmetry. apply app_nil_r.
Qed.

Lemma resolve_name_cleaned (d : object) (n : string) :
  resolve_name d = Some n -> _clean_text (VStr n) = Some n.
Proof.
  unfold resolve_name. generalize (name_candidates d). intros l.
  induction l as [|v l IH]; [discriminate|].
  cbn [first_trimmed]. destruct (trimmed v) as [t|] eqn:Ht; [|exact IH].
  intros [= <-]. rewrite <- clean_text_trimmed in Ht.
  apply clean_text_normalized in Ht as [-> Hn]. exact (clean_text_again _ Hn).
Qed.

(** The extractors on a label without content. *)
Lemma empty_label_fields (drug_name : string) (q : list issue) :
  let label := VDict ∅ in
  let log t desc := {| type := t; description := desc |} in
  _extract_generic_name label q = (Ok None, q) /\
  _extract_brand_name drug_name label q = (Ok (_clean_text (VStr drug_name)), q) /\
  _extract_dosage_form label q
  = (Ok "Unknown", (q ++ [log "Missing dosage form" "Using default dosage form"])%list) /\
  _extract_strength label q
  = (Ok "Not specified", (q ++ [log "Missing strength" "Using default strength"])%list) /\
  _extract_route label q
  = (Ok "Unknown", (q ++ [log "Missing route" "Using default route"])%list) /\
  _extract_ndc label q = (Ok None, q) /\
  _extract_approval_date label q = (Ok None, q) /\
  _safe_extract_indications label q
  = (Ok "Not available", (q ++ [log "Missing indications" "Using default indications"])%list) /\
  (forall k, attr_get label k q = (Ok VNone, q)) /\
  _clean_html_content VNone = None.
Proof.
  cbn zeta. repeat split; try reflexivity.
Qed.

(** X10.  A document without a label, or with an empty one, whose name
    resolves is not rejected: the record has the resolved name, also as
    brand name, the defaults ["Unknown"], ["Not specified"], ["Unknown"]
    and ["Not available"] for dosage form, strength, route and
    indications, nothing in the optional fields, and the identifiers of
    the document; the issues logged are the missing label, what the name
    and the manufacturer needed, and the four defaults. *)
Theorem transform_without_label (d : object) (q : list issue) (n : string) :
  get_or d "label" (VDict ∅) = VDict ∅ ->
  resolve_name d = Some n ->
  exists r q' mid,
    transform (VDict d) q = (Some r, q') /\
    name r = n /\ brand_name r = Some n /\ generic_name r = None /\
    dosage_form r = "Unknown" /\ strength r = "Not specified" /\ route r = "Unknown" /\
    indications r = "Not available" /\
    ndc r = None /\ approval_date r = None /\ fda_application_number r = None /\
    contraindications r = None /\ warnings r = None /\ precautions r = None /\
    adverse_reactions r = None /\ dosage_and_administration r = None /\
    how_supplied r = None /\ clinical_pharmacology r = None /\
    mechanism_of_action r = None /\ pharmacokinetics r = None /\
    set_id r = get d "setId" /\ slug r = get d "slug" /\
    type <$> q'
    = ("Missing label" :: mid ++
       ["Missing dosage form"; "Missing strength"; "Missing route"; "Missing indications"])%list.
Proof.
  intros Hlabel Hname.
  unfold transform, transform_body. rewrite Hlabel.
  erewrite mbind_step by reflexivity.
  erewrite mbind_step by reflexivity.
  match goal with |- context [(_safe_extract_drug_name d ≫= _) ?q1] =>
    pose proof (safe_extract_drug_name_spec d q1) as Hspec end.
  rewrite Hname in Hspec. destruct Hspec as (Hne & q2 & Hrun).
  destruct (safe_extract_drug_name_appends _ _ _ _ Hrun) as (ext1 & ->).
  erewrite mbind_step by exact Hrun.
  cbv beta iota. rewrite Hne. cbn [negb].
  match goal with |- context [(_safe_extract_manufacturer d ≫= _) ?q2] =>
    destruct (manufacturer_chain d ∅ q2 Hlabel) as (q3 & Hrun3 & Hsame & Hone);
    assert (Hext : exists ext2, q3 = (q2 ++ ext2)%list)
  end.
  { destruct (_clean_text (get d "labeler")) eqn:Hl.
    - rewrite Hsame by discriminate. exists []. symmetry. apply app_nil_r.
    - destruct (Hone eq_refl) as (i & ->). eexists. reflexivity. }
  destruct Hext as (ext2 & ->). clear Hsame Hone.
  erewrite mbind_step by exact Hrun3.
  match goal with |- context [(_extract_generic_name _ ≫= _) ?q3] =>
    destruct (empty_label_fields n q3) as (Hgen & Hbrand & _) end.
  erewrite mbind_step by exact Hgen.
  erewrite mbind_step by exact Hbrand.
  match goal with |- context [(_extract_dosage_form _ ≫= _) ?q3] =>
    destruct (empty_label_fields n q3) as (_ & _ & Hform & _) end.
  erewrite mbind_step by exact Hform.
  match goal with |- context [(_extract_strength _ ≫= _) ?q3] =>
    destruct (empty_label_fields n q3) as (_ & _ & _ & Hstrength & _) end.
  erewrite mbind_step by exact Hstrength.
  match goal with |- context [(_extract_route _ ≫= _) ?q3] =>
    destruct (empty_label_fields n q3) as (_ & _ & _ & _ & Hroute & _) end.
  erewrite mbind_step by exact Hroute.
  match goal with |- context [(_extract_ndc _ ≫= _) ?q3] =>
    destruct (empty_label_fields n q3) as (_ & _ & _ & _ & _ & Hndc & Hdate & Hind & _) end.
  erewrite mbind_step by exact Hndc.
  erewrite mbind_step by exact Hdate.
  erewrite mbind_step by exact Hind.
  do 6 (erewrite mbind_step by reflexivity).
  match goal with |- context [(_extract_mechanism_of_action _ ≫= _) ?q3] =>
    destruct (extract_sections_mapping ∅ q3) as (Hmech & Hpk) end.
  erewrite mbind_step by exact Hmech.
  erewrite mbind_step by exact Hpk.
  eexists. eexists. exists (type <$> (ext1 ++ ext2))%list.
  split; [reflexivity|]. cbn.
  rewrite (resolve_name_cleaned d n Hname).
  repeat (split; [reflexivity|]).
  rewrite !fmap_app. cbn. rewrite <- !app_assoc. reflexivity.
Qed.

(** X11.  The brand name of a record that [transform] returns is decided
    by the [title] of the label.  When the title is a non-empty string that
    differs from the name of the record by more than case, the brand name
    is that title, cleaned (nothing, when the title is blank).  In every
    other case - no title, a title that is empty or another falsy value, a
    title that is the name up to case - it is the name.  A title that is
    truthy and not a string gives no record. *)
Theorem brand_name_source (raw : value) (q q' : list issue) (r : DrugRecord) :
  transform raw q = (Some r, q') ->
  exists d label,
    raw = VDict d /\ get_or d "label" (VDict ∅) = VDict label /\
    (truthy (get_or label "title" (VStr "")) = true ->
     exists title, label !! "title" = Some (VStr title)) /\
    brand_name r
    = match label !! "title" with
      | Some (VStr title) =>
          if nonempty title && negb (bool_decide (upper title = upper (name r)))
          then _clean_text (VStr title)
          else Some (name r)
      | _ => Some (name r)
      end.
Proof.
  intros Hrun. apply transform_inv in Hrun as (d & -> & Hbody).
  apply transform_body_fields in Hbody
    as ((qa & qb & Hname) & _ & _ & (qc & qd & Hbrand) & _).
  apply safe_extract_drug_name_cleaned in Hname as (v & Hv).
  apply clean_text_normalized in Hv as [Hv Hn].
  assert (Hsame : _clean_text (VStr (name r)) = Some (name r))
    by (rewrite Hv in Hn |- *; exact (clean_text_again _ Hn)).
  unfold _extract_brand_name in Hbrand. peel Hbrand.
  destruct (get_or d "label" (VDict ∅)) as [| | | | | |label] eqn:Hlabel; try discriminate.
  unfold attr_get_or, ret in E. injection E as <- _.
  exists d, label. split; [reflexivity|]. split; [exact Hlabel|].
  destruct (truthy (get_or label "title" (VStr ""))) eqn:Htitle.
  2:{ split; [discriminate|]. unfold ret in Hbrand.
      unfold get_or in Htitle. destruct (label !! "title") as [t|]; [|congruence].
      cbn [default from_option id] in Htitle.
      destruct t as [| | | |title| |]; try congruence.
      cbn [truthy] in Htitle. rewrite Htitle. cbn [andb]. congruence. }
  peel Hbrand.
  unfold get_or in *. destruct (label !! "title") as [t|] eqn:Ht; [|discriminate].
  cbn [default from_option id] in *.
  destruct t as [| | | |title| |]; try discriminate.
  split; [intros _; exists title; reflexivity|].
  unfold as_str, ret in E. injection E as <- _.
  cbn [truthy] in Htitle. rewrite Htitle. cbn [andb].
  destruct (bool_decide (upper title = upper (name r))); cbn [negb] in Hbrand |- *;
    unfold ret in Hbrand; congruence.
Qed.

(** *** The generic name read off the title *)

Lemma has_char_append (c : ascii) (a b : string) :
  has_char c (a ++ b) = has_char c a || has_char c b.
Proof.
  induction a as [|x a IH]; [reflexivity|].
  rewrite append_cons. cbn [has_char]. rewrite IH. apply orb_assoc.
Qed.

Lemma split_at_first (sep : ascii) (a b : string) :
  has_char sep a = false ->
  split sep (a ++ String sep b) = a :: split sep b.
Proof.
  induction a as [|x a IH].
  - intros _. change (split sep (String sep b) = "" :: split sep b).
    cbn [split]. rewrite Ascii.eqb_refl. reflexivity.
  - cbn [has_char]. intros Hx. apply orb_false_elim in Hx as [Hx Ha].
    rewrite append_cons. cbn [split]. rewrite Ascii.eqb_sym, Hx, (IH Ha). reflexivity.
Qed.

Lemma rstrip_by_none (p : ascii -> bool) (s : string) :
  (forall c, has_char c s = true -> p c = false) -> rstrip_by p s = s.
Proof.
  induction s as [|x s IH]; [reflexivity|].
  intros Hall. cbn [rstrip_by]. rewrite IH.
  - destruct s; [|reflexivity]. rewrite (Hall x); [reflexivity | apply has_char_self].
  - intros c Hc. apply Hall. cbn [has_char]. rewrite Hc. apply orb_true_r.
Qed.

Lemma rstrip_by_last (p : ascii -> bool) (s : string) (c : ascii) :
  p c = true -> rstrip_by p (s ++ String c "") = rstrip_by p s.
Proof.
  intros Hc. induction s as [|x s IH].
  - change (rstrip_by p (String c "") = ""). cbn [rstrip_by]. rewrite Hc. reflexivity.
  - rewrite append_cons. cbn [rstrip_by]. rewrite IH. reflexivity.
Qed.

(** X12.  Without a [genericName], the generic name is read off the
    title only when the title has the word "generic" in it, in any case,
    and an opening parenthesis: on a title [before(inside)] it is
    [inside], cleaned.  A title without the word, or without a
    parenthesis, gives no generic name. *)
Theorem generic_name_from_title (label : object) (q : list issue) (title : string) :
  truthy (get label "genericName") = false ->
  label !! "title" = Some (VStr title) ->
  (contains "generic" (lower title) = false ->
   _extract_generic_name (VDict label) q = (Ok None, q)) /\
  (has_char "(" title = false ->
   _extract_generic_name (VDict label) q = (Ok None, q)) /\
  (forall before inside,
     title = before ++ "(" ++ inside ++ ")" ->
     contains "generic" (lower title) = true ->
     has_char "(" before = false ->
     has_char "(" inside = false ->
     has_char ")" inside = false ->
     _extract_generic_name (VDict label) q = (Ok (_clean_text (VStr inside)), q)).
Proof.
  intros Hgeneric Htitle.
  assert (Hrun : _extract_generic_name (VDict label) q
                 = (if contains "generic" (lower title)
                    then match split "(" title with
                         | _ :: part1 :: _ =>
                             ret (_clean_text (VStr (rstrip_by (Ascii.eqb ")") part1)))
                         | _ => ret None
                         end
                    else ret None) q).
  { unfold _extract_generic_name.
    erewrite mbind_step by reflexivity. rewrite Hgeneric.
    erewrite mbind_step by reflexivity.
    unfold get_or. rewrite Htitle. cbn [default from_option id].
    erewrite mbind_step by reflexivity. reflexivity. }
  rewrite Hrun. split; [|split].
  - intros ->. reflexivity.
  - intros Hparen. rewrite (split_absent _ _ Hparen).
    destruct (contains _ _); reflexivity.
  - intros before inside Heq Hword Hbefore Hinside Hclose.
    rewrite Hword, Heq.
    change (before ++ "(" ++ inside ++ ")") with (before ++ String "(" (inside ++ ")")).
    rewrite (split_at_first _ _ _ Hbefore).
    rewrite split_absent by (rewrite has_char_append, Hinside; reflexivity).
    rewrite (rstrip_by_last _ inside ")" eq_refl).
    rewrite rstrip_by_none; [reflexivity|].
    intros c Hc. destruct (Ascii.eqb ")" c) eqn:Heqb; [|reflexivity].
    apply Ascii.eqb_eq in Heqb. subst c. congruence.
Qed.

(** *** The NDC *)

Lemma lit_dash (d : ascii) : lower_char d = lower_char "-" -> d = "-"%char.
Proof.
  destruct d as [b0 b1 b2 b3 b4 b5 b6 b7].
  destruct b0, b1, b2, b3, b4, b5, b6, b7; vm_compute; congruence.
Qed.

(** One digit, one optional digit, one dash of a text of the language of
    [ndc_group]. *)
Ltac digit H d Hd :=
  let w1 := fresh "w" in
  let L := fresh "L" in
  apply language_cat_inv in H as (w1 & ? & -> & L & H);
  apply language_cls_inv in L as (d & -> & Hd).

Ltac optional H o Ho :=
  let L := fresh "L" in
  apply language_cat_inv in H as (o & ? & -> & L & H);
  apply language_opt_inv in L as Ho.

Ltac dash H :=
  let w1 := fresh "w" in
  let L := fresh "L" in
  let d := fresh "d" in
  let Hd := fresh "Hd" in
  apply language_cat_inv in H as (w1 & ? & -> & L & H);
  apply language_lit_inv in L as (d & -> & Hd);
  apply lit_dash in Hd; subst d.

Lemma ndc_group_layout (w : string) :
  language ndc_group w ->
  exists a b c,
    w = a ++ "-" ++ b ++ "-" ++ c /\
    Examples.all_digits a = true /\ Examples.all_digits b = true /\
    Examples.all_digits c = true /\
    (String.length a = 4 \/ String.length a = 5) /\
    (String.length b = 3 \/ String.length b = 4) /\
    String.length c = 2.
Proof.
  unfold ndc_group. cbn [cats]. intros Hw.
  digit Hw d1 Hd1. digit Hw d2 Hd2. digit Hw d3 Hd3. digit Hw d4 Hd4.
  optional Hw o1 Ho1. dash Hw.
  digit Hw d5 Hd5. digit Hw d6 Hd6. digit Hw d7 Hd7.
  optional Hw o2 Ho2. dash Hw.
  digit Hw d8 Hd8. apply language_cls_inv in Hw as (d9 & -> & Hd9).
  assert (Ho : forall o, o = "" \/ language (Cls isdigit) o ->
                 Examples.all_digits o = true /\ String.length o <= 1 /\
                 (String.length o = 0 \/ String.length o = 1)).
  { intros o [->|Ho]; [cbn; auto|].
    apply language_cls_inv in Ho as (d & -> & Hd). cbn. rewrite Hd. auto. }
  destruct (Ho o1 Ho1) as (Ha1 & _ & Hl1), (Ho o2 Ho2) as (Ha2 & _ & Hl2).
  exists (String d1 (String d2 (String d3 (String d4 o1)))),
         (String d5 (String d6 (String d7 o2))),
         (String d8 (String d9 "")).
  split; [reflexivity|].
  cbn [Examples.all_digits String.length].
  rewrite Hd1, Hd2, Hd3, Hd4, Hd5, Hd6, Hd7, Hd8, Hd9, Ha1, Ha2.
  repeat split; try reflexivity; lia.
Qed.

(** X13.  An NDC that [_extract_ndc] returns is a piece of the cleaned
    [howSupplied] text and has the layout of the pattern: four or five
    digits, a dash, three or four digits, a dash, two digits. *)
Theorem ndc_layout (label : object) (q q' : list issue) (w : string) :
  _extract_ndc (VDict label) q = (Ok (Some w), q') ->
  (exists before after,
     or_str (_clean_html_content (get_or label "howSupplied" (VStr ""))) ""
     = before ++ w ++ after) /\
  exists a b c,
    w = a ++ "-" ++ b ++ "-" ++ c /\
    Examples.all_digits a = true /\ Examples.all_digits b = true /\
    Examples.all_digits c = true /\
    (String.length a = 4 \/ String.length a = 5) /\
    (String.length b = 3 \/ String.length b = 4) /\
    String.length c = 2.
Proof.
  unfold _extract_ndc. intros Hrun. peel Hrun.
  unfold attr_get_or, ret in E. injection E as <- _.
  destruct (truthy (get_or label "howSupplied" (VStr ""))); [|discriminate].
  unfold ret in Hrun.
  match type of Hrun with
  | (Ok ?x, _) = _ => assert (Hs : x = Some w) by congruence
  end.
  apply search_group_sound in Hs as (Hw & Hpiece).
  split; [exact Hpiece | exact (ndc_group_layout w Hw)].
Qed.

End Props.

Import Examples.

(** X4, on a manufacturer with spaces around and inside. *)
Lemma cleaned_text_normal_form_witness :
  _clean_text (VStr "  Eli   Lilly ") = Some "Eli Lilly" /\
  _clean_text (VStr "Eli Lilly") = Some "Eli Lilly".
Proof.
  split; [vm_compute; reflexivity|].
  destruct (cleaned_text_normal_form (VStr "  Eli   Lilly ") "Eli Lilly") as [_ Hform].
  destruct Hform as (_ & _ & _ & _ & Hagain); [left; vm_compute; reflexivity|].
  exact Hagain.
Defined.

(** X5, on the test document of the module. *)
Lemma transform_then_validate_witness :
  exists r q,
    transform (VDict emgality_doc) [] = (Some r, q) /\
    Seeder._validate_record r = true.
Proof.
  eexists. eexists. split; [vm_compute; reflexivity|].
  eapply (transform_then_validate (VDict emgality_doc) []); [vm_compute; reflexivity|].
  split; vm_compute; lia.
Defined.

(** X6, on the test document of the module: no route is found, the
    default is in the list. *)
Lemma route_vocabulary_witness :
  exists r q,
    transform (VDict emgality_doc) [] = (Some r, q) /\
    In (route r) (defaults_route :: (snd <$> routes)).
Proof.
  eexists. eexists. split; [vm_compute; reflexivity|].
  eapply (route_vocabulary (VDict emgality_doc) []). vm_compute. reflexivity.
Defined.

(** X7, on the test document of the module, whose form is
    ["Injection"]. *)
Lemma dosage_form_vocabulary_witness :
  exists r q,
    transform (VDict emgality_doc) [] = (Some r, q) /\
    dosage_form r = "Injection" /\
    In (dosage_form r) (defaults_dosage_form :: (title <$> common_forms)).
Proof.
  eexists. eexists. split; [vm_compute; reflexivity|].
  split; [reflexivity|].
  eapply (dosage_form_vocabulary (VDict emgality_doc) []). vm_compute. reflexivity.
Defined.

(** X8, on the strength text of the test document. *)
Lemma strength_is_a_quantity_witness :
  exists before after, strength_text = before ++ "120 mg" ++ after.
Proof.
  destruct strength_is_a_quantity as [Hparse _].
  destruct (Hparse (VStr strength_text) [] [] "120 mg") as (s & Hs & _ & Hpiece & _);
    [vm_compute; reflexivity|].
  injection Hs as <-. exact Hpiece.
Defined.

(** X9, on a document without a label. *)
Lemma fallback_chains_witness :
  exists q', _safe_extract_manufacturer unlabelled_doc [] = (Ok "Test Manufacturer", q').
Proof.
  destruct (fallback_chains unlabelled_doc ∅ []) as [Hman _].
  destruct Hman as (q' & Hrun & _); [vm_compute; reflexivity|].
  exists q'. rewrite Hrun. vm_compute. reflexivity.
Defined.

(** X10, on the document of the test named "Missing label entirely". *)
Lemma transform_without_label_witness :
  exists r q',
    transform (VDict unlabelled_doc) [] = (Some r, q') /\
    name r = "Test Drug" /\ dosage_form r = "Unknown" /\ indications r = "Not available".
Proof.
  destruct (transform_without_label unlabelled_doc [] "Test Drug")
    as (r & q' & mid & Hrun & Hname & _ & _ & Hform & _ & _ & Hind & _).
  - vm_compute. reflexivity.
  - vm_compute. reflexivity.
  - exists r, q'. auto.
Defined.

(** X11, on a document whose title is the name with a word more: the
    brand name is the title, cleaned, and not the name. *)
Lemma brand_name_source_witness :
  exists r q,
    transform (VDict titled_doc) [] = (Some r, q) /\
    name r = "Emgality" /\
    brand_name r = Some "EMGALITY Pen".
Proof.
  destruct (transform (VDict titled_doc) []) as [[r|] q] eqn:Hrun;
    [|vm_compute in Hrun; discriminate].
  exists r, q. split; [reflexivity|].
  destruct (brand_name_source (VDict titled_doc) [] q r Hrun)
    as (d & label & Hd & Hlabel & _ & Hbrand).
  injection Hd as <-. vm_compute in Hlabel. injection Hlabel as <-.
  assert (Hname : name r = "Emgality")
    by (vm_compute in Hrun; injection Hrun as <- _; reflexivity).
  split; [exact Hname|].
  rewrite Hbrand, Hname. vm_compute. reflexivity.
Defined.

(** X12, on a title with the generic name in parentheses. *)
Lemma generic_name_from_title_witness :
  _extract_generic_name (VDict {[ "title" := VStr "Emgality (generic galcanezumab)" ]}) []
  = (Ok (Some "generic galcanezumab"), []).
Proof.
  destruct (generic_name_from_title {[ "title" := VStr "Emgality (generic galcanezumab)" ]} []
              "Emgality (generic galcanezumab)") as (_ & _ & Hinside);
    [reflexivity | reflexivity |].
  rewrite (Hinside "Emgality " "generic galcanezumab"); try reflexivity.
Defined.

(** X13, on a carton line. *)
Lemma ndc_layout_witness :
  _extract_ndc (VDict ndc_label) [] = (Ok (Some "0002-1436-11"), []) /\
  exists a b c,
    "0002-1436-11" = a ++ "-" ++ b ++ "-" ++ c /\
    all_digits a = true /\ all_digits b = true /\ all_digits c = true /\
    (String.length a = 4 \/ String.length a = 5) /\
    (String.length b = 3 \/ String.length b = 4) /\
    String.length c = 2.
Proof.
  split; [vm_compute; reflexivity|].
  eapply (ndc_layout ndc_label [] []). vm_compute. reflexivity.
Defined.

End TransformerProps.

(* ================================================================== *)
(** ** The loader: validation, accounting, transactions, integrity *)
(* ================================================================== *)

Module SeederProps.
Import Json Exc PyStr Seeder SeederFacts TextProps.
Import Transformer (DrugRecord).

#[local] Open Scope list_scope.

(** *** Validation *)

Lemma has_char_nonempty (c : ascii) (s : string) : has_char c s = true -> nonempty s = true.
Proof. destruct s; [discriminate | reflexivity]. Qed.

(** The test of [_validate_record] for a field that is required: the
    field is not blank exactly when it has a character that is not
    whitespace. *)
Lemma not_blank_visible (s : string) :
  negb (nonempty s) || (String.length (strip s) =? 0)%nat = false <-> visible s.
Proof.
  split.
  - intros Hb. apply orb_false_elim in Hb as [_ Hlen].
    destruct (strip s) as [|c r] eqn:Hs; [discriminate|].
    exists c. exact (strip_head s c r Hs).
  - intros (c & Hin & Hc).
    rewrite (has_char_nonempty c s Hin). cbn [negb orb].
    destruct (strip s) as [|d r] eqn:Hs; [|reflexivity].
    rewrite (strip_blank s Hs c Hin) in Hc. discriminate.
Qed.

(** X14.  [_validate_record] accepts a record exactly when its name, its
    manufacturer and its indications each have a character that is not
    whitespace, and its name and its manufacturer have at most 255
    characters, whitespace around them counted.  The length of the
    indications is not bounded. *)
Theorem validate_record_criterion (record : DrugRecord) :
  _validate_record record = true <->
  visible (Transformer.name record) /\
  visible (Transformer.manufacturer record) /\
  visible (Transformer.indications record) /\
  String.length (Transformer.name record) <= 255 /\
  String.length (Transformer.manufacturer record) <= 255.
Proof.
  unfold _validate_record. cbv zeta beta.
  pose proof (not_blank_visible (Transformer.name record)) as H1.
  pose proof (not_blank_visible (Transformer.manufacturer record)) as H2.
  pose proof (not_blank_visible (Transformer.indications record)) as H3.
  destruct (negb (nonempty (Transformer.name record)) || _);
    destruct (negb (nonempty (Transformer.manufacturer record)) || _);
    destruct (negb (nonempty (Transformer.indications record)) || _);
    cbn [orb negb];
    try (split; [discriminate | intros (V1 & V2 & V3 & _)];
         apply H1 in V1; apply H2 in V2; apply H3 in V3; congruence).
  rewrite negb_true_iff, orb_false_iff, !Nat.ltb_ge.
  split.
  - intros [Hn Hm]. repeat split; auto; [apply H1 | apply H2 | apply H3]; reflexivity.
  - intros (_ & _ & _ & Hn & Hm). auto.
Qed.

(** *** Running the methods under an invariant *)

Lemma triple_bind {A B} (P : seeder -> Prop) (c : St A) (Q1 : result A -> seeder -> Prop)
    (k : A -> St B) (Q : result B -> seeder -> Prop) :
  triple P c Q1 ->
  (forall a, triple (Q1 (Ok a)) (k a) Q) ->
  (forall st, Q1 Raise st -> Q Raise st) ->
  triple P (c ≫= k) Q.
Proof.
  intros Hc Hk Hr st res st' HP Hrun.
  apply bind_inv in Hrun as [(a & st1 & Hc1 & Hk1)|(-> & Hc1)].
  - exact (Hk a st1 res st' (Hc st (Ok a) st1 HP Hc1) Hk1).
  - exact (Hr st' (Hc st Raise st' HP Hc1)).
Qed.

Lemma triple_weaken {A} (P P' : seeder -> Prop) (c : St A) (Q Q' : result A -> seeder -> Prop) :
  triple P' c Q' ->
  (forall st, P st -> P' st) ->
  (forall res st, Q' res st -> Q res st) ->
  triple P c Q.
Proof. intros Hc HP HQ st res st' Hst Hrun. exact (HQ _ _ (Hc _ _ _ (HP _ Hst) Hrun)). Qed.

Lemma triple_ret {A} (P : seeder -> Prop) (Q : result A -> seeder -> Prop) (a : A) :
  (forall st, P st -> Q (Ok a) st) -> triple P (mret a) Q.
Proof. intros HQ st res st' HP [= <- <-]. auto. Qed.

Lemma keeps_ret {A} (I : seeder -> Prop) (a : A) : triple I (mret a : St A) (fun _ => I).
Proof. apply triple_ret. auto. Qed.

Lemma keeps_raise {A} (I : seeder -> Prop) : triple I (raise : St A) (fun _ => I).
Proof. intros st res st' HP [= <- <-]. exact HP. Qed.

Lemma keeps_bind {A B} (I : seeder -> Prop) (c : St A) (k : A -> St B) :
  triple I c (fun _ => I) -> (forall a, triple I (k a) (fun _ => I)) ->
  triple I (c ≫= k) (fun _ => I).
Proof. intros Hc Hk. exact (triple_bind I c (fun _ => I) k (fun _ => I) Hc Hk (fun _ H => H)). Qed.

Lemma keeps_try {A} (I : seeder -> Prop) (c : St A) :
  triple I c (fun _ => I) -> triple I (try c) (fun _ => I).
Proof.
  intros Hc st res st' HP. unfold try.
  destruct (c st) as [r st1] eqn:Hrun. intros [= <- <-]. exact (Hc _ _ _ HP Hrun).
Qed.

(** *** What is committed changes at [commit] only *)

Section Transactions.
Context `{World}.
Variable cm : database.

(** The seeder is connected, and [cm] is what is committed. *)
Let steady (st : seeder) : Prop := exists c, conn st = Some c /\ committed c = cm.




Lemma steady_open_cursor : triple steady (on_connection OpenCursor) (fun _ => steady).
Proof.
  intros st res st' (c & Hc & Hcm). unfold on_connection. rewrite Hc.
  destruct (connection_raises _ _); intros [= <- <-]; exists c; auto.
Qed.








End Transactions.

Section Batches.
Context `{World}.


Lemma seed_drugs_batch_body_accounting (drug_records : list DrugRecord) (st st' : seeder)
    (res : result bool) (c : connection) :
  seed_drugs_batch_body drug_records st = (res, st') ->
  conn st = Some c ->
  connection_raises (tick st) OpenCursor = false ->
  exists k,
    k <= length drug_records /\
    processed (stats st') = processed (stats st) + k /\
    errors (stats st') = errors (stats st) + 2 * (length drug_records - k).
Proof.
  unfold seed_drugs_batch_body. intros Hrun Hconn Hopen.
  apply bind_inv in Hrun as [(u & st1 & Hcall & Hrun)|(-> & Hcall)];
    unfold on_connection in Hcall; rewrite Hconn, Hopen in Hcall; [|discriminate].
  injection Hcall as _ <-.
  apply bind_inv in Hrun as [(n & st2 & Hloop & Hrun)|(-> & Hloop)].
  2:{ apply process_records_counts in Hloop as (k & Hk & _). discriminate. }
  apply process_records_counts in Hloop as (k & _ & Hk & Hp & _ & He & _).
  cbn in Hp, He.
  assert (Hend : stats st' = stats st2).
  { destruct (0 <? n)%nat;
      (apply bind_inv in Hrun as [(u' & st3 & Hcall & Hrun)|(-> & Hcall)];
       [injection Hrun as <- <-|]; exact (proj1 (quiet_on_connection _ _ _ _ Hcall))). }
  exists k. rewrite Hend. auto.
Qed.

(** X16.  Every record of a batch is accounted for, whatever fails in
    the storage: once the cursor is open, each record adds one to
    [processed], or two to [errors].  So over any sequence of calls on a
    fresh seeder [errors] is even: twice the number of records that
    failed since the counters were last reset. *)
Theorem batch_accounting :
  (forall (drug_records : list DrugRecord) (st st' : seeder) (res : result bool),
     seed_drugs_batch drug_records st = (res, st') ->
     is_Some (conn st) ->
     connection_raises (tick st) OpenCursor = false ->
     exists k,
       k <= length drug_records /\
       processed (stats st') = processed (stats st) + k /\
       errors (stats st') = errors (stats st) + 2 * (length drug_records - k)) /\
  (forall calls : list call, exists failed, errors (stats (session calls)) = 2 * failed).
Proof.
  split.
  - intros drug_records st st' res Hrun [c Hconn] Hopen.
    unfold seed_drugs_batch in Hrun.
    destruct drug_records as [|record rest].
    { injection Hrun as <- <-. exists 0. cbn. lia. }
    rewrite Hconn in Hrun.
    unfold try, mbind at 1, St_bind at 1, bind at 1 in Hrun.
    destruct (seed_drugs_batch_body (record :: rest) st) as [r st1] eqn:Hbody.
    apply (seed_drugs_batch_body_accounting _ _ _ _ c) in Hbody as (k & Hk & Hp & He);
      [|exact Hconn | exact Hopen].
    assert (Hs : stats st' = stats st1).
    { destruct r as [b|].
      - injection Hrun as _ <-. reflexivity.
      - apply bind_inv in Hrun as [(u & st2 & Hcall & Hrun)|(-> & Hcall)];
          [injection Hrun as _ <-|]; exact (proj1 (quiet_on_connection _ _ _ _ Hcall)). }
    exists k. rewrite Hs. auto.
  - intros calls. induction calls as [|c calls IH] using rev_ind.
    { exists 0. reflexivity. }
    rewrite session_snoc. destruct IH as (failed & IH).
    destruct c as [db|drug_records|]; cbn [run_call].
    + exists failed. exact IH.
    + destruct (seed_drugs_batch drug_records (session calls)) as [res st'] eqn:Hrun.
      apply seed_drugs_batch_counts in Hrun as (k & e & _ & _ & He).
      exists (failed + e). cbn [snd]. lia.
    + exists 0. reflexivity.
Qed.

End Batches.

(** *** An aborted transaction has nothing to commit *)

Section Aborted.
Context `{World}.

(** When the transaction is aborted, what it sees is what is committed. *)
Let settled (st : seeder) : Prop :=
  forall c, conn st = Some c -> aborted c = true -> pending c = committed c.

Lemma settled_take_tick : triple settled take_tick (fun _ => settled).
Proof. intros st res st' Hst [= <- <-]. exact Hst. Qed.

Lemma settled_count (f : Stats -> Stats) : triple settled (count f) (fun _ => settled).
Proof. intros st res st' Hst [= <- <-]. exact Hst. Qed.

Lemma settled_execute (stmt : statement) : triple settled (execute stmt) (fun _ => settled).
Proof.
  intros st res st' Hst. unfold execute.
  destruct (conn st) as [c|] eqn:Hc; [|intros [= <- <-]; exact Hst].
  destruct (aborted c); [intros [= <- <-]; exact Hst|].
  destruct (execute_raises _ _ _).
  - destruct (aborts_transaction _ _ _); intros [= <- <-]; [|exact Hst].
    intros c' [= <-] _. reflexivity.
  - destruct (run_statement _ stmt (pending c)) as [db row].
    intros [= <- <-] c' [= <-]. discriminate.
Qed.

Lemma settled_on_connection (call : connection_call) :
  triple settled (on_connection call) (fun _ => settled).
Proof.
  intros st res st' Hst. unfold on_connection.
  destruct (conn st) as [c|] eqn:Hc; [|intros [= <- <-]; exact Hst].
  destruct (connection_raises _ _); intros [= <- <-]; [exact Hst|].
  intros c' [= <-]. destruct call; cbn; [|discriminate..].
  apply Hst. exact Hc.
Qed.

(** Prove that a method built from the primitives keeps [settled]. *)
Ltac settled_method :=
  repeat first
    [ apply keeps_ret
    | apply keeps_raise
    | apply settled_take_tick
    | apply settled_count
    | apply settled_execute
    | apply settled_on_connection
    | apply keeps_try
    | apply keeps_bind; [|intros]
    | match goal with
      | |- triple _ (if ?b then _ else _) _ => destruct b
      | |- triple _ (match ?x with _ => _ end) _ => destruct x
      end ].

Lemma settled_process_single_drug (record : DrugRecord) :
  triple settled (_process_single_drug record) (fun _ => settled).
Proof.
  unfold _process_single_drug, process_single_drug_body, _find_existing_drug,
    _update_drug, _insert_drug, _insert_drug_label, new_uuid, now.
  settled_method.
Qed.

Lemma settled_process_records (drug_records : list DrugRecord) (n : nat) :
  triple settled (process_records drug_records n) (fun _ => settled).
Proof.
  revert n. induction drug_records as [|record rest IH]; intros n; cbn [process_records].
  { apply keeps_ret. }
  apply keeps_bind; [apply keeps_try, settled_process_single_drug|].
  intros [u|]; (apply keeps_bind; [apply settled_count | intros; apply IH]).
Qed.

Lemma settled_seed_drugs_batch (drug_records : list DrugRecord) :
  triple settled (seed_drugs_batch drug_records) (fun _ => settled).
Proof.
  unfold seed_drugs_batch. destruct drug_records as [|record rest]; [apply keeps_ret|].
  assert (Hinner : triple settled
            (r ← try (seed_drugs_batch_body (record :: rest));
             match r with
             | Ok b => mret b
             | Raise => on_connection Rollback;; mret false
             end) (fun _ => settled)).
  { apply keeps_bind.
    - apply keeps_try. unfold seed_drugs_batch_body.
      apply keeps_bind; [apply settled_on_connection|]. intros _.
      apply keeps_bind; [apply settled_process_records|]. intros n.
      destruct (0 <? n)%nat;
        (apply keeps_bind; [apply settled_on_connection | intros; apply keeps_ret]).
    - intros [b|]; [apply keeps_ret|].
      apply keeps_bind; [apply settled_on_connection | intros; apply keeps_ret]. }
  intros st res st' Hst. destruct (conn st) as [c|] eqn:Hc; [|intros [= <- <-]; exact Hst].
  intros Hrun. exact (Hinner st res st' Hst Hrun).
Qed.

(** In every state a session reaches, an aborted transaction has lost
    what it did: a [COMMIT] then publishes nothing, and leaves what is
    committed as a [ROLLBACK] would. *)
Lemma aborted_transaction_nothing_pending (calls : list call) (c : connection) :
  conn (session calls) = Some c ->
  aborted c = true ->
  apply_call Commit c = apply_call Rollback c.
Proof.
  assert (Hall : settled (session calls)).
  { induction calls as [|k calls IH] using rev_ind.
    - intros c0 Hc0. discriminate.
    - rewrite session_snoc. destruct k as [db|drug_records|]; cbn [run_call].
      + intros c0 [= <-]. discriminate.
      + destruct (seed_drugs_batch drug_records (session calls)) as [res st'] eqn:Hrun.
        exact (settled_seed_drugs_batch drug_records _ _ _ IH Hrun).
      + exact IH. }
  intros Hc Hab. cbn [apply_call]. rewrite (Hall c Hc Hab). reflexivity.
Qed.

End Aborted.

(** *** Labels stay attached to drugs, whatever fails *)

Section Integrity.
Context `{World}.

Lemma intact_weaken (known known' : list string) (st : seeder) :
  (forall drug_id, In drug_id known -> In drug_id known') ->
  intact known' st -> intact known st.
Proof.
  intros Hsub (c & Hc & Hcm & Hp & Hknown). exists c. repeat split; auto.
Qed.

Lemma intact_tail (drug_id : string) (known : list string) (st : seeder) :
  intact (drug_id :: known) st -> intact known st.
Proof. apply intact_weaken. intros x Hx. right. exact Hx. Qed.

Lemma intact_take_tick (known : list string) :
  triple (intact known) take_tick (fun _ => intact known).
Proof. intros st res st' (c & Hc & Hrest) [= <- <-]. exists c. auto. Qed.

Lemma intact_count (known : list string) (f : Stats -> Stats) :
  triple (intact known) (count f) (fun _ => intact known).
Proof. intros st res st' (c & Hc & Hrest) [= <- <-]. exists c. auto. Qed.

Lemma intact_new_uuid (known : list string) :
  triple (intact known) new_uuid (fun _ => intact known).
Proof. apply keeps_bind; [apply intact_take_tick | intros; apply keeps_ret]. Qed.

Lemma intact_now (known : list string) :
  triple (intact known) now (fun _ => intact known).
Proof. apply keeps_bind; [apply intact_take_tick | intros; apply keeps_ret]. Qed.

(** The rows of a query on [drugs] are rows of [drugs]. *)
Lemma filtered_known (db : database) (p : Drugs.row -> bool) (drug_id : string) :
  In drug_id (Drugs.id <$> List.filter p (drugs db)) -> In drug_id (drug_ids db).
Proof.
  intros Hin. apply in_fmap in Hin as (d & Hd & <-).
  apply filter_In in Hd as [Hd _]. unfold drug_ids. apply in_fmap. exists d. auto.
Qed.

Lemma select_by_set_id_known (t : nat) (db : database) (v : value) (drug_id : string) :
  select_drug_by_set_id t db v = Some drug_id -> In drug_id (drug_ids db).
Proof.
  unfold select_drug_by_set_id, drugs_by_set_id. intros Hsel.
  apply limit_1_in in Hsel. exact (filtered_known _ _ _ Hsel).
Qed.

Lemma select_by_name_known (t : nat) (db : database) (n m drug_id : string) :
  select_drug_by_name t db n m = Some drug_id -> In drug_id (drug_ids db).
Proof.
  unfold select_drug_by_name, drugs_by_name. intros Hsel.
  apply limit_1_in in Hsel. exact (filtered_known _ _ _ Hsel).
Qed.

(** What a statement that does not raise does to tables that are
    referential: they stay so, no drug disappears, a drug a [SELECT]
    returns is there, and so is a drug that was inserted.  A label can be
    inserted for a drug that is there. *)
Lemma run_statement_referential (t0 : nat) (stmt : statement) (db : database) :
  referential db ->
  match stmt with
  | InsertDrugLabel r => In (DrugLabels.drug_id r) (drug_ids db)
  | _ => True
  end ->
  referential (fst (run_statement t0 stmt db)) /\
  (forall drug_id, In drug_id (drug_ids db) ->
                   In drug_id (drug_ids (fst (run_statement t0 stmt db)))) /\
  match stmt with
  | SelectDrugBySetId _ | SelectDrugByName _ _ =>
      forall drug_id, snd (run_statement t0 stmt db) = Some drug_id ->
                      In drug_id (drug_ids (fst (run_statement t0 stmt db)))
  | InsertDrug r => In (Drugs.id r) (drug_ids (fst (run_statement t0 stmt db)))
  | _ => True
  end.
Proof.
  intros Href Hside.
  destruct stmt as [v|n m|r|r|drug_id record t|drug_id|drug_id record t];
    cbn [run_statement fst snd].
  - split; [exact Href|]. split; [auto|]. apply select_by_set_id_known.
  - split; [exact Href|]. split; [auto|]. apply select_by_name_known.
  - unfold referential, drug_ids. cbn [drugs drug_labels]. rewrite fmap_app.
    split; [|split].
    + intros dl Hdl. apply in_or_app. left. exact (Href dl Hdl).
    + intros x Hx. apply in_or_app. left. exact Hx.
    + apply in_or_app. right. left. reflexivity.
  - unfold referential, drug_ids. cbn [drugs drug_labels].
    split; [|split; auto].
    intros dl Hdl. apply in_app_or in Hdl as [Hdl|[<-|[]]]; [exact (Href dl Hdl) | exact Hside].
  - unfold referential, drug_ids. cbn [drugs drug_labels]. rewrite updated_drug_ids.
    split; [exact Href | split; auto].
  - split; [exact Href | split; auto].
  - unfold referential, drug_ids. cbn [drugs drug_labels].
    split; [|split; auto].
    intros dl Hdl. apply in_fmap in Hdl as (dl0 & Hdl0 & <-).
    rewrite (proj2 (update_label_row_ids _ _ _ _)). exact (Href dl0 Hdl0).
Qed.

(** [cursor.execute]: the statement raises, and the transaction is as it
    was or is aborted, or it runs. *)
Lemma intact_execute (known : list string) (stmt : statement) :
  match stmt with
  | InsertDrugLabel r => In (DrugLabels.drug_id r) known
  | _ => True
  end ->
  triple (intact known) (execute stmt)
    (fun res st' =>
       intact known st' /\
       match stmt, res with
       | SelectDrugBySetId _, Ok (Some drug_id)
       | SelectDrugByName _ _, Ok (Some drug_id) => intact (drug_id :: known) st'
       | InsertDrug r, Ok _ => intact (Drugs.id r :: known) st'
       | _, _ => True
       end).
Proof.
  intros Hside st res st' (c & Hc & Hcm & Hp & Hknown). unfold execute. rewrite Hc.
  destruct (aborted c) eqn:Hab.
  { intros [= <- <-]. split; [|destruct stmt; exact I].
    exists c. repeat split; auto. rewrite Hab. discriminate. }
  specialize (Hknown eq_refl).
  destruct (execute_raises _ _ _).
  - destruct (aborts_transaction _ _ _); intros [= <- <-];
      (split; [|destruct stmt; exact I]).
    + eexists. split; [reflexivity|]. cbn. repeat split; auto. discriminate.
    + exists c. repeat split; auto.
  - destruct (run_statement (tick st) stmt (pending c)) as [db row] eqn:Hstmt.
    intros [= <- <-].
    destruct (run_statement_referential (tick st) stmt (pending c) Hp) as (Hp' & Hmono & Hnew).
    { destruct stmt; try exact I. apply Hknown. exact Hside. }
    rewrite Hstmt in Hp', Hmono, Hnew. cbn [fst snd] in Hp', Hmono, Hnew.
    assert (Hsame : intact known
              (with_conn (Some {| committed := committed c; pending := db; aborted := false |})
                         (with_tick (S (tick st)) st))).
    { eexists. split; [reflexivity|]. cbn. auto. }
    split; [exact Hsame|].
    destruct stmt as [v|n m|r|r|drug_id record t|drug_id|drug_id record t]; try exact I.
    + destruct row as [drug_id|]; [|exact I].
      eexists. split; [reflexivity|]. cbn. repeat split; auto.
      intros _ x [<-|Hx]; auto.
    + destruct row as [drug_id|]; [|exact I].
      eexists. split; [reflexivity|]. cbn. repeat split; auto.
      intros _ x [<-|Hx]; auto.
    + eexists. split; [reflexivity|]. cbn. repeat split; auto.
      intros _ x [<-|Hx]; auto.
Qed.

(** A statement that is not the insertion of a label keeps [intact]. *)
Lemma intact_execute_plain (known : list string) (stmt : statement) :
  match stmt with InsertDrugLabel _ => False | _ => True end ->
  triple (intact known) (execute stmt) (fun _ => intact known).
Proof.
  intros Hplain. eapply triple_weaken; [apply (intact_execute known stmt) | auto |].
  - destruct stmt; try exact I. contradiction.
  - cbv beta; intros res st [Hst _]. exact Hst.
Qed.

Lemma intact_find_existing_drug (known : list string) (record : DrugRecord) :
  triple (intact known) (_find_existing_drug record)
    (fun res st' =>
       intact known st' /\
       forall drug_id, res = Ok (Some drug_id) -> intact (drug_id :: known) st').
Proof.
  unfold _find_existing_drug.
  apply (triple_bind _ _
           (fun res st' =>
              intact known st' /\
              forall drug_id, res = Ok (Some drug_id) -> intact (drug_id :: known) st')).
  - destruct (truthy _).
    + eapply triple_weaken; [apply (intact_execute known); exact I | auto |].
      cbv beta; intros res st [Hst Hfound]. split; [exact Hst|].
      intros drug_id ->. exact Hfound.
    + apply triple_ret. cbv beta. intros st Hst. split; [exact Hst | discriminate].
  - intros [drug_id|].
    + apply triple_ret. cbv beta; intros st [Hst Hfound]. split; [exact Hst|].
      intros x [= <-]. apply Hfound. reflexivity.
    + eapply triple_weaken; [apply (intact_execute known); exact I | |].
      * cbv beta; intros st [Hst _]. exact Hst.
      * cbv beta; intros res st [Hst Hfound]. split; [exact Hst|].
        intros drug_id ->. exact Hfound.
  - cbv beta; intros st [Hst _]. split; [exact Hst | discriminate].
Qed.

Lemma intact_insert_drug (known : list string) (record : DrugRecord) :
  triple (intact known) (_insert_drug record)
    (fun res st' =>
       intact known st' /\
       forall drug_id, res = Ok drug_id -> intact (drug_id :: known) st').
Proof.
  unfold _insert_drug.
  eapply triple_bind; [apply intact_new_uuid | | cbv beta; intros st Hst; split; [exact Hst | discriminate]].
  intros drug_id.
  eapply triple_bind; [apply intact_now | | cbv beta; intros st Hst; split; [exact Hst | discriminate]].
  intros created.
  eapply triple_bind; [apply intact_now | | cbv beta; intros st Hst; split; [exact Hst | discriminate]].
  intros updated.
  eapply triple_bind; [apply (intact_execute known); exact I | |].
  - intros row. apply triple_ret. cbv beta; intros st [Hst Hnew]. split; [exact Hst|].
    intros x [= <-]. exact Hnew.
  - cbv beta; intros st [Hst _]. split; [exact Hst | discriminate].
Qed.

Lemma intact_insert_drug_label (known : list string) (drug_id : string) (record : DrugRecord) :
  In drug_id known ->
  triple (intact known) (_insert_drug_label drug_id record) (fun _ => intact known).
Proof.
  intros Hin. unfold _insert_drug_label.
  apply keeps_bind; [apply intact_new_uuid|]. intros label_id.
  apply keeps_bind; [apply intact_now|]. intros created.
  apply keeps_bind; [apply intact_now|]. intros updated.
  apply keeps_bind; [|intros; apply keeps_ret].
  eapply triple_weaken; [apply (intact_execute known); exact Hin | auto |].
  cbv beta; intros res st [Hst _]. exact Hst.
Qed.

Lemma intact_update_drug (known : list string) (drug_id : string) (record : DrugRecord) :
  In drug_id known ->
  triple (intact known) (_update_drug drug_id record) (fun _ => intact known).
Proof.
  intros Hin. unfold _update_drug.
  apply keeps_bind; [apply intact_now|]. intros t.
  apply keeps_bind; [apply intact_execute_plain; exact I|]. intros _.
  apply keeps_bind; [apply intact_execute_plain; exact I|]. intros [label_id|].
  - apply keeps_bind; [apply intact_now|]. intros t'.
    apply keeps_bind; [apply intact_execute_plain; exact I | intros; apply keeps_ret].
  - apply intact_insert_drug_label. exact Hin.
Qed.

Lemma intact_process_single_drug_body (record : DrugRecord) :
  triple (intact []) (process_single_drug_body record) (fun _ => intact []).
Proof.
  unfold process_single_drug_body.
  destruct (negb _); [apply intact_count|].
  eapply triple_bind; [apply intact_find_existing_drug | | cbv beta; intros st [Hst _]; exact Hst].
  intros existing.
  destruct existing as [drug_id|]; cbn [Transformer.truthy_opt].
  - destruct (nonempty drug_id).
    + cbn [default from_option id].
      eapply triple_weaken;
        [ apply (keeps_bind (intact [drug_id]));
          [apply intact_update_drug; left; reflexivity | intros; apply intact_count]
        | cbv beta; intros st [_ Hfound]; apply Hfound; reflexivity
        | intros res st; apply intact_tail ].
    + eapply triple_bind;
        [ eapply triple_weaken; [apply (intact_insert_drug []) | cbv beta; intros st [Hst _]; exact Hst
                              | intros res st Hq; exact Hq]
        | | cbv beta; intros st [Hst _]; exact Hst ].
      intros new_id.
      eapply triple_weaken;
        [ apply (keeps_bind (intact [new_id]));
          [apply intact_insert_drug_label; left; reflexivity | intros; apply intact_count]
        | cbv beta; intros st [_ Hnew]; apply Hnew; reflexivity
        | intros res st; apply intact_tail ].
  - eapply triple_bind;
      [ eapply triple_weaken; [apply (intact_insert_drug []) | cbv beta; intros st [Hst _]; exact Hst
                              | intros res st Hq; exact Hq]
      | | cbv beta; intros st [Hst _]; exact Hst ].
    intros new_id.
    eapply triple_weaken;
      [ apply (keeps_bind (intact [new_id]));
        [apply intact_insert_drug_label; left; reflexivity | intros; apply intact_count]
      | cbv beta; intros st [_ Hnew]; apply Hnew; reflexivity
      | intros res st; apply intact_tail ].
Qed.

Lemma intact_process_single_drug (record : DrugRecord) :
  triple (intact []) (_process_single_drug record) (fun _ => intact []).
Proof.
  unfold _process_single_drug.
  apply keeps_bind; [apply keeps_try, intact_process_single_drug_body|].
  intros [u|]; [apply keeps_ret|].
  apply keeps_bind; [apply intact_count | intros; apply keeps_raise].
Qed.

Lemma intact_process_records (drug_records : list DrugRecord) (n : nat) :
  triple (intact []) (process_records drug_records n) (fun _ => intact []).
Proof.
  revert n. induction drug_records as [|record rest IH]; intros n; cbn [process_records].
  { apply keeps_ret. }
  apply keeps_bind; [apply keeps_try, intact_process_single_drug|].
  intros [u|]; (apply keeps_bind; [apply intact_count | intros; apply IH]).
Qed.

(** [cursor()], [commit()] and [rollback()] between records. *)
Lemma intact_on_connection (call : connection_call) :
  triple (intact []) (on_connection call) (fun _ => intact []).
Proof.
  intros st res st' (c & Hc & Hcm & Hp & _). unfold on_connection. rewrite Hc.
  destruct (connection_raises _ _); intros [= <- <-].
  - exists c. repeat split; auto. intros _ x [].
  - eexists. split; [reflexivity|].
    destruct call; cbn; repeat split; auto; intros _ x [].
Qed.

Lemma intact_seed_drugs_batch (drug_records : list DrugRecord) :
  triple (intact []) (seed_drugs_batch drug_records) (fun _ => intact []).
Proof.
  unfold seed_drugs_batch. destruct drug_records as [|record rest]; [apply keeps_ret|].
  assert (Hinner : triple (intact [])
            (r ← try (seed_drugs_batch_body (record :: rest));
             match r with
             | Ok b => mret b
             | Raise => on_connection Rollback;; mret false
             end) (fun _ => intact [])).
  { apply keeps_bind.
    - apply keeps_try. unfold seed_drugs_batch_body.
      apply keeps_bind; [apply intact_on_connection|]. intros _.
      apply keeps_bind; [apply intact_process_records|]. intros n.
      destruct (0 <? n)%nat;
        (apply keeps_bind; [apply intact_on_connection | intros; apply keeps_ret]).
    - intros [b|]; [apply keeps_ret|].
      apply keeps_bind; [apply intact_on_connection | intros; apply keeps_ret]. }
  intros st res st' Hst Hrun. pose proof Hst as (c & Hc & _). rewrite Hc in Hrun.
  exact (Hinner st res st' Hst Hrun).
Qed.

(** X17.  Whatever the storage does - statements that raise, commits and
    rollbacks that fail - [seed_drugs_batch] never leaves a label row
    without its drug: if every label row committed, and every label row the
    transaction sees, belongs to a row of [drugs] before the call, the same
    holds after it.  A label is inserted only for a drug that a [SELECT]
    has just returned or that an [INSERT] has just stored. *)
Theorem labels_stay_attached (drug_records : list DrugRecord) (st st' : seeder)
    (res : result bool) (c : connection) :
  conn st = Some c ->
  referential (committed c) -> referential (pending c) ->
  seed_drugs_batch drug_records st = (res, st') ->
  exists c', conn st' = Some c' /\ referential (committed c') /\ referential (pending c').
Proof.
  intros Hc Hcm Hp Hrun.
  destruct (intact_seed_drugs_batch drug_records st res st') as (c' & Hc' & Hcm' & Hp' & _).
  - exists c. repeat split; auto. intros _ x [].
  - exact Hrun.
  - exists c'. auto.
Qed.

End Integrity.

(** *** The counters against the rows, on a server that never fails *)

Section Reliable.
Context `{World}.
Hypothesis no_incident : reliable.

(** What a run of the loop, or of a batch, has counted and stored. *)
Let tally (n : nat) (db db' : database) (s s' : Stats) : Prop :=
  processed s' = processed s + n /\
  errors s' = errors s /\
  length (drugs db') + inserted s = length (drugs db) + inserted s' /\
  length (drug_labels db) + inserted s' <= length (drug_labels db') + inserted s /\
  length (drug_labels db') + inserted s + updated s
  <= length (drug_labels db) + inserted s' + updated s'.

Lemma step_tally (record : DrugRecord) (t t' : nat) (db db' : database) (s s' : Stats) :
  step record t t' db db' s s' -> tally 0 db db' s s'.
Proof.
  unfold tally.
  intros [Hinvalid -> -> _|drug_id now _ _ _ Hdrugs Hlabels -> _
          |tu tl c1 u1 c2 u2 _ _ _ _ Hdrugs Hlabels ->].
  - cbn. lia.
  - rewrite Hdrugs, length_fmap. cbn.
    destruct Hlabels as [(_ & now' & ->)|(_ & tl & created & updated & _ & ->)].
    + rewrite length_fmap. lia.
    + rewrite length_app. cbn. lia.
  - rewrite Hdrugs, Hlabels, !length_app. cbn. lia.
Qed.

Lemma process_records_reliable (records : list DrugRecord) (n : nat) (cm db : database)
    (s : Stats) (t : nat) :
  exists db' s' t',
    process_records records n (at_ cm db s t) = (Ok (n + length records), at_ cm db' s' t') /\
    tally (length records) db db' s s'.
Proof.
  revert n db s t. induction records as [|record rest IH]; intros n db s t.
  { exists db, s, t. cbn [process_records length]. rewrite Nat.add_0_r.
    split; [reflexivity|]. unfold tally. lia. }
  destruct (process_single_drug_at no_incident record cm db s t)
    as (db1 & s1 & t1 & Hone & Hstep).
  apply step_tally in Hstep.
  destruct (IH (n + 1) db1 (add_processed s1) t1) as (db' & s' & t' & Hrest & Htally).
  exists db', s', t'. split.
  - cbn [process_records]. unfold try.
    unfold mbind, St_bind, bind, count, with_stats. rewrite Hone. cbn [conn stats tick].
    rewrite Hrest. cbn [length]. do 2 f_equal. lia.
  - unfold tally in *. cbn [length] in *. cbn in Htally. lia.
Qed.

Lemma seed_drugs_batch_reliable (records : list DrugRecord) (cm db : database)
    (s : Stats) (t : nat) :
  exists cm' db' s' t',
    seed_drugs_batch records (at_ cm db s t) = (Ok true, at_ cm' db' s' t') /\
    tally (length records) db db' s s' /\
    (records <> [] -> cm' = db').
Proof.
  destruct records as [|record rest].
  { exists cm, db, s, t. split; [reflexivity|]. split; [unfold tally; cbn; lia | congruence]. }
  destruct (process_records_reliable (record :: rest) 0 cm db s (S t))
    as (db' & s' & t' & Hloop & Htally).
  exists db', db', s', (S t'). split; [|split; [exact Htally | reflexivity]].
  unfold seed_drugs_batch. cbn [conn]. unfold try, seed_drugs_batch_body.
  unfold mbind, St_bind, bind.
  rewrite (on_connection_at no_incident). cbn [apply_call]. rewrite Hloop.
  cbn [length Nat.add Nat.ltb Nat.leb].
  rewrite (on_connection_at no_incident). reflexivity.
Qed.

(** X18.  On a server that never fails, through a connection on which
    no aborted transaction is open, a batch that is not empty is committed
    and reported as a success, no error is counted, and the counters
    agree with the rows: [processed] grows by the size of the batch, the
    table [drugs] by what [inserted] grows by, and the table [drug_labels]
    by that much at least, and by at most one more row for each record
    counted in [updated] (an updated drug that had no label gets one). *)
Theorem counters_match_rows (drug_records : list DrugRecord) (st : seeder) (c : connection) :
  conn st = Some c ->
  aborted c = false ->
  drug_records <> [] ->
  exists st' c',
    seed_drugs_batch drug_records st = (Ok true, st') /\
    conn st' = Some c' /\
    committed c' = pending c' /\
    processed (stats st') = processed (stats st) + length drug_records /\
    errors (stats st') = errors (stats st) /\
    length (drugs (pending c')) + inserted (stats st)
    = length (drugs (pending c)) + inserted (stats st') /\
    length (drug_labels (pending c)) + inserted (stats st')
    <= length (drug_labels (pending c')) + inserted (stats st) /\
    length (drug_labels (pending c')) + inserted (stats st) + updated (stats st)
    <= length (drug_labels (pending c)) + inserted (stats st') + updated (stats st').
Proof.
  intros Hconn Hclean Hne. destruct st as [cn s t]. cbn in Hconn. subst cn.
  destruct c as [cm db ab]. cbn in Hclean. subst ab.
  destruct (seed_drugs_batch_reliable drug_records cm db s t)
    as (cm' & db' & s' & t' & Hrun & (Hp & He & Hd & Hl1 & Hl2) & Hcm).
  pose proof (Hcm Hne) as ->.
  exists (at_ db' db' s' t'), {| committed := db'; pending := db'; aborted := false |}.
  cbn. repeat split; auto.
Qed.

End Reliable.

Import Examples.

(** X14, on a record of the examples. *)
Lemma validate_record_criterion_witness :
  _validate_record (record "Aspirin" "Bayer" VNone VNone) = true.
Proof.
  apply validate_record_criterion. cbn.
  split; [exists "A"%char; split; reflexivity|].
  split; [exists "B"%char; split; reflexivity|].
  split; [exists "N"%char; split; reflexivity|].
  split; lia.
Defined.


(** X16, on the batch of three records of which the second violates the
    constraint. *)
Lemma batch_accounting_witness :
  exists k,
    k <= 3 /\
    processed (stats (snd (seed_drugs_batch one_failing connected))) = 0 + k /\
    errors (stats (snd (seed_drugs_batch one_failing connected))) = 0 + 2 * (3 - k).
Proof.
  destruct batch_accounting as [Hbatch _].
  apply (Hbatch one_failing connected
           (snd (seed_drugs_batch one_failing connected))
           (fst (seed_drugs_batch one_failing connected))).
  - destruct (seed_drugs_batch one_failing connected). reflexivity.
  - eexists. reflexivity.
  - reflexivity.
Defined.

(** X17, on the same batch, into an empty store. *)
Lemma labels_stay_attached_witness :
  exists c',
    conn (snd (seed_drugs_batch one_failing connected)) = Some c' /\
    referential (committed c') /\ referential (pending c').
Proof.
  apply (labels_stay_attached one_failing connected
           (snd (seed_drugs_batch one_failing connected))
           (fst (seed_drugs_batch one_failing connected))
           {| committed := empty_db; pending := empty_db; aborted := false |}).
  - reflexivity.
  - intros dl [].
  - intros dl [].
  - destruct (seed_drugs_batch one_failing connected). reflexivity.
Defined.

(** X18, on the batch of two spellings of one drug and a second drug,
    into an empty store: three records processed, two rows in each
    table. *)
Lemma counters_match_rows_witness :
  exists st' c',
    @seed_drugs_batch reliable_world mixed_batch connected = (Ok true, st') /\
    conn st' = Some c' /\
    committed c' = pending c' /\
    processed (stats st') = 3 /\
    errors (stats st') = 0 /\
    length (drugs (pending c')) = inserted (stats st') /\
    inserted (stats st') <= length (drug_labels (pending c')) /\
    length (drug_labels (pending c')) <= inserted (stats st') + updated (stats st').
Proof.
  destruct (@counters_match_rows reliable_world) with
    (drug_records := mixed_batch) (st := connected)
    (c := {| committed := empty_db; pending := empty_db; aborted := false |})
    as (st' & c' & Hrun & Hconn & Hcm & Hp & He & Hd & Hl1 & Hl2).
  - split; intros; reflexivity.
  - reflexivity.
  - reflexivity.
  - discriminate.
  - exists st', c'. cbn in Hp, He, Hd, Hl1, Hl2.
    repeat split; try assumption; lia.
Defined.

End SeederProps.

(* ================================================================== *)
(** ** The orchestrator: which batches reach the loader *)
(* ================================================================== *)

Module MainProps.
Import Json Exc Parser Seeder SeederFacts Main.
Import Transformer (DrugRecord, issue, transform).

#[local] Open Scope list_scope.

Section Props.
Context `{Runtime} `{Transformer.Html} `{World}.

(** [transform] starts from an empty issue list on a mapping, and
    rejects anything else: the record does not depend on the issues of
    the record before. *)
Lemma transform_any_issues (raw : value) (q : list issue) :
  fst (transform raw q) = fst (transform raw []).
Proof. destruct raw; reflexivity. Qed.

Lemma seed_all_app (a b : list (list DrugRecord)) (st : seeder) :
  seed_all (a ++ b) st = (seed_all a ≫= fun _ => seed_all b) st.
Proof.
  revert st. induction a as [|x a IH]; intros st.
  - cbn [app seed_all]. reflexivity.
  - cbn [app seed_all]. unfold mbind, St_bind, bind.
    destruct (seed_drugs_batch x st) as [[u|] st1]; [|reflexivity].
    rewrite IH. reflexivity.
Qed.

Lemma run_loop_app (self : DrugSeederOrchestrator) (evs evs' : list event) (l : locals)
    (st : seeder) :
  run_loop self (evs ++ evs') l st = (run_loop self evs l ≫= run_loop self evs') st.
Proof.
  revert l st. induction evs as [|e evs IH]; intros l st.
  - reflexivity.
  - cbn [app run_loop]. destruct e as [raw|line|].
    + unfold mbind, St_bind, bind.
      destruct (run_record self raw l st) as [[l1|] st1]; [|reflexivity].
      rewrite IH. reflexivity.
    + apply IH.
    + reflexivity.
Qed.

Variable self : DrugSeederOrchestrator.

(** The records still to come for the loop in state [l]. *)
Let to_come (l : locals) (evs : list event) : list DrugRecord :=
  transformed (drop (Z.to_nat (resume_from self) - processed_count l) (yielded evs)).

Lemma yielded_cons_yield (raw : value) (evs : list event) :
  yielded (Yield raw :: evs) = raw :: yielded evs.
Proof. reflexivity. Qed.

Lemma yielded_cons_printed (line : string) (evs : list event) :
  yielded (Printed line :: evs) = yielded evs.
Proof. reflexivity. Qed.

Lemma run_loop_yield (raw : value) (evs : list event) (l : locals) (st : seeder) :
  run_loop self (Yield raw :: evs) l st
  = match run_record self raw l st with
    | (Ok l', st1) => run_loop self evs l' st1
    | (Raise, st1) => (Raise, st1)
    end.
Proof. reflexivity. Qed.

(** The body of the loop on a record that is skipped, and on one that is
    not. *)
Lemma run_record_skipped (raw : value) (l : locals) (st : seeder) :
  (Z.of_nat (processed_count l) <? resume_from self)%Z = true ->
  run_record self raw l st
  = (Ok {| batch := batch l; processed_count := processed_count l + 1;
           current_position := current_position l;
           data_quality_issues := data_quality_issues l |}, st).
Proof. intros Hskip. unfold run_record. rewrite Hskip. reflexivity. Qed.

Lemma run_record_worked (raw : value) (l : locals) (st : seeder) :
  batch_size self <> 0%Z ->
  (Z.of_nat (processed_count l) <? resume_from self)%Z = false ->
  run_record self raw l st
  = let batch' :=
      match fst (transform raw (data_quality_issues l)) with
      | Some r => batch l ++ [r]
      | None => batch l
      end in
    let after b :=
      {| batch := b; processed_count := processed_count l + 1;
         current_position := processed_count l + 1;
         data_quality_issues := snd (transform raw (data_quality_issues l)) |} in
    if (batch_size self <=? Z.of_nat (length batch'))%Z then
      match seed_drugs_batch batch' st with
      | (Ok _, st1) => (Ok (after []), st1)
      | (Raise, st1) => (Raise, st1)
      end
    else (Ok (after batch'), st).
Proof.
  intros Hsize Hskip. unfold run_record. rewrite Hskip.
  destruct (transform raw (data_quality_issues l)) as [drug_record issues].
  cbv zeta. cbn [fst snd].
  destruct (_ <=? _)%Z; [|reflexivity].
  assert (Hten : (batch_size self * 10 =? 0)%Z = false) by (apply Z.eqb_neq; lia).
  rewrite Hten. unfold mbind, St_bind, bind.
  destruct (seed_drugs_batch _ st) as [[b|] st1]; reflexivity.
Qed.

Section Positive.
Hypothesis batches_have_size : (1 <= batch_size self)%Z.

Lemma size_not_zero : batch_size self <> 0%Z.
Proof. lia. Qed.

(** The loop, from any state with a batch that is not full: the batch
    and the records to come are cut into full batches, seeded one after
    the other, and a rest that is left in [batch]. *)
Lemma run_loop_batches (evs : list event) (l : locals) :
  ~ In Failed evs ->
  length (batch l) < Z.to_nat (batch_size self) ->
  exists full tail,
    batch l ++ to_come l evs = concat full ++ tail /\
    Forall (fun b => length b = Z.to_nat (batch_size self)) full /\
    length tail < Z.to_nat (batch_size self) /\
    forall st res st',
      run_loop self evs l st = (res, st') ->
      match res with
      | Ok l' => seed_all full st = (Ok tt, st') /\ batch l' = tail
      | Raise => seed_all full st = (Raise, st')
      end.
Proof.
  revert l. induction evs as [|e evs IH]; intros l Hclean Hroom.
  { exists [], (batch l). unfold to_come, transformed. cbn.
    rewrite drop_nil. cbn. rewrite app_nil_r.
    split; [reflexivity|]. split; [constructor|]. split; [exact Hroom|].
    intros st res st' [= <- <-]. auto. }
  assert (Hclean' : ~ In Failed evs) by (intros Hin; apply Hclean; right; exact Hin).
  destruct e as [raw|line|].
  3:{ exfalso. apply Hclean. left. reflexivity. }
  2:{ destruct (IH l Hclean' Hroom) as (full & tail & Heq & Hfull & Htail & Hrun).
      exists full, tail. unfold to_come in *. rewrite yielded_cons_printed.
      repeat split; auto. }
  destruct (Z.of_nat (processed_count l) <? resume_from self)%Z eqn:Hskip.
  - (* the record is skipped *)
    set (l1 := {| batch := batch l; processed_count := processed_count l + 1;
                  current_position := current_position l;
                  data_quality_issues := data_quality_issues l |}).
    destruct (IH l1 Hclean' Hroom) as (full & tail & Heq & Hfull & Htail & Hrun).
    exists full, tail. split; [|split; [exact Hfull | split; [exact Htail|]]].
    + rewrite <- Heq. unfold to_come. rewrite yielded_cons_yield.
      cbn [batch processed_count l1]. apply Z.ltb_lt in Hskip.
      replace (Z.to_nat (resume_from self) - processed_count l)
        with (S (Z.to_nat (resume_from self) - (processed_count l + 1))) by lia.
      reflexivity.
    + intros st res st'. rewrite run_loop_yield, (run_record_skipped raw l st Hskip).
      apply Hrun.
  - (* the record is transformed *)
    pose proof Hskip as Hle. apply Z.ltb_ge in Hle.
    assert (Hnow : to_come l (Yield raw :: evs)
                   = match fst (transform raw (data_quality_issues l)) with
                     | Some r => r :: transformed (yielded evs)
                     | None => transformed (yielded evs)
                     end).
    { unfold to_come. rewrite yielded_cons_yield.
      replace (Z.to_nat (resume_from self) - processed_count l) with 0 by lia.
      unfold transformed at 1. cbn [drop omap list_omap].
      rewrite <- (transform_any_issues raw (data_quality_issues l)).
      destruct (fst (transform raw (data_quality_issues l))); reflexivity. }
    assert (Hnext : forall l1, processed_count l1 = processed_count l + 1 ->
                               to_come l1 evs = transformed (yielded evs)).
    { intros l1 Hcount. unfold to_come.
      replace (Z.to_nat (resume_from self) - processed_count l1) with 0 by lia.
      reflexivity. }
    rewrite Hnow.
    set (drug_record := fst (transform raw (data_quality_issues l))).
    set (batch' := match drug_record with
                   | Some r => batch l ++ [r]
                   | None => batch l
                   end).
    destruct (batch_size self <=? Z.of_nat (length batch'))%Z eqn:Hfull.
    + (* the batch is full *)
      pose proof Hfull as Hfull'. apply Z.leb_le in Hfull'.
      assert (Hsome : exists r, drug_record = Some r /\
                                length batch' = Z.to_nat (batch_size self)).
      { subst batch'. destruct drug_record as [r|].
        - exists r. split; [reflexivity|]. rewrite length_app in *. cbn [length] in *. lia.
        - lia. }
      destruct Hsome as (r & Hr & Hlen).
      set (l1 := {| batch := []; processed_count := processed_count l + 1;
                    current_position := processed_count l + 1;
                    data_quality_issues := snd (transform raw (data_quality_issues l)) |}).
      destruct (IH l1 Hclean') as (full & tail & Heq & Hfulls & Htail & Hrun).
      { cbn [batch l1 length]. lia. }
      rewrite (Hnext l1 eq_refl) in Heq. cbn [batch l1 app] in Heq.
      exists (batch' :: full), tail.
      split; [|split; [constructor; assumption | split; [exact Htail|]]].
      { cbn [concat]. rewrite <- app_assoc, <- Heq. subst batch'. rewrite Hr.
        rewrite <- app_assoc. reflexivity. }
      intros st res st'. rewrite run_loop_yield, (run_record_worked raw l st size_not_zero Hskip).
      cbv zeta. fold drug_record. fold batch'. rewrite Hfull. cbn [seed_all].
      unfold mbind, St_bind, bind.
      destruct (seed_drugs_batch batch' st) as [[b|] st1].
      * apply Hrun.
      * intros [= <- <-]. reflexivity.
    + (* the batch has room left *)
      pose proof Hfull as Hfull'. apply Z.leb_gt in Hfull'.
      set (l1 := {| batch := batch'; processed_count := processed_count l + 1;
                    current_position := processed_count l + 1;
                    data_quality_issues := snd (transform raw (data_quality_issues l)) |}).
      destruct (IH l1 Hclean') as (full & tail & Heq & Hfulls & Htail & Hrun).
      { cbn [batch l1]. lia. }
      rewrite (Hnext l1 eq_refl) in Heq. cbn [batch l1] in Heq.
      exists full, tail.
      split; [|split; [exact Hfulls | split; [exact Htail|]]].
      { rewrite <- Heq. subst batch'. destruct drug_record as [r|]; [|reflexivity].
        rewrite <- app_assoc. reflexivity. }
      intros st res st'. rewrite run_loop_yield, (run_record_worked raw l st size_not_zero Hskip).
      cbv zeta. fold drug_record. fold batch'. rewrite Hfull.
      apply Hrun.
Qed.

(** The loop and the last batch, as calls of the loader. *)
Lemma run_batches_cut (events : list event) (issues : list issue) :
  ~ In Failed events ->
  exists full tail,
    resumed self events = concat full ++ tail /\
    Forall (fun b => length b = Z.to_nat (batch_size self)) full /\
    length tail < Z.to_nat (batch_size self) /\
    forall st, run_batches self events issues st = seed_all (full ++ [tail]) st.
Proof.
  intros Hclean.
  destruct (run_loop_batches events (at_start issues) Hclean) as (full & tail & Heq & Hfull & Htail & Hrun).
  { cbn. lia. }
  exists full, tail.
  split; [|split; [exact Hfull | split; [exact Htail|]]].
  { rewrite <- Heq. unfold to_come, resumed, at_start.
    cbn [batch processed_count app]. rewrite Nat.sub_0_r. reflexivity. }
  intros st. unfold run_batches. rewrite seed_all_app.
  destruct (run_loop self events (at_start issues) st) as [[l'|] st1] eqn:Hloop.
  - destruct (Hrun st _ _ Hloop) as [Hseed Hbatch].
    rewrite (bind_step _ _ _ _ _ Hloop), (bind_step _ _ _ _ _ Hseed), Hbatch.
    destruct tail as [|r tail]; reflexivity.
  - pose proof (Hrun st _ _ Hloop) as Hseed.
    rewrite (bind_raise _ _ _ _ Hloop), (bind_raise _ _ _ _ Hseed). reflexivity.
Qed.

(** X19.  With a batch size of at least 1, over a run of the generator
    that does not fail, the orchestrator hands the loader exactly the
    records that [transform] makes of the documents yielded after the
    first [resume_from], each once and in order: in consecutive batches of
    exactly [batch_size] records, followed by one last batch with the
    records left over (the call for it is left out when none is left,
    which for the loader is the same as a call with an empty batch). *)
Theorem run_seeds_in_batches (events : list event) (issues : list issue) :
  ~ In Failed events ->
  exists full tail,
    resumed self events = concat full ++ tail /\
    Forall (fun b => length b = Z.to_nat (batch_size self)) full /\
    length tail < Z.to_nat (batch_size self) /\
    forall st, run_batches self events issues st = seed_all (full ++ [tail]) st.
Proof. apply run_batches_cut. Qed.

(** X20.  When the generator fails - at an item that is not a mapping,
    or at the malformed tail of the file - [run] raises, and the records
    that were in [batch] at that moment never reach the loader: only the
    full batches before the failure have been seeded. *)
Theorem failure_loses_open_batch (events rest : list event) (issues : list issue) :
  ~ In Failed events ->
  exists full tail,
    resumed self events = concat full ++ tail /\
    Forall (fun b => length b = Z.to_nat (batch_size self)) full /\
    length tail < Z.to_nat (batch_size self) /\
    forall st,
      run_batches self (events ++ Failed :: rest) issues st
      = (Raise, snd (seed_all full st)).
Proof.
  intros Hclean.
  destruct (run_loop_batches events (at_start issues) Hclean) as (full & tail & Heq & Hfull & Htail & Hrun).
  { cbn. lia. }
  exists full, tail.
  split; [|split; [exact Hfull | split; [exact Htail|]]].
  { rewrite <- Heq. unfold to_come, resumed, at_start.
    cbn [batch processed_count app]. rewrite Nat.sub_0_r. reflexivity. }
  intros st. unfold run_batches.
  assert (Hfail : run_loop self (events ++ Failed :: rest) (at_start issues) st
                  = (Raise, snd (seed_all full st))).
  { rewrite run_loop_app.
    destruct (run_loop self events (at_start issues) st) as [[l'|] st1] eqn:Hloop.
    - destruct (Hrun st _ _ Hloop) as [Hseed _].
      rewrite (bind_step _ _ _ _ _ Hloop), Hseed. reflexivity.
    - pose proof (Hrun st _ _ Hloop) as Hseed.
      rewrite (bind_raise _ _ _ _ Hloop), Hseed. reflexivity. }
  rewrite (bind_raise _ _ _ _ Hfail). reflexivity.
Qed.

Hypothesis no_incident : reliable.

Lemma seed_all_reliable (batches : list (list DrugRecord)) (cm db : database)
    (s : Stats) (t : nat) :
  exists cm' db' s' t',
    seed_all batches (at_ cm db s t) = (Ok tt, at_ cm' db' s' t') /\
    processed s' = processed s + length (concat batches) /\
    errors s' = errors s.
Proof.
  revert cm db s t. induction batches as [|b rest IH]; intros cm db s t.
  { exists cm, db, s, t. cbn. split; [reflexivity | lia]. }
  destruct (SeederProps.seed_drugs_batch_reliable no_incident b cm db s t)
    as (cm1 & db1 & s1 & t1 & Hrun & (Hp & He & _) & _).
  destruct (IH cm1 db1 s1 t1) as (cm' & db' & s' & t' & Hrest & Hp' & He').
  exists cm', db', s', t'. cbn [seed_all concat].
  rewrite (bind_step _ _ _ _ _ Hrun), length_app.
  split; [exact Hrest | lia].
Qed.

(** X21.  On a server that never fails, through a connection on which
    no aborted transaction is open, with a batch size of at least 1 and
    over a run of the generator that does not fail, the part of [run] that
    stores records returns, no error is counted, and [processed] grows by
    the number of records [transform] made of the documents yielded after
    the first [resume_from]: every one of them reached the loader. *)
Theorem run_counts_every_record (events : list event) (issues : list issue)
    (st : seeder) (c : connection) :
  conn st = Some c ->
  aborted c = false ->
  ~ In Failed events ->
  exists st',
    run_batches self events issues st = (Ok tt, st') /\
    processed (stats st') = processed (stats st) + length (resumed self events) /\
    errors (stats st') = errors (stats st).
Proof.
  intros Hconn Hopen Hclean. destruct st as [cn s t]. cbn in Hconn. subst cn.
  destruct c as [cm db ab]. cbn in Hopen. subst ab.
  destruct (run_batches_cut events issues Hclean) as (full & tail & Heq & _ & _ & Hrun).
  destruct (seed_all_reliable (full ++ [tail]) cm db s t)
    as (cm' & db' & s' & t' & Hseed & Hp & He).
  exists (at_ cm' db' s' t'). rewrite Hrun, Heq. split; [exact Hseed|].
  cbn [stats]. rewrite concat_app in Hp. cbn [concat] in Hp. rewrite app_nil_r in Hp. auto.
Qed.

End Positive.

Section Negative.
Hypothesis negative : (batch_size self < 0)%Z.

Lemma run_loop_one_by_one (evs : list event) (l : locals) :
  ~ In Failed evs ->
  batch l = [] ->
  forall st res st',
    run_loop self evs l st = (res, st') ->
    match res with
    | Ok l' => seed_all ((fun r => [r]) <$> to_come l evs) st = (Ok tt, st') /\ batch l' = []
    | Raise => seed_all ((fun r => [r]) <$> to_come l evs) st = (Raise, st')
    end.
Proof.
  revert l. induction evs as [|e evs IH]; intros l Hclean Hbatch st res st'.
  { unfold to_come, transformed. cbn. rewrite drop_nil. cbn.
    intros [= <- <-]. auto. }
  assert (Hclean' : ~ In Failed evs) by (intros Hin; apply Hclean; right; exact Hin).
  destruct e as [raw|line|].
  3:{ exfalso. apply Hclean. left. reflexivity. }
  2:{ unfold to_come. rewrite yielded_cons_printed. apply (IH l Hclean' Hbatch). }
  rewrite run_loop_yield.
  destruct (Z.of_nat (processed_count l) <? resume_from self)%Z eqn:Hskip.
  - rewrite (run_record_skipped raw l st Hskip).
    set (l1 := {| batch := batch l; processed_count := processed_count l + 1;
                  current_position := current_position l;
                  data_quality_issues := data_quality_issues l |}).
    assert (Hsame : to_come l (Yield raw :: evs) = to_come l1 evs).
    { unfold to_come. rewrite yielded_cons_yield.
      cbn [processed_count l1]. apply Z.ltb_lt in Hskip.
      replace (Z.to_nat (resume_from self) - processed_count l)
        with (S (Z.to_nat (resume_from self) - (processed_count l + 1))) by lia.
      reflexivity. }
    rewrite Hsame. apply (IH l1 Hclean' Hbatch).
  - assert (Hsize : batch_size self <> 0%Z) by lia.
    rewrite (run_record_worked raw l st Hsize Hskip). cbv zeta. rewrite Hbatch.
    pose proof Hskip as Hle. apply Z.ltb_ge in Hle.
    set (drug_record := fst (transform raw (data_quality_issues l))).
    set (batch' := match drug_record with
                   | Some r => [] ++ [r]
                   | None => []
                   end).
    assert (Hfull : (batch_size self <=? Z.of_nat (length batch'))%Z = true)
      by (apply Z.leb_le; lia).
    rewrite Hfull.
    set (l1 := {| batch := []; processed_count := processed_count l + 1;
                  current_position := processed_count l + 1;
                  data_quality_issues := snd (transform raw (data_quality_issues l)) |}).
    assert (Hnow : to_come l (Yield raw :: evs) = batch' ++ to_come l1 evs).
    { unfold to_come. rewrite yielded_cons_yield. cbn [processed_count l1].
      replace (Z.to_nat (resume_from self) - processed_count l) with 0 by lia.
      replace (Z.to_nat (resume_from self) - (processed_count l + 1)) with 0 by lia.
      unfold transformed at 1. cbn [drop omap list_omap].
      rewrite <- (transform_any_issues raw (data_quality_issues l)).
      subst batch' drug_record.
      destruct (fst (transform raw (data_quality_issues l))); reflexivity. }
    rewrite Hnow. subst batch'.
    destruct drug_record as [r|]; cbn [app fmap list_fmap seed_all].
    + destruct (seed_drugs_batch [r] st) as [[b|] st1] eqn:Hseed.
      * rewrite !(bind_step _ _ _ _ _ Hseed). apply (IH l1 Hclean' eq_refl).
      * rewrite !(bind_raise _ _ _ _ Hseed). intros [= <- <-]. reflexivity.
    + change (seed_drugs_batch [] st) with (Ok true, st).
      apply (IH l1 Hclean' eq_refl).
Qed.

(** X22.  A negative batch size is not refused: every record that
    [transform] returns is then seeded in a batch of its own, as soon as
    it is made. *)
Theorem negative_batch_size_seeds_singly (events : list event) (issues : list issue)
    (st : seeder) :
  ~ In Failed events ->
  run_batches self events issues st
  = seed_all ((fun r => [r]) <$> resumed self events) st.
Proof.
  intros Hclean. unfold run_batches.
  pose proof (run_loop_one_by_one events (at_start issues) Hclean eq_refl st) as Hrun.
  assert (Hsame : to_come (at_start issues) events = resumed self events).
  { unfold to_come, resumed, at_start. cbn [processed_count]. rewrite Nat.sub_0_r. reflexivity. }
  rewrite Hsame in Hrun.
  destruct (run_loop self events (at_start issues) st) as [[l'|] st1] eqn:Hloop.
  - destruct (Hrun _ _ eq_refl) as [-> Hbatch].
    rewrite (bind_step _ _ _ _ _ Hloop), Hbatch. reflexivity.
  - rewrite (Hrun _ _ eq_refl), (bind_raise _ _ _ _ Hloop). reflexivity.
Qed.

End Negative.

End Props.

Section Zero.
Context `{Runtime} `{Transformer.Html} `{World}.

(** X23.  With a batch size of 0 the run does not get past the first
    document it works on: the record, if [transform] returns one, is
    seeded as a batch of its own, and the test for the status line then
    divides by zero. *)
Theorem zero_batch_size_fails (self : DrugSeederOrchestrator) (raw : value)
    (rest : list event) (issues : list issue) (st : seeder) :
  batch_size self = 0%Z ->
  (resume_from self <= 0)%Z ->
  run_batches self (Yield raw :: rest) issues st
  = (Raise, snd (seed_drugs_batch (option_list (fst (transform raw issues))) st)).
Proof.
  intros Hzero Hresume. unfold run_batches. cbn [run_loop].
  unfold run_record. cbn [at_start processed_count batch data_quality_issues].
  assert (Hskip : (Z.of_nat 0 <? resume_from self)%Z = false) by (apply Z.ltb_ge; lia).
  rewrite Hskip.
  destruct (transform raw issues) as [drug_record q] eqn:Htransform. cbn [fst].
  rewrite Hzero.
  assert (Hfull : forall b : list DrugRecord, (0 <=? Z.of_nat (length b))%Z = true)
    by (intros b; apply Z.leb_le; lia).
  rewrite Hfull. cbn [Z.mul Z.eqb].
  assert (Hbatch : match drug_record with Some r => [] ++ [r] | None => [] end
                   = option_list drug_record) by (destruct drug_record; reflexivity).
  rewrite Hbatch.
  unfold mbind, St_bind, bind.
  destruct (seed_drugs_batch (option_list drug_record) st) as [[b|] st1]; reflexivity.
Qed.

End Zero.

Import Examples.

(** X19, on the file of three documents, in batches of two: the two
    documents that are yielded make one full batch. *)
Lemma run_seeds_in_batches_witness :
  exists full tail,
    resumed {| batch_size := 2; resume_from := 0 |} (parse_drugs feed) = concat full ++ tail /\
    Forall (fun b => length b = 2) full /\
    length tail < 2 /\
    forall st,
      run_batches {| batch_size := 2; resume_from := 0 |} (parse_drugs feed) [] st
      = seed_all (full ++ [tail]) st.
Proof.
  apply (run_seeds_in_batches {| batch_size := 2; resume_from := 0 |}).
  - cbn. lia.
  - vm_compute. intros [Hin|[Hin|[Hin|[]]]]; discriminate.
Defined.

(** X20, on the same file with a failure after its three documents, in
    batches of five: nothing is seeded. *)
Lemma failure_loses_open_batch_witness :
  exists full tail,
    resumed {| batch_size := 5; resume_from := 0 |} (parse_drugs feed) = concat full ++ tail /\
    Forall (fun b => length b = 5) full /\
    length tail < 5 /\
    forall st,
      run_batches {| batch_size := 5; resume_from := 0 |} (parse_drugs feed ++ [Failed]) [] st
      = (Raise, snd (seed_all full st)).
Proof.
  apply (failure_loses_open_batch {| batch_size := 5; resume_from := 0 |}).
  - cbn. lia.
  - vm_compute. intros [Hin|[Hin|[Hin|[]]]]; discriminate.
Defined.

(** X23, on the test document of the module. *)
Lemma zero_batch_size_fails_witness :
  fst (run_batches {| batch_size := 0; resume_from := 0 |}
         [Yield (VDict emgality_doc); Yield (VDict admitted_doc)] [] connected)
  = Raise.
Proof.
  rewrite (zero_batch_size_fails {| batch_size := 0; resume_from := 0 |});
    [reflexivity | reflexivity | cbn; lia].
Defined.

(** X22, on the file of three documents, with a batch size of -1. *)
Lemma negative_batch_size_seeds_singly_witness :
  run_batches {| batch_size := -1; resume_from := 0 |} (parse_drugs feed) [] connected
  = seed_all ((fun r => [r]) <$> resumed {| batch_size := -1; resume_from := 0 |}
                                          (parse_drugs feed)) connected.
Proof.
  apply (negative_batch_size_seeds_singly {| batch_size := -1; resume_from := 0 |}).
  - cbn. lia.
  - vm_compute. intros [Hin|[Hin|[Hin|[]]]]; discriminate.
Defined.

(** X21, on the file of three documents, in batches of two, into an
    empty store. *)
Lemma run_counts_every_record_witness :
  exists st',
    @run_batches runtime html reliable_world {| batch_size := 2; resume_from := 0 |}
      (parse_drugs feed) [] connected = (Ok tt, st') /\
    processed (stats st') = 2 /\
    errors (stats st') = 0.
Proof.
  destruct (@run_counts_every_record runtime html reliable_world
              {| batch_size := 2; resume_from := 0 |}) with
    (events := parse_drugs feed) (issues := @nil issue) (st := connected)
    (c := {| committed := empty_db; pending := empty_db; aborted := false |})
    as (st' & Hrun & Hp & He).
  - cbn. lia.
  - split; intros; reflexivity.
  - reflexivity.
  - reflexivity.
  - vm_compute. intros [Hin|[Hin|[Hin|[]]]]; discriminate.
  - exists st'. split; [exact Hrun|]. split; [|exact He].
    rewrite Hp. vm_compute. reflexivity.
Defined.

End MainProps.
